(** * WAV reader / writer of fdkaac (win32/wav_rw.cc, win32/wav_rw.h)

    A shallow embedding of the header codec, the parameter validator, the
    sample conversion and the two stream classes, followed by the properties
    checked against the specification.

    Conventions of the embedding.
    - Fixed-width C++ integers are [Z] with the wrap-around of every
      conversion written out ([u16], [u32], [u64], [to_int]).
    - [assert] is taken as enabled: wav_rw.h says that all error handling is
      by CHECK(), and the constructors run their I/O inside [assert].  A
      failed assertion aborts the program; it is the [None] of an [option].
    - The in-memory image of [WavHeader] is little-endian without padding
      (x86; [WriteLE16]/[WriteLE32] store the host representation and the
      struct is copied with [memcpy]).
    - [float] is IEEE-754 binary32 with round-to-nearest-even, operations
      evaluated in single precision ([SpecFloat] at precision 24). *)

From Stdlib Require Import ZArith List Bool Lia String.
From Stdlib Require Import Strings.Byte.
From Stdlib Require Import Floats.SpecFloat.
From coqutil Require Import Byte Word.LittleEndianList.
Import ListNotations.
Local Open Scope Z_scope.
Local Open Scope list_scope.

(** Bytes are the 256 constructors of [Init.Byte.byte]. *)
Local Abbreviation byte := Init.Byte.byte (only parsing).

(** ** Fixed-width integers *)

Definition UINT16_MAX : Z := 65535.
Definition UINT32_MAX : Z := 4294967295.
Definition INT16_MAX : Z := 32767.
Definition INT16_MIN : Z := -32768.

Definition u16 (z : Z) : Z := z mod 2 ^ 16.
Definition u32 (z : Z) : Z := z mod 2 ^ 32.
Definition u64 (z : Z) : Z := z mod 2 ^ 64.

(** Conversion of a 32-bit unsigned value to [int] (two's complement). *)
Definition to_int (z : Z) : Z := (z + 2 ^ 31) mod 2 ^ 32 - 2 ^ 31.

(** Conversion to [int16_t] (two's complement). *)
Definition to_int16 (z : Z) : Z := (z + 2 ^ 15) mod 2 ^ 16 - 2 ^ 15.

Definition is_int (z : Z) : Prop := - 2 ^ 31 <= z < 2 ^ 31.
Definition is_u32 (z : Z) : Prop := 0 <= z < 2 ^ 32.

(** ** The option monad of aborting code *)

Definition bind {A B : Type} (m : option A) (k : A -> option B) : option B :=
  match m with
  | Some a => k a
  | None => None
  end.

Notation "x <- m ;; k" := (bind m (fun x => k))
  (at level 61, m at next level, right associativity).
Notation "' p <- m ;; k" := (bind m (fun x => let p := x in k))
  (at level 61, p pattern, m at next level, right associativity).

(** [assert(b)] *)
Definition assert (b : bool) : option unit := if b then Some tt else None.

(** ** Header layout *)

Module ChunkHeader.
Record t : Type := mk { ID : Z; Size : Z }.
End ChunkHeader.

Module FmtSubchunk.
Record t : Type := mk {
  header : ChunkHeader.t;
  AudioFormat : Z;
  NumChannels : Z;
  SampleRate : Z;
  ByteRate : Z;
  BlockAlign : Z;
  BitsPerSample : Z
}.
End FmtSubchunk.

Module WavHeader.
Record t : Type := mk {
  riff_header : ChunkHeader.t;
  riff_Format : Z;
  fmt : FmtSubchunk.t;
  data_header : ChunkHeader.t
}.
End WavHeader.

Definition sizeof_ChunkHeader : Z := 8.
Definition sizeof_FmtSubchunk : Z := 24.
Definition sizeof_header_data : Z := 8.

(** enum WavFormat; a value read from a file is any 16-bit code. *)
Definition WavFormat : Type := Z.
Definition kWavFormatPcm : WavFormat := 1.
Definition kWavFormatALaw : WavFormat := 6.
Definition kWavFormatMuLaw : WavFormat := 7.

Definition kWavHeaderSize : Z := 44.
Definition kWavFormat : WavFormat := kWavFormatPcm.
Definition kBytesPerSample : Z := 2.

Definition WriteFourCC (a b c d : byte) : Z :=
  Z.lor (Z.lor (Z.lor (byte.unsigned a)
                      (Z.shiftl (byte.unsigned b) 8))
               (Z.shiftl (byte.unsigned c) 16))
        (Z.shiftl (byte.unsigned d) 24).

Definition ReadLE16 (x : Z) : Z := x.
Definition ReadLE32 (x : Z) : Z := x.

(** The four bytes of the in-memory representation of [x]. *)
Definition ReadFourCC (x : Z) : list byte := le_split 4 x.

Definition fourcc_eqb (x : list byte) (s : string) : bool :=
  if list_eq_dec Byte.byte_eq_dec x (list_byte_of_string s) then true else false.

Definition RiffChunkSize (bytes_in_payload : Z) : Z :=
  u32 (bytes_in_payload + kWavHeaderSize - sizeof_ChunkHeader).

Definition ByteRate (num_channels sample_rate bytes_per_sample : Z) : Z :=
  u32 (u32 (u32 num_channels * sample_rate) * bytes_per_sample).

Definition BlockAlign (num_channels bytes_per_sample : Z) : Z :=
  u16 (num_channels * bytes_per_sample).

Definition kFmtSubchunkSize : Z := u32 (sizeof_FmtSubchunk - sizeof_ChunkHeader).

(** ** Parameter validator *)

Definition CheckWavParameters (num_channels sample_rate : Z) (format : WavFormat)
    (bytes_per_sample num_samples : Z) : bool :=
  if (num_channels <=? 0) || (sample_rate <=? 0) || (bytes_per_sample <=? 0)
  then false
  else if u64 sample_rate >? UINT32_MAX then false
  else if u64 num_channels >? UINT16_MAX then false
  else if u64 (u64 bytes_per_sample * 8) >? UINT16_MAX then false
  else if u64 (u64 (u64 sample_rate * num_channels) * bytes_per_sample)
            >? UINT32_MAX then false
  else if
    (if format =? kWavFormatPcm
     then negb (bytes_per_sample =? 1) && negb (bytes_per_sample =? 2)
     else if (format =? kWavFormatALaw) || (format =? kWavFormatMuLaw)
     then negb (bytes_per_sample =? 1)
     else true)
  then false
  else
    let max_samples :=
      u32 ((UINT32_MAX - (kWavHeaderSize - sizeof_ChunkHeader))
           / bytes_per_sample) in
    if num_samples >? max_samples then false
    else if negb (num_samples mod num_channels =? 0) then false
    else true.

(** ** Header encoder *)

Definition header_fields
    (num_channels sample_rate : Z) (format : WavFormat)
    (bytes_per_sample num_samples : Z) : WavHeader.t :=
  let bytes_in_payload := u32 (bytes_per_sample * num_samples) in
  WavHeader.mk
    (ChunkHeader.mk (WriteFourCC "R" "I" "F" "F") (RiffChunkSize bytes_in_payload))
    (WriteFourCC "W" "A" "V" "E")
    (FmtSubchunk.mk
       (ChunkHeader.mk (WriteFourCC "f" "m" "t" " ") kFmtSubchunkSize)
       (u16 format)
       (u16 num_channels)
       (u32 sample_rate)
       (ByteRate num_channels sample_rate bytes_per_sample)
       (BlockAlign num_channels bytes_per_sample)
       (u16 (8 * bytes_per_sample)))
    (ChunkHeader.mk (WriteFourCC "d" "a" "t" "a") bytes_in_payload).

Definition bytes_of_ChunkHeader (h : ChunkHeader.t) : list byte :=
  le_split 4 (ChunkHeader.ID h) ++ le_split 4 (ChunkHeader.Size h).

(** The first 36 bytes of the struct: [riff] and [fmt]. *)
Definition bytes_of_riff_fmt (h : WavHeader.t) : list byte :=
  let f := WavHeader.fmt h in
  bytes_of_ChunkHeader (WavHeader.riff_header h)
  ++ le_split 4 (WavHeader.riff_Format h)
  ++ bytes_of_ChunkHeader (FmtSubchunk.header f)
  ++ le_split 2 (FmtSubchunk.AudioFormat f)
  ++ le_split 2 (FmtSubchunk.NumChannels f)
  ++ le_split 4 (FmtSubchunk.SampleRate f)
  ++ le_split 4 (FmtSubchunk.ByteRate f)
  ++ le_split 2 (FmtSubchunk.BlockAlign f)
  ++ le_split 2 (FmtSubchunk.BitsPerSample f).

(** [memcpy(buf, &header, kWavHeaderSize)] *)
Definition bytes_of_WavHeader (h : WavHeader.t) : list byte :=
  bytes_of_riff_fmt h ++ bytes_of_ChunkHeader (WavHeader.data_header h).

Definition WriteWavHeader
    (num_channels sample_rate : Z) (format : WavFormat)
    (bytes_per_sample num_samples : Z) : option (list byte) :=
  _ <- assert (CheckWavParameters num_channels sample_rate format
                 bytes_per_sample num_samples) ;;
  Some (bytes_of_WavHeader
          (header_fields num_channels sample_rate format
             bytes_per_sample num_samples)).

(** ** Header decoder *)

(** class ReadableWav over an in-memory source: the unread bytes. *)
Definition ReadableWav : Type := list byte.

(** [Read(buf, num_bytes)]: the bytes obtained (their number is the return
    value) and the source after the call. *)
Definition Read (readable : ReadableWav) (num_bytes : Z)
  : list byte * ReadableWav :=
  (firstn (Z.to_nat num_bytes) readable, skipn (Z.to_nat num_bytes) readable).

Definition field (buf : list byte) (offset size : nat) : Z :=
  le_combine (firstn size (skipn offset buf)).

Definition ChunkHeader_of_bytes (buf : list byte) (offset : nat) : ChunkHeader.t :=
  ChunkHeader.mk (field buf offset 4) (field buf (offset + 4) 4).

(** The struct whose first 36 bytes are [b36] and whose [data] member is
    [b8]. *)
Definition WavHeader_of_bytes (b36 b8 : list byte) : WavHeader.t :=
  WavHeader.mk
    (ChunkHeader_of_bytes b36 0)
    (field b36 8 4)
    (FmtSubchunk.mk
       (ChunkHeader_of_bytes b36 12)
       (field b36 20 2)
       (field b36 22 2)
       (field b36 24 4)
       (field b36 28 4)
       (field b36 32 2)
       (field b36 34 2))
    (ChunkHeader_of_bytes b8 0).

Record WavParams : Type := mkParams {
  num_channels : Z;
  sample_rate : Z;
  format : WavFormat;
  bytes_per_sample : Z;
  num_samples : Z
}.

Definition len (l : list byte) : Z := Z.of_nat (List.length l).

(** The reads of [ReadWavHeader]: 36 bytes, the optional extension, the
    [data] chunk header. *)
Definition read_header_bytes (readable : ReadableWav)
  : option (WavHeader.t * ReadableWav) :=
  let '(b36, readable) := Read readable (kWavHeaderSize - sizeof_header_data) in
  if negb (len b36 =? kWavHeaderSize - sizeof_header_data) then None
  else
    let fmt_size := ReadLE32 (field b36 16 4) in
    readable <-
      (if negb (fmt_size =? kFmtSubchunkSize) then
         if negb (kFmtSubchunkSize + 2 =? fmt_size) then None
         else
           let '(ext, readable) := Read readable 2 in
           if negb (len ext =? 2) then None
           else if negb (to_int16 (le_combine ext) =? 0) then None
           else Some readable
       else Some readable) ;;
    let '(b8, readable) := Read readable sizeof_header_data in
    if negb (len b8 =? sizeof_header_data) then None
    else Some (WavHeader_of_bytes b36 b8, readable).

(** The parsing and the checks of [ReadWavHeader] on the struct read. *)
Definition parse_header (header : WavHeader.t) : option WavParams :=
  let f := WavHeader.fmt header in
  let format := ReadLE16 (FmtSubchunk.AudioFormat f) in
  let num_channels := ReadLE16 (FmtSubchunk.NumChannels f) in
  let sample_rate := to_int (ReadLE32 (FmtSubchunk.SampleRate f)) in
  let bytes_per_sample := ReadLE16 (FmtSubchunk.BitsPerSample f) / 8 in
  let bytes_in_payload := ReadLE32 (ChunkHeader.Size (WavHeader.data_header header)) in
  if bytes_per_sample <=? 0 then None
  else
    let num_samples := bytes_in_payload / bytes_per_sample in
    if negb (fourcc_eqb (ReadFourCC (ChunkHeader.ID (WavHeader.riff_header header))) "RIFF")
    then None
    else if negb (fourcc_eqb (ReadFourCC (WavHeader.riff_Format header)) "WAVE")
    then None
    else if negb (fourcc_eqb (ReadFourCC (ChunkHeader.ID (FmtSubchunk.header f))) "fmt ")
    then None
    else if negb (fourcc_eqb (ReadFourCC (ChunkHeader.ID (WavHeader.data_header header))) "data")
    then None
    else if ReadLE32 (ChunkHeader.Size (WavHeader.riff_header header))
              <? RiffChunkSize bytes_in_payload
    then None
    else if negb (ReadLE32 (FmtSubchunk.ByteRate f)
                    =? ByteRate num_channels sample_rate bytes_per_sample)
    then None
    else if negb (ReadLE16 (FmtSubchunk.BlockAlign f)
                    =? BlockAlign num_channels bytes_per_sample)
    then None
    else if CheckWavParameters num_channels sample_rate format
              bytes_per_sample num_samples
    then Some (mkParams num_channels sample_rate format bytes_per_sample num_samples)
    else None.

(** [ReadWavHeader]: [Some] is the return value [true] with the five output
    parameters, together with the source after the reads; [None] is the
    return value [false]. *)
Definition ReadWavHeader (readable : ReadableWav)
  : option (WavParams * ReadableWav) :=
  '(header, readable) <- read_header_bytes readable ;;
  p <- parse_header header ;;
  Some (p, readable).

(** ** Sample conversion *)

(** [float]: IEEE-754 binary32. *)
Definition float : Type := spec_float.
Definition prec : Z := 24.
Definition emax : Z := 128.

Definition fadd : float -> float -> float := SFadd prec emax.
Definition fsub : float -> float -> float := SFsub prec emax.
Definition fltb : float -> float -> bool := SFltb.
Definition fleb : float -> float -> bool := SFleb.

(** Conversion of an integer to [float]. *)
Definition float_of_int (z : Z) : float := binary_normalize prec emax z 0 false.

(** The literal [0.5f]. *)
Definition f_half : float := S754_finite false 8388608 (-24).

(** [static_cast<int16_t>(x)]: the value truncated toward zero; undefined
    ([None]) when that is not an [int16_t], in particular for NaN and the
    infinities. *)
Definition float_to_int16 (x : float) : option Z :=
  match x with
  | S754_zero _ => Some 0
  | S754_finite s m e =>
      let z := cond_Zopp s (Z.shiftl (Zpos m) e) in
      if (INT16_MIN <=? z) && (z <=? INT16_MAX) then Some z else None
  | _ => None
  end.

Definition kMaxRound : float := fsub (float_of_int INT16_MAX) f_half.
Definition kMinRound : float := fadd (float_of_int INT16_MIN) f_half.

Definition FloatS16ToS16 (v : float) : option Z :=
  if fltb (float_of_int 0) v then
    if fleb kMaxRound v then Some INT16_MAX
    else float_to_int16 (fadd v f_half)
  else
    if fleb v kMinRound then Some INT16_MIN
    else float_to_int16 (fsub v f_half).

(** The array version: [dest[i] = FloatS16ToS16(src[i])]. *)
Fixpoint FloatS16ToS16_array (src : list float) : option (list Z) :=
  match src with
  | [] => Some []
  | v :: src' =>
      d <- FloatS16ToS16 v ;;
      dest <- FloatS16ToS16_array src' ;;
      Some (d :: dest)
  end.

(** ** Files *)

(** [fread(samples, sizeof(int16_t), count, file)] on the unread bytes of an
    in-memory file: the items read and the bytes left.  An incomplete item
    at the end of the file is consumed and not returned. *)
Fixpoint fread_s16 (count : nat) (file : list byte) : list Z * list byte :=
  match count with
  | O => ([], file)
  | S count' =>
      match file with
      | b0 :: b1 :: file' =>
          let '(items, rest) := fread_s16 count' file' in
          (to_int16 (le_combine [b0; b1]) :: items, rest)
      | _ => ([], [])
      end
  end.

(** The bytes [fwrite(samples, sizeof(int16_t), n, file)] appends. *)
Definition bytes_of_s16 (samples : list Z) : list byte :=
  flat_map (fun s => le_split 2 s) samples.

Definition kChunksize : Z := 4096 / 2.

(** ** class WavReader *)

Module WavReader.

Record t : Type := mk {
  sample_rate_ : Z;
  num_channels_ : Z;
  num_samples_ : Z;
  num_samples_remaining_ : Z;
  file_handle_ : list byte
}.

(** The constructor, on the contents of the file opened. *)
Definition WavReader (contents : list byte) : option t :=
  '(p, readable) <- ReadWavHeader contents ;;
  let r := mk (sample_rate p) (num_channels p) (num_samples p)
              (num_samples p) readable in
  _ <- assert (kWavFormat =? format p) ;;
  _ <- assert (kBytesPerSample =? bytes_per_sample p) ;;
  Some r.

Definition sample_rate (r : t) : Z := sample_rate_ r.
Definition num_channels (r : t) : Z := num_channels_ r.
Definition num_samples (r : t) : Z := num_samples_ r.

(** [ReadSamples(size_t, int16_t* )]: the samples stored in the buffer,
    whose number is the return value, and the reader after the call. *)
Definition ReadSamples (r : t) (num_samples : Z) : option (list Z * t) :=
  let num_samples := Z.min (u32 num_samples) (num_samples_remaining_ r) in
  let '(samples, file) := fread_s16 (Z.to_nat num_samples) (file_handle_ r) in
  let read := Z.of_nat (List.length samples) in
  let feof := read <? num_samples in
  _ <- assert ((read =? num_samples) || feof) ;;
  _ <- assert (read <=? num_samples_remaining_ r) ;;
  Some (samples,
        mk (sample_rate_ r) (num_channels_ r) (num_samples_ r)
           (u32 (num_samples_remaining_ r - u32 read)) file).

(** The loop of [ReadSamples(size_t, float* )] from index [i] on; [fuel]
    bounds the number of iterations. *)
Fixpoint ReadSamples_float_loop (fuel : nat) (r : t) (i num_samples : Z)
    (samples : list float) : option (list float * t) :=
  if i <? num_samples then
    match fuel with
    | O => None
    | S fuel' =>
        let chunk := Z.min kChunksize (num_samples - i) in
        '(isamples, r') <- ReadSamples r chunk ;;
        ReadSamples_float_loop fuel' r' (i + kChunksize) num_samples
          (samples ++ map float_of_int isamples)
    end
  else Some (samples, r).

Definition ReadSamples_float (r : t) (num_samples : Z)
  : option (list float * t) :=
  ReadSamples_float_loop (Z.to_nat (num_samples / kChunksize + 1)) r 0
    num_samples [].

End WavReader.

(** ** class WavWriter *)

Module WavWriter.

Record t : Type := mk {
  sample_rate_ : Z;
  num_channels_ : Z;
  num_samples_ : Z;
  file_handle_ : list byte
}.

Definition WavWriter (sample_rate num_channels : Z) : option t :=
  let w := mk sample_rate num_channels 0 [] in
  _ <- assert (CheckWavParameters (num_channels_ w) (sample_rate_ w)
                 kWavFormat kBytesPerSample (num_samples_ w)) ;;
  Some (mk sample_rate num_channels 0
           (repeat Byte.x00 (Z.to_nat kWavHeaderSize))).

Definition sample_rate (w : t) : Z := sample_rate_ w.
Definition num_channels (w : t) : Z := num_channels_ w.
Definition num_samples (w : t) : Z := num_samples_ w.

(** [WriteSamples(const int16_t*, size_t)]; the sink takes every byte,
    so that [fwrite] returns [num_samples]. *)
Definition WriteSamples (w : t) (samples : list Z) : option t :=
  let num_samples := Z.of_nat (List.length samples) in
  let written := num_samples in
  _ <- assert (num_samples =? written) ;;
  let num_samples_' := u32 (num_samples_ w + u32 written) in
  _ <- assert ((written <=? UINT32_MAX) || (num_samples_' >=? written)) ;;
  _ <- assert (CheckWavParameters (num_channels_ w) (sample_rate_ w)
                 kWavFormat kBytesPerSample num_samples_') ;;
  Some (mk (sample_rate_ w) (num_channels_ w) num_samples_'
           (file_handle_ w ++ bytes_of_s16 samples)).

(** The loop of [WriteSamples(const float*, size_t)] over the samples not
    yet written; [fuel] bounds the number of iterations. *)
Fixpoint WriteSamples_float_loop (fuel : nat) (w : t) (samples : list float)
  : option t :=
  match samples with
  | [] => Some w
  | _ :: _ =>
      match fuel with
      | O => None
      | S fuel' =>
          let chunk := Z.to_nat kChunksize in
          isamples <- FloatS16ToS16_array (firstn chunk samples) ;;
          w' <- WriteSamples w isamples ;;
          WriteSamples_float_loop fuel' w' (skipn chunk samples)
      end
  end.

Definition WriteSamples_float (w : t) (samples : list float) : option t :=
  WriteSamples_float_loop (List.length samples) w samples.

(** [Close()]: the header overwrites the first 44 bytes of the file. *)
Definition Close (w : t) : option (list byte) :=
  header <- WriteWavHeader (num_channels_ w) (sample_rate_ w) kWavFormat
              kBytesPerSample (num_samples_ w) ;;
  Some (header ++ skipn (Z.to_nat kWavHeaderSize) (file_handle_ w)).

End WavWriter.

(** * Definitions used by the statements *)

(** The header of (2 channels, 44100 Hz, PCM, 2 bytes per sample, 200
    samples) with [bits] in the BitsPerSample field. *)
Definition header_with_bits (bits : Z) : list byte :=
  let h := header_fields 2 44100 kWavFormatPcm 2 200 in
  let f := WavHeader.fmt h in
  bytes_of_WavHeader
    (WavHeader.mk (WavHeader.riff_header h) (WavHeader.riff_Format h)
       (FmtSubchunk.mk (FmtSubchunk.header f) (FmtSubchunk.AudioFormat f)
          (FmtSubchunk.NumChannels f) (FmtSubchunk.SampleRate f)
          (FmtSubchunk.ByteRate f) (FmtSubchunk.BlockAlign f) bits)
       (WavHeader.data_header h)).

(** The remaining-samples counter holds a 32-bit value. *)
Definition reader_ok (r : WavReader.t) : Prop :=
  is_u32 (WavReader.num_samples_remaining_ r).

(** The fields that no read may change. *)
Definition reader_same_stream (r r' : WavReader.t) : Prop :=
  WavReader.sample_rate r' = WavReader.sample_rate r
  /\ WavReader.num_channels r' = WavReader.num_channels r
  /\ WavReader.num_samples r' = WavReader.num_samples r.

(** Successive calls of [ReadSamples] with the requested counts [reqs]. *)
Fixpoint ReadSamples_seq (r : WavReader.t) (reqs : list Z)
  : option (list (list Z) * WavReader.t) :=
  match reqs with
  | [] => Some ([], r)
  | n :: reqs' =>
      '(samples, r1) <- WavReader.ReadSamples r n ;;
      '(outs, r2) <- ReadSamples_seq r1 reqs' ;;
      Some (samples :: outs, r2)
  end.

(** The number of samples returned by a sequence of calls. *)
Definition total_read (outs : list (list Z)) : Z :=
  Z.of_nat (List.length (List.concat outs)).

(** A file of one channel at 8000 Hz with the four samples 1, -1, 100, -100,
    as the writer produces it, followed by three bytes after the payload. *)
Definition example_file : list byte :=
  match
    w <- WavWriter.WavWriter 8000 1 ;;
    w <- WavWriter.WriteSamples w [1; -1; 100; -100] ;;
    WavWriter.Close w
  with
  | Some file => file ++ [Byte.x01; Byte.x02; Byte.x03]
  | None => []
  end.

(** The writer between two calls: its counter is a 32-bit value that the
    validator accepts. *)
Definition writer_ok (w : WavWriter.t) : Prop :=
  is_u32 (WavWriter.num_samples w)
  /\ CheckWavParameters (WavWriter.num_channels w) (WavWriter.sample_rate w)
       kWavFormat kBytesPerSample (WavWriter.num_samples w) = true.

(** Rounding to nearest, ties to even, of [p / 2^n]. *)
Definition round_up_even (p n : Z) : bool :=
  let rem := p mod 2 ^ n in
  (2 ^ n <? 2 * rem) || ((2 * rem =? 2 ^ n) && Z.odd (p / 2 ^ n)).

Definition rounded (p n : Z) : Z :=
  p / 2 ^ n + (if round_up_even p n then 1 else 0).

(** The significand of the exact sum |v| + 0.5 at the smaller of the two
    exponents, as [SFadd] and [SFsub] compute it. *)
Definition half_sum (m : positive) (e : Z) : positive :=
  Pos.add (fst (shl_align m e (Z.min e (-24))))
          (fst (shl_align 8388608 (-24) (Z.min e (-24)))).

(** The integer nearest to [m * 2^e], a half rounded up: the magnitude of
    rounding half away from zero. *)
Definition round_half_away_mag (m : positive) (e : Z) : Z :=
  if 0 <=? e then Zpos m * 2 ^ e
  else (Zpos m + 2 ^ (- e - 1)) / 2 ^ (- e).

(** Evaluation of the closed powers of two of a goal. *)
Ltac pow2_norm :=
  repeat match goal with
         | |- context [2 ^ ?x] =>
             let v := eval vm_compute in (2 ^ x) in
             progress change (2 ^ x) with v
         | H : context [2 ^ ?x] |- _ =>
             let v := eval vm_compute in (2 ^ x) in
             progress change (2 ^ x) with v in H
         end.

Definition saturate (z : Z) : Z := Z.max INT16_MIN (Z.min INT16_MAX z).

(** The conversion in the words of the specification: the value rounded to
    the nearest integer, a half away from zero, then saturated to the range
    of [int16_t].  NaN has no value; 0 stands in for it. *)
Definition round_half_away_saturated (v : float) : Z :=
  match v with
  | S754_zero _ => 0
  | S754_infinity s => if s then INT16_MIN else INT16_MAX
  | S754_nan => 0
  | S754_finite s m e => saturate (cond_Zopp s (round_half_away_mag m e))
  end.

(** The float just below one half, 0.5 - 2^-25, and its opposite. *)
Definition below_half (s : bool) : float := S754_finite s 16777215 (-25).

(** The literals of the specification: [float_of_int] is exact on these
    integers, and the division rounds 1004/10 and 1006/10 to the nearest
    binary32 number. *)
Definition f_40000 : float := float_of_int 40000.
Definition f_minus_40000 : float := float_of_int (-40000).
Definition f_100_4 : float :=
  SFdiv prec emax (float_of_int 1004) (float_of_int 10).
Definition f_100_6 : float :=
  SFdiv prec emax (float_of_int 1006) (float_of_int 10).

(** The struct with every field reduced to the width of its member: what
    the 44 bytes of an image hold. *)
Definition wrap_ChunkHeader (h : ChunkHeader.t) : ChunkHeader.t :=
  ChunkHeader.mk (u32 (ChunkHeader.ID h)) (u32 (ChunkHeader.Size h)).

Definition wrap_WavHeader (h : WavHeader.t) : WavHeader.t :=
  let f := WavHeader.fmt h in
  WavHeader.mk
    (wrap_ChunkHeader (WavHeader.riff_header h))
    (u32 (WavHeader.riff_Format h))
    (FmtSubchunk.mk
       (wrap_ChunkHeader (FmtSubchunk.header f))
       (u16 (FmtSubchunk.AudioFormat f))
       (u16 (FmtSubchunk.NumChannels f))
       (u32 (FmtSubchunk.SampleRate f))
       (u32 (FmtSubchunk.ByteRate f))
       (u16 (FmtSubchunk.BlockAlign f))
       (u16 (FmtSubchunk.BitsPerSample f)))
    (wrap_ChunkHeader (WavHeader.data_header h)).

(** The values of [int16_t]. *)
Definition is_int16 (s : Z) : Prop := INT16_MIN <= s <= INT16_MAX.

(** A sample the conversion is defined on: a binary32 number, not NaN. *)
Definition sample_ok (v : float) : Prop :=
  valid_binary prec emax v = true /\ v <> S754_nan.

(** The struct of [WriteWavHeader] with the three size fields given: the
    RIFF chunk size, the fmt chunk size and the data chunk size. *)
Definition make_header
    (num_channels sample_rate : Z) (format : WavFormat)
    (bytes_per_sample riff_size fmt_size data_size : Z) : WavHeader.t :=
  WavHeader.mk
    (ChunkHeader.mk (WriteFourCC "R" "I" "F" "F") riff_size)
    (WriteFourCC "W" "A" "V" "E")
    (FmtSubchunk.mk
       (ChunkHeader.mk (WriteFourCC "f" "m" "t" " ") fmt_size)
       (u16 format)
       (u16 num_channels)
       (u32 sample_rate)
       (ByteRate num_channels sample_rate bytes_per_sample)
       (BlockAlign num_channels bytes_per_sample)
       (u16 (8 * bytes_per_sample)))
    (ChunkHeader.mk (WriteFourCC "d" "a" "t" "a") data_size).

(** The bytes of a file header whose fmt chunk carries the extension bytes
    [ext] between the fmt fields and the data chunk header. *)
Definition bytes_with_extension (h : WavHeader.t) (ext : list byte)
  : list byte :=
  bytes_of_riff_fmt h ++ ext ++ bytes_of_ChunkHeader (WavHeader.data_header h).

(** The sum of the requests of a sequence of reads. *)
Definition total_requested (reqs : list Z) : Z := fold_right Z.add 0 reqs.

(** Successive calls of the integer [WriteSamples] with the given batches of
    samples. *)
Fixpoint WriteSamples_seq (w : WavWriter.t) (batches : list (list Z))
  : option WavWriter.t :=
  match batches with
  | [] => Some w
  | samples :: batches' =>
      w1 <- WavWriter.WriteSamples w samples ;;
      WriteSamples_seq w1 batches'
  end.

(** Whether [ok] holds on the [2 ^ depth] integers from [lo] on. *)
Fixpoint forall_range (ok : Z -> bool) (depth : nat) (lo : Z) : bool :=
  match depth with
  | O => ok lo
  | S d => forall_range ok d lo && forall_range ok d (lo + 2 ^ Z.of_nat d)
  end.

(** * Properties *)

(** ** Header codec *)

Lemma assert_Some (b : bool) : assert b = Some tt <-> b = true.
Proof. destruct b; simpl; split; congruence. Qed.

Lemma CheckWavParameters_inv c sr f bps n :
  CheckWavParameters c sr f bps n = true ->
  0 < c /\ 0 < sr /\ u64 sr <= UINT32_MAX /\ u64 c <= UINT16_MAX
  /\ u64 (u64 (u64 sr * c) * bps) <= UINT32_MAX
  /\ (bps = 1 \/ bps = 2 /\ f = kWavFormatPcm)
  /\ n <= u32 ((UINT32_MAX - 36) / bps)
  /\ n mod c = 0.
Proof.
  unfold CheckWavParameters.
  destruct (c <=? 0) eqn:Hc; [discriminate|].
  destruct (sr <=? 0) eqn:Hsr; [discriminate|].
  destruct (bps <=? 0) eqn:Hbps; [discriminate|]. simpl.
  destruct (u64 sr >? UINT32_MAX) eqn:H1; [discriminate|].
  destruct (u64 c >? UINT16_MAX) eqn:H2; [discriminate|].
  destruct (u64 (u64 bps * 8) >? UINT16_MAX) eqn:H3; [discriminate|].
  destruct (u64 (u64 (u64 sr * c) * bps) >? UINT32_MAX) eqn:H4; [discriminate|].
  match goal with |- (if ?b then _ else _) = _ -> _ => destruct b eqn:H5; [discriminate|] end.
  match goal with |- (if ?b then _ else _) = _ -> _ => destruct b eqn:H6; [discriminate|] end.
  match goal with |- (if ?b then _ else _) = _ -> _ => destruct b eqn:H7; [discriminate|] end.
  intros _.
  apply Z.leb_gt in Hc, Hsr, Hbps.
  rewrite Z.gtb_ltb in H1, H2, H4, H6. apply Z.ltb_ge in H1, H2, H4, H6.
  apply negb_false_iff, Z.eqb_eq in H7.
  change (kWavHeaderSize - sizeof_ChunkHeader) with 36 in H6.
  repeat split; try assumption.
  destruct (f =? kWavFormatPcm) eqn:Hf.
  - apply Z.eqb_eq in Hf. apply andb_false_iff in H5 as [H5|H5];
      apply negb_false_iff, Z.eqb_eq in H5; auto.
  - destruct ((f =? kWavFormatALaw) || (f =? kWavFormatMuLaw)); [|discriminate].
    apply negb_false_iff, Z.eqb_eq in H5; auto.
Qed.

(** The validator accepts [n'] whenever it accepts [n] with the same other
    parameters, [n'] is within the bound and divisible by the channels. *)
Lemma CheckWavParameters_num_samples c sr f bps n n' :
  CheckWavParameters c sr f bps n = true ->
  n' <= u32 ((UINT32_MAX - 36) / bps) -> n' mod c = 0 ->
  CheckWavParameters c sr f bps n' = true.
Proof.
  unfold CheckWavParameters.
  destruct (c <=? 0) eqn:Hc; [discriminate|].
  destruct (sr <=? 0) eqn:Hsr; [discriminate|].
  destruct (bps <=? 0) eqn:Hbps; [discriminate|]. simpl.
  destruct (u64 sr >? UINT32_MAX) eqn:H1; [discriminate|].
  destruct (u64 c >? UINT16_MAX) eqn:H2; [discriminate|].
  destruct (u64 (u64 bps * 8) >? UINT16_MAX) eqn:H3; [discriminate|].
  destruct (u64 (u64 (u64 sr * c) * bps) >? UINT32_MAX) eqn:H4; [discriminate|].
  match goal with |- (if ?b then _ else _) = _ -> _ => destruct b eqn:H5; [discriminate|] end.
  intros _ Hle Hmod.
  change (kWavHeaderSize - sizeof_ChunkHeader) with 36.
  rewrite Hmod. simpl.
  destruct (n' >? _) eqn:H6; [|reflexivity].
  rewrite Z.gtb_ltb in H6. apply Z.ltb_lt in H6. lia.
Qed.

(** C1. Encoding the header of (2 channels, 44100 Hz, PCM, 2 bytes per
    sample, 200 samples) gives 44 bytes, and decoding these bytes succeeds
    with the same five values, the source being read to its end. *)
Theorem header_roundtrip_44100_stereo :
  exists buf,
    WriteWavHeader 2 44100 kWavFormatPcm 2 200 = Some buf
    /\ len buf = kWavHeaderSize
    /\ ReadWavHeader buf = Some (mkParams 2 44100 kWavFormatPcm 2 200, []).
Proof.
  eexists. split; [vm_compute; reflexivity|].
  split; vm_compute; reflexivity.
Qed.

(** C2. When the validator accepts channels, rate, format and bytes per
    sample (it accepts them with no sample), it accepts
    (UINT32_MAX - 36) / bytes_per_sample samples provided the channels
    divide that number, and it rejects one sample more; both numbers are
    32-bit values. *)
Theorem CheckWavParameters_max_samples_boundary
    (c sr : Z) (f : WavFormat) (bps : Z) :
  CheckWavParameters c sr f bps 0 = true ->
  let max_samples := (UINT32_MAX - 36) / bps in
  is_u32 max_samples /\ is_u32 (max_samples + 1)
  /\ (max_samples mod c = 0 ->
      CheckWavParameters c sr f bps max_samples = true)
  /\ CheckWavParameters c sr f bps (max_samples + 1) = false.
Proof.
  intros H max_samples.
  pose proof (CheckWavParameters_inv _ _ _ _ _ H) as (Hc & Hsr & _ & _ & _ & Hb & _ & _).
  assert (Hm : u32 max_samples = max_samples /\ is_u32 max_samples
               /\ is_u32 (max_samples + 1)).
  { unfold max_samples, is_u32.
    destruct Hb as [->|[-> _]]; vm_compute; intuition congruence. }
  destruct Hm as (Hm & Hm0 & Hm1).
  split; [assumption|]. split; [assumption|]. split.
  - intros Hmod. apply (CheckWavParameters_num_samples _ _ _ _ _ _ H); [fold max_samples; lia|assumption].
  - destruct (CheckWavParameters c sr f bps (max_samples + 1)) eqn:E; [|reflexivity].
    apply CheckWavParameters_inv in E. fold max_samples in E. lia.
Qed.

Lemma CheckWavParameters_max_samples_boundary_witness :
  CheckWavParameters 1 8000 kWavFormatPcm 2 2147483629 = true
  /\ CheckWavParameters 1 8000 kWavFormatPcm 2 2147483630 = false.
Proof.
  pose proof (CheckWavParameters_max_samples_boundary 1 8000 kWavFormatPcm 2
                ltac:(vm_compute; reflexivity)) as H.
  simpl in H. destruct H as (_ & _ & H1 & H2). split.
  - apply H1. vm_compute. reflexivity.
  - exact H2.
Defined.

(** *** Fields of the encoded header *)

Lemma field_ByteRate (h : WavHeader.t) :
  field (bytes_of_WavHeader h) 28 4
  = u32 (FmtSubchunk.ByteRate (WavHeader.fmt h)).
Proof.
  change (field (bytes_of_WavHeader h) 28 4)
    with (le_combine (le_split 4 (FmtSubchunk.ByteRate (WavHeader.fmt h)))).
  apply le_combine_split.
Qed.

Lemma field_BlockAlign (h : WavHeader.t) :
  field (bytes_of_WavHeader h) 32 2
  = u16 (FmtSubchunk.BlockAlign (WavHeader.fmt h)).
Proof.
  change (field (bytes_of_WavHeader h) 32 2)
    with (le_combine (le_split 2 (FmtSubchunk.BlockAlign (WavHeader.fmt h)))).
  apply le_combine_split.
Qed.

Lemma u32_idem z : u32 (u32 z) = u32 z.
Proof. unfold u32. apply Z.mod_mod. lia. Qed.

Lemma u16_idem z : u16 (u16 z) = u16 z.
Proof. unfold u16. apply Z.mod_mod. lia. Qed.

Lemma u32_small z : 0 <= z <= UINT32_MAX -> u32 z = z.
Proof. unfold u32, UINT32_MAX. intros. apply Z.mod_small. lia. Qed.

Lemma u64_small z : 0 <= z < 2 ^ 64 -> u64 z = z.
Proof. unfold u64. intros. apply Z.mod_small. lia. Qed.

(** For parameters of type [int] that the validator accepts, the byte rate
    stored by the encoder is the product of the three values. *)
Lemma WriteWavHeader_ByteRate_exact c sr f bps n buf :
  is_int c -> is_int sr ->
  WriteWavHeader c sr f bps n = Some buf ->
  field buf 28 4 = c * sr * bps.
Proof.
  intros Ic Is. unfold WriteWavHeader.
  destruct (CheckWavParameters c sr f bps n) eqn:E; [|discriminate].
  simpl. intros [= <-].
  rewrite field_ByteRate. simpl. unfold ByteRate. rewrite u32_idem.
  apply CheckWavParameters_inv in E as (Hc & Hsr & _ & Hc16 & Hp & Hb & _).
  unfold is_int in *.
  assert (Hbps : 1 <= bps <= 2) by (destruct Hb as [->|[-> _]]; lia).
  rewrite (u64_small sr) in Hp by lia.
  rewrite (u64_small c) in Hc16 by lia. unfold UINT16_MAX in Hc16.
  rewrite (u64_small (sr * c)) in Hp by nia.
  rewrite (u64_small (sr * c * bps)) in Hp by nia.
  unfold UINT32_MAX in Hp.
  rewrite (u32_small c) by (unfold UINT32_MAX; lia).
  rewrite (u32_small (c * sr)) by (unfold UINT32_MAX; nia).
  rewrite u32_small by (unfold UINT32_MAX; nia). reflexivity.
Qed.

(** The block alignment stored by the encoder is the product of channels
    and bytes per sample reduced modulo 2^16. *)
Lemma WriteWavHeader_BlockAlign_mod c sr f bps n buf :
  WriteWavHeader c sr f bps n = Some buf ->
  field buf 32 2 = (c * bps) mod 2 ^ 16.
Proof.
  unfold WriteWavHeader.
  destruct (CheckWavParameters c sr f bps n); [|discriminate].
  simpl. intros [= <-].
  rewrite field_BlockAlign. simpl. unfold BlockAlign. apply u16_idem.
Qed.

Lemma field_BitsPerSample (h : WavHeader.t) :
  field (bytes_of_WavHeader h) 34 2
  = u16 (FmtSubchunk.BitsPerSample (WavHeader.fmt h)).
Proof.
  change (field (bytes_of_WavHeader h) 34 2)
    with (le_combine (le_split 2 (FmtSubchunk.BitsPerSample (WavHeader.fmt h)))).
  apply le_combine_split.
Qed.

(** The encoder stores 8 times the bytes per sample in BitsPerSample. *)
Lemma WriteWavHeader_BitsPerSample c sr f bps n buf :
  WriteWavHeader c sr f bps n = Some buf -> field buf 34 2 = 8 * bps.
Proof.
  unfold WriteWavHeader.
  destruct (CheckWavParameters c sr f bps n) eqn:E; [|discriminate].
  simpl. intros [= <-].
  rewrite field_BitsPerSample. simpl. rewrite u16_idem.
  apply CheckWavParameters_inv in E as (_ & _ & _ & _ & _ & Hb & _).
  destruct Hb as [->|[-> _]]; reflexivity.
Qed.

(** C3 (at the failing input). The validator accepts 40000 channels of
    2-byte PCM samples; the encoder then stores the block alignment 14464,
    which is 80000 modulo 2^16, not the product 80000.  The byte rate
    stored is the exact product 80000. *)
Theorem WriteWavHeader_BlockAlign_truncated :
  CheckWavParameters 40000 1 kWavFormatPcm 2 0 = true
  /\ exists buf,
       WriteWavHeader 40000 1 kWavFormatPcm 2 0 = Some buf
       /\ field buf 28 4 = 40000 * 1 * 2
       /\ field buf 32 2 = 14464
       /\ field buf 32 2 <> 40000 * 2.
Proof.
  split; [vm_compute; reflexivity|].
  eexists. split; [vm_compute; reflexivity|].
  repeat split; vm_compute; congruence.
Qed.

(** *** Checks of the decoder *)

(** A header that [parse_header] accepts stores the block alignment
    [BlockAlign] computes from the decoded channels and bytes per sample,
    that is their product modulo 2^16, and the byte rate [ByteRate]
    computes. *)
Lemma parse_header_consistent (h : WavHeader.t) (p : WavParams) :
  parse_header h = Some p ->
  FmtSubchunk.BlockAlign (WavHeader.fmt h)
  = (num_channels p * bytes_per_sample p) mod 2 ^ 16
  /\ FmtSubchunk.ByteRate (WavHeader.fmt h)
     = ByteRate (num_channels p) (sample_rate p) (bytes_per_sample p)
  /\ CheckWavParameters (num_channels p) (sample_rate p) (format p)
       (bytes_per_sample p) (num_samples p) = true.
Proof.
  unfold parse_header, ReadLE16, ReadLE32.
  repeat match goal with
         | |- (if ?b then _ else _) = Some _ -> _ =>
             let E := fresh "E" in destruct b eqn:E; try discriminate
         end.
  intros [= <-]. simpl.
  apply negb_false_iff, Z.eqb_eq in E5, E6.
  auto.
Qed.

(** A header whose stored block alignment differs from the 16-bit value of
    the product is rejected. *)
Lemma parse_header_BlockAlign_mismatch (h : WavHeader.t) :
  let f := WavHeader.fmt h in
  FmtSubchunk.BlockAlign f
    <> (FmtSubchunk.NumChannels f * (FmtSubchunk.BitsPerSample f / 8)) mod 2 ^ 16 ->
  parse_header h = None.
Proof.
  intros f H. destruct (parse_header h) as [p|] eqn:E; [|reflexivity].
  exfalso. apply H.
  pose proof (parse_header_consistent _ _ E) as (HB & _).
  revert E. unfold parse_header, ReadLE16, ReadLE32.
  repeat match goal with
         | |- (if ?b then _ else _) = Some _ -> _ =>
             destruct b; try discriminate
         end.
  intros [= <-]. exact HB.
Qed.

(** C4 (at the failing input). The 44 bytes the encoder writes for 40000
    channels of 2-byte PCM samples store the block alignment 14464, decode
    to 40000 channels and 2 bytes per sample, whose product is 80000, and
    are accepted by the decoder. *)
Theorem ReadWavHeader_accepts_wrapped_BlockAlign :
  exists buf,
    len buf = 44
    /\ field buf 32 2 = 14464
    /\ field buf 22 2 = 40000
    /\ field buf 34 2 / 8 = 2
    /\ 14464 <> 40000 * 2
    /\ ReadWavHeader buf = Some (mkParams 40000 1 kWavFormatPcm 2 0, []).
Proof.
  exists (bytes_of_WavHeader (header_fields 40000 1 kWavFormatPcm 2 0)).
  repeat split; try (vm_compute; congruence).
Qed.

Lemma field_firstn (buf : list byte) (n offset size : nat) :
  (offset + size <= n)%nat ->
  field (firstn n buf) offset size = field buf offset size.
Proof.
  intros H. unfold field.
  rewrite skipn_firstn_comm, firstn_firstn.
  replace (Nat.min size (n - offset)) with size by lia. reflexivity.
Qed.

(** What the decoder returns on a buffer of 44 bytes comes from the struct
    overlaid on these bytes. *)
Lemma ReadWavHeader_44 (buf : list byte) (p : WavParams) (rest : ReadableWav) :
  len buf = 44 ->
  ReadWavHeader buf = Some (p, rest) ->
  parse_header (WavHeader_of_bytes (firstn 36 buf) (skipn 36 buf)) = Some p.
Proof.
  intros L. unfold ReadWavHeader, read_header_bytes, Read.
  change (Z.to_nat (kWavHeaderSize - sizeof_header_data)) with 36%nat.
  change (Z.to_nat sizeof_header_data) with 8%nat.
  change (Z.to_nat 2) with 2%nat.
  assert (L36 : List.length (skipn 36 buf) = 8%nat)
    by (rewrite length_skipn; unfold len in L; lia).
  destruct (negb (len (firstn 36 buf) =? _)); [discriminate|].
  destruct (negb (ReadLE32 (field (firstn 36 buf) 16 4) =? kFmtSubchunkSize)).
  - destruct (negb (kFmtSubchunkSize + 2 =? _)); [discriminate|].
    destruct (negb (len (firstn 2 (skipn 36 buf)) =? 2)); [discriminate|].
    destruct (negb (to_int16 _ =? 0)); [discriminate|].
    cbn [bind].
    assert (E : (len (firstn 8 (skipn 2 (skipn 36 buf))) =? sizeof_header_data)
                = false).
    { apply Z.eqb_neq. unfold len. rewrite length_firstn, length_skipn, L36.
      vm_compute. discriminate. }
    rewrite E. discriminate.
  - cbn [bind].
    destruct (negb (len (firstn 8 (skipn 36 buf)) =? sizeof_header_data));
      [discriminate|].
    rewrite (firstn_all2 (n := 8)) by lia.
    cbn [bind]. cbv beta iota zeta.
    destruct (parse_header _); cbn [bind]; congruence.
Qed.

(** A buffer of 44 bytes whose block-alignment field differs from the 16-bit
    value of channels times bytes per sample, both read from the buffer, is
    rejected. *)
Lemma ReadWavHeader_BlockAlign_mismatch (buf : list byte) :
  len buf = 44 ->
  field buf 32 2 <> (field buf 22 2 * (field buf 34 2 / 8)) mod 2 ^ 16 ->
  ReadWavHeader buf = None.
Proof.
  intros L H. destruct (ReadWavHeader buf) as [[p rest]|] eqn:E; [|reflexivity].
  apply ReadWavHeader_44 in E; [|assumption].
  rewrite parse_header_BlockAlign_mismatch in E; [discriminate|].
  cbn [WavHeader.fmt WavHeader_of_bytes FmtSubchunk.BlockAlign
         FmtSubchunk.NumChannels FmtSubchunk.BitsPerSample].
  rewrite !field_firstn by lia. exact H.
Qed.

(** C9. For every value 16..23 of the BitsPerSample field the decoder
    accepts the header and derives 2 bytes per sample; when the value is not
    16, encoding the decoded parameters gives 44 bytes that differ from the
    header decoded, the encoder writing 16 in that field, as it writes 8
    times the bytes per sample for every tuple. *)
Theorem ReadWavHeader_bits_not_multiple_of_8 (bits : Z) :
  16 <= bits <= 23 ->
  len (header_with_bits bits) = 44
  /\ field (header_with_bits bits) 34 2 = bits
  /\ ReadWavHeader (header_with_bits bits)
     = Some (mkParams 2 44100 kWavFormatPcm 2 200, [])
  /\ exists buf,
       WriteWavHeader 2 44100 kWavFormatPcm 2 200 = Some buf
       /\ field buf 34 2 = 16
       /\ (bits <> 16 -> buf <> header_with_bits bits)
       /\ (forall c sr f bps n b,
             WriteWavHeader c sr f bps n = Some b -> field b 34 2 = 8 * bps).
Proof.
  intros H.
  assert (C : bits = 16 \/ bits = 17 \/ bits = 18 \/ bits = 19 \/ bits = 20
              \/ bits = 21 \/ bits = 22 \/ bits = 23) by lia.
  repeat (destruct C as [->|C]); [..|subst bits];
    (split; [vm_compute; reflexivity|]);
    (split; [vm_compute; reflexivity|]);
    (split; [vm_compute; reflexivity|]);
    (eexists; split; [vm_compute; reflexivity|]);
    (split; [vm_compute; reflexivity|]);
    (split; [|exact WriteWavHeader_BitsPerSample]);
    intros Hne; try congruence; vm_compute; discriminate.
Qed.

Lemma ReadWavHeader_bits_not_multiple_of_8_witness :
  ReadWavHeader (header_with_bits 17)
  = Some (mkParams 2 44100 kWavFormatPcm 2 200, []).
Proof.
  pose proof (ReadWavHeader_bits_not_multiple_of_8 17 ltac:(lia)) as H.
  exact (proj1 (proj2 (proj2 H))).
Defined.

(** *** The round trip of every accepted tuple *)

Lemma le_combine_split_4 z : le_combine (le_split 4 z) = u32 z.
Proof. apply le_combine_split. Qed.

Lemma le_combine_split_2 z : le_combine (le_split 2 z) = u16 z.
Proof. apply le_combine_split. Qed.

Lemma WavHeader_of_bytes_image (h : WavHeader.t) :
  WavHeader_of_bytes (bytes_of_riff_fmt h)
    (bytes_of_ChunkHeader (WavHeader.data_header h))
  = wrap_WavHeader h.
Proof.
  unfold WavHeader_of_bytes, ChunkHeader_of_bytes, wrap_WavHeader,
    wrap_ChunkHeader.
  destruct h as [[rid rsz] rf [[fid fsz] af nc sr br ba bits] [did dsz]].
  cbn [WavHeader.fmt WavHeader.riff_header WavHeader.riff_Format
       WavHeader.data_header FmtSubchunk.header FmtSubchunk.AudioFormat
       FmtSubchunk.NumChannels FmtSubchunk.SampleRate FmtSubchunk.ByteRate
       FmtSubchunk.BlockAlign FmtSubchunk.BitsPerSample
       ChunkHeader.ID ChunkHeader.Size].
  repeat f_equal;
    match goal with
    | |- field _ _ 4%nat = u32 ?z =>
        rewrite <- (le_combine_split_4 z); reflexivity
    | |- field _ _ 2%nat = u16 ?z =>
        rewrite <- (le_combine_split_2 z); reflexivity
    end.
Qed.

Lemma firstn_app_exact {A : Type} (n : nat) (l1 l2 : list A) :
  List.length l1 = n -> firstn n (l1 ++ l2) = l1.
Proof.
  intros <-. rewrite firstn_app, Nat.sub_diag, firstn_all. cbn [firstn].
  apply app_nil_r.
Qed.

Lemma skipn_app_exact {A : Type} (n : nat) (l1 l2 : list A) :
  List.length l1 = n -> skipn n (l1 ++ l2) = l2.
Proof.
  intros <-. rewrite skipn_app, Nat.sub_diag, skipn_all. reflexivity.
Qed.

Lemma length_bytes_of_riff_fmt (h : WavHeader.t) :
  List.length (bytes_of_riff_fmt h) = 36%nat.
Proof. reflexivity. Qed.

Lemma length_bytes_of_ChunkHeader (h : ChunkHeader.t) :
  List.length (bytes_of_ChunkHeader h) = 8%nat.
Proof. reflexivity. Qed.

(** Reading the image of a struct whose fmt chunk has the size 16, whatever
    follows it in the source. *)
Lemma read_header_bytes_image (h : WavHeader.t) (rest : list byte) :
  u32 (ChunkHeader.Size (FmtSubchunk.header (WavHeader.fmt h)))
  = kFmtSubchunkSize ->
  read_header_bytes (bytes_of_WavHeader h ++ rest)
  = Some (wrap_WavHeader h, rest).
Proof.
  intros Hsz. unfold read_header_bytes, Read, bytes_of_WavHeader.
  change (Z.to_nat (kWavHeaderSize - sizeof_header_data)) with 36%nat.
  change (Z.to_nat sizeof_header_data) with 8%nat.
  rewrite <- app_assoc.
  rewrite firstn_app_exact by reflexivity.
  rewrite skipn_app_exact by reflexivity.
  assert (F : field (bytes_of_riff_fmt h) 16 4
              = u32 (ChunkHeader.Size (FmtSubchunk.header (WavHeader.fmt h)))).
  { rewrite <- le_combine_split_4. reflexivity. }
  unfold ReadLE32. rewrite F, Hsz.
  change (len (bytes_of_riff_fmt h)) with 36.
  cbn [Z.eqb negb Pos.eqb kFmtSubchunkSize]. 
  change (negb (36 =? kWavHeaderSize - sizeof_header_data)) with false.
  rewrite Z.eqb_refl. cbn [negb bind]. cbv iota.
  rewrite firstn_app_exact by reflexivity.
  rewrite skipn_app_exact by reflexivity.
  change (len (bytes_of_ChunkHeader (WavHeader.data_header h))) with 8.
  change (negb (8 =? sizeof_header_data)) with false. cbv iota.
  rewrite WavHeader_of_bytes_image. reflexivity.
Qed.

Lemma CheckWavParameters_format c sr f bps n :
  CheckWavParameters c sr f bps n = true ->
  f = kWavFormatPcm \/ f = kWavFormatALaw \/ f = kWavFormatMuLaw.
Proof.
  unfold CheckWavParameters.
  repeat match goal with
         | |- (if ?b then _ else _) = true -> _ =>
             lazymatch b with
             | context [f] => fail
             | _ => destruct b; [discriminate|]
             end
         end.
  destruct (Z.eqb_spec f kWavFormatPcm); [auto|].
  destruct (Z.eqb_spec f kWavFormatALaw); [auto|].
  destruct (Z.eqb_spec f kWavFormatMuLaw); [auto|].
  cbn [orb]. discriminate.
Qed.

Lemma wrap_header_fields c sr f bps n :
  wrap_WavHeader (header_fields c sr f bps n) = header_fields c sr f bps n.
Proof.
  unfold wrap_WavHeader, wrap_ChunkHeader, header_fields.
  cbn [WavHeader.fmt WavHeader.riff_header WavHeader.riff_Format
       WavHeader.data_header FmtSubchunk.header FmtSubchunk.AudioFormat
       FmtSubchunk.NumChannels FmtSubchunk.SampleRate FmtSubchunk.ByteRate
       FmtSubchunk.BlockAlign FmtSubchunk.BitsPerSample
       ChunkHeader.ID ChunkHeader.Size].
  unfold RiffChunkSize, ByteRate, BlockAlign.
  rewrite !u32_idem, !u16_idem. reflexivity.
Qed.

(** The checks of the decoder on the struct the encoder fills in. *)
Lemma parse_header_fields c sr f bps n :
  is_int c -> is_int sr -> 0 <= n ->
  CheckWavParameters c sr f bps n = true ->
  parse_header (header_fields c sr f bps n) = Some (mkParams c sr f bps n).
Proof.
  intros Ic Is Hn Hchk.
  pose proof (CheckWavParameters_format _ _ _ _ _ Hchk) as Hf.
  pose proof (CheckWavParameters_inv _ _ _ _ _ Hchk)
    as (Hc & Hsr & _ & Hc16 & _ & Hb & Hmax & _).
  unfold is_int in *.
  rewrite (u64_small c) in Hc16 by lia. unfold UINT16_MAX in Hc16.
  assert (Hbps : bps = 1 \/ bps = 2) by (destruct Hb as [?|[? _]]; auto).
  assert (Ef : u16 f = f).
  { destruct Hf as [->|[->| ->]]; reflexivity. }
  assert (Ec : u16 c = c) by (unfold u16; apply Z.mod_small; lia).
  assert (Es : to_int (u32 sr) = sr).
  { unfold to_int, u32. rewrite (Z.mod_small sr) by lia.
    rewrite Z.mod_small by lia. lia. }
  assert (Eb : u16 (8 * bps) / 8 = bps).
  { destruct Hbps as [->| ->]; reflexivity. }
  assert (Hpay : 0 <= bps * n <= UINT32_MAX - 36).
  { assert (u32 ((UINT32_MAX - 36) / bps) <= (UINT32_MAX - 36) / bps).
    { destruct Hbps as [->| ->]; vm_compute; discriminate. }
    assert (bps * ((UINT32_MAX - 36) / bps) <= UINT32_MAX - 36)
      by (apply Z.mul_div_le; lia).
    split; nia. }
  assert (Ep : u32 (bps * n) = bps * n).
  { apply u32_small. unfold UINT32_MAX in *. lia. }
  assert (En : bps * n / bps = n).
  { rewrite Z.mul_comm. apply Z.div_mul. lia. }
  unfold parse_header, header_fields, ReadLE16, ReadLE32.
  cbn [WavHeader.fmt WavHeader.riff_header WavHeader.riff_Format
       WavHeader.data_header FmtSubchunk.header FmtSubchunk.AudioFormat
       FmtSubchunk.NumChannels FmtSubchunk.SampleRate FmtSubchunk.ByteRate
       FmtSubchunk.BlockAlign FmtSubchunk.BitsPerSample
       ChunkHeader.ID ChunkHeader.Size].
  rewrite Ef, Ec, Es, Eb, Ep, En.
  destruct (Z.leb_spec bps 0); [lia|].
  change (fourcc_eqb (ReadFourCC (WriteFourCC "R" "I" "F" "F")) "RIFF") with true.
  change (fourcc_eqb (ReadFourCC (WriteFourCC "W" "A" "V" "E")) "WAVE") with true.
  change (fourcc_eqb (ReadFourCC (WriteFourCC "f" "m" "t" " ")) "fmt ") with true.
  change (fourcc_eqb (ReadFourCC (WriteFourCC "d" "a" "t" "a")) "data") with true.
  cbn [negb]. rewrite Z.ltb_irrefl, !Z.eqb_refl. cbn [negb].
  rewrite Hchk. reflexivity.
Qed.

(** The header codec round trip: for every tuple of [int] parameters and a
    32-bit sample count that the validator accepts, the decoder returns the
    tuple from the 44 bytes of the encoder and stops reading after them. *)
Theorem header_roundtrip c sr f bps n (rest : list byte) :
  is_int c -> is_int sr -> 0 <= n ->
  CheckWavParameters c sr f bps n = true ->
  exists buf,
    WriteWavHeader c sr f bps n = Some buf
    /\ len buf = kWavHeaderSize
    /\ ReadWavHeader (buf ++ rest) = Some (mkParams c sr f bps n, rest).
Proof.
  intros Ic Is Hn Hchk.
  exists (bytes_of_WavHeader (header_fields c sr f bps n)).
  unfold WriteWavHeader. rewrite Hchk. cbn [assert bind].
  split; [reflexivity|]. split; [reflexivity|].
  unfold ReadWavHeader.
  rewrite read_header_bytes_image by reflexivity.
  cbn [bind]. cbv beta iota.
  rewrite wrap_header_fields, parse_header_fields by assumption.
  reflexivity.
Qed.

(** ** Stream reader *)

Lemma read_header_bytes_shape (contents : list byte) h rest :
  read_header_bytes contents = Some (h, rest) ->
  exists b36 b8, h = WavHeader_of_bytes b36 b8.
Proof.
  unfold read_header_bytes, Read.
  destruct (negb (len _ =? _)); [discriminate|].
  match goal with
  | |- bind ?m _ = _ -> _ => destruct m as [readable|]; [|discriminate]
  end.
  cbn [bind].
  destruct (negb (len _ =? _)); [discriminate|].
  intros [= <- _]. eauto.
Qed.

Lemma field_nonneg (buf : list byte) (offset size : nat) :
  0 <= field buf offset size.
Proof. unfold field. apply le_combine_bound. Qed.

(** The sample count the decoder returns is a 32-bit value. *)
Lemma ReadWavHeader_num_samples_range (contents : list byte) p rest :
  ReadWavHeader contents = Some (p, rest) -> is_u32 (num_samples p).
Proof.
  unfold ReadWavHeader.
  destruct (read_header_bytes contents) as [[h readable]|] eqn:R; [|discriminate].
  cbn [bind]. cbv beta iota.
  destruct (parse_header h) as [q|] eqn:P; [|discriminate].
  cbn [bind]. intros [= <- _].
  destruct (read_header_bytes_shape _ _ _ R) as (b36 & b8 & ->).
  pose proof (parse_header_consistent _ _ P) as (_ & _ & C).
  apply CheckWavParameters_inv in C as (_ & _ & _ & _ & _ & Hb & Hn & _).
  revert P. unfold parse_header, ReadLE16, ReadLE32.
  destruct (_ <=? 0) eqn:Hbps; [discriminate|]. apply Z.leb_gt in Hbps.
  repeat match goal with
         | |- (if ?b then _ else _) = Some _ -> _ =>
             destruct b; try discriminate
         end.
  intros [= <-]. cbn [num_samples bytes_per_sample] in *. unfold is_u32. split.
  - apply Z.div_pos; [|assumption]. apply field_nonneg.
  - assert (u32 ((UINT32_MAX - 36) / (field b36 34 2 / 8)) < 2 ^ 32)
      by (apply Z.mod_pos_bound; lia).
    destruct Hb; lia.
Qed.

Lemma fread_s16_length (count : nat) (file : list byte) :
  (List.length (fst (fread_s16 count file)) <= count)%nat.
Proof.
  revert file. induction count as [|count IH]; intros file; simpl; [lia|].
  destruct file as [|b0 [|b1 file]]; simpl; try lia.
  specialize (IH file). destruct (fread_s16 count file). simpl in *. lia.
Qed.

Lemma reader_same_stream_refl r : reader_same_stream r r.
Proof. repeat split. Qed.

Lemma reader_same_stream_trans r1 r2 r3 :
  reader_same_stream r1 r2 -> reader_same_stream r2 r3 ->
  reader_same_stream r1 r3.
Proof. unfold reader_same_stream. intuition congruence. Qed.

(** The reader the constructor builds: its two counters are the sample
    count of the header. *)
Lemma WavReader_open (contents : list byte) (r : WavReader.t) :
  WavReader.WavReader contents = Some r ->
  exists p rest,
    ReadWavHeader contents = Some (p, rest)
    /\ format p = kWavFormatPcm /\ bytes_per_sample p = 2
    /\ r = WavReader.mk (sample_rate p) (num_channels p) (num_samples p)
             (num_samples p) rest.
Proof.
  unfold WavReader.WavReader.
  destruct (ReadWavHeader contents) as [[p rest]|]; [|discriminate].
  cbn [bind]. cbv beta iota zeta.
  destruct (kWavFormat =? format p) eqn:F; [|discriminate].
  destruct (kBytesPerSample =? bytes_per_sample p) eqn:B; [|discriminate].
  cbn. intros [= <-]. apply Z.eqb_eq in F, B.
  exists p, rest. unfold kWavFormat, kBytesPerSample in *. auto.
Qed.

Lemma WavReader_open_ok (contents : list byte) (r : WavReader.t) :
  WavReader.WavReader contents = Some r ->
  reader_ok r
  /\ WavReader.num_samples_remaining_ r = WavReader.num_samples r.
Proof.
  intros H. destruct (WavReader_open _ _ H) as (p & rest & R & _ & _ & ->).
  split; [|reflexivity].
  exact (ReadWavHeader_num_samples_range _ _ _ R).
Qed.

(** One call of [ReadSamples] on a reader whose counter is a 32-bit value:
    the assertions hold, at most min(requested, remaining) samples are
    returned, and the counter decreases by their number. *)
Lemma ReadSamples_spec (r : WavReader.t) (req : Z) :
  reader_ok r -> 0 <= req ->
  exists samples r',
    WavReader.ReadSamples r req = Some (samples, r')
    /\ Z.of_nat (List.length samples)
       <= Z.min req (WavReader.num_samples_remaining_ r)
    /\ WavReader.num_samples_remaining_ r'
       = WavReader.num_samples_remaining_ r - Z.of_nat (List.length samples)
    /\ reader_ok r' /\ reader_same_stream r r'.
Proof.
  intros [Hlo Hhi] Hreq. unfold WavReader.ReadSamples.
  set (n := Z.min (u32 req) (WavReader.num_samples_remaining_ r)).
  assert (Hn : 0 <= n <= Z.min req (WavReader.num_samples_remaining_ r)).
  { unfold n, u32. pose proof (Z.mod_pos_bound req (2 ^ 32) ltac:(lia)).
    pose proof (Z.mod_le req (2 ^ 32) Hreq ltac:(lia)). lia. }
  pose proof (fread_s16_length (Z.to_nat n) (WavReader.file_handle_ r)) as L.
  destruct (fread_s16 (Z.to_nat n) (WavReader.file_handle_ r)) as [samples file].
  cbn [fst] in L.
  set (read := Z.of_nat (List.length samples)) in *.
  assert (Hr : 0 <= read <= n) by (unfold read; lia).
  assert (A1 : ((read =? n) || (read <? n)) = true).
  { destruct (Z.eqb_spec read n); [reflexivity|].
    simpl. apply Z.ltb_lt. lia. }
  assert (A2 : (read <=? WavReader.num_samples_remaining_ r) = true)
    by (apply Z.leb_le; lia).
  rewrite A1, A2. cbn [assert bind].
  do 2 eexists. split; [reflexivity|].
  cbn [WavReader.num_samples_remaining_]. fold read.
  assert (E : u32 (WavReader.num_samples_remaining_ r - u32 read)
              = WavReader.num_samples_remaining_ r - read).
  { unfold u32. rewrite (Z.mod_small read) by lia. apply Z.mod_small. lia. }
  split; [lia|]. split; [exact E|]. split.
  - unfold reader_ok, is_u32. cbn [WavReader.num_samples_remaining_].
    fold read. lia.
  - repeat split.
Qed.

(** A sequence of calls returns in total the decrease of the counter. *)
Lemma ReadSamples_seq_spec (reqs : list Z) : forall (r : WavReader.t),
  reader_ok r -> Forall (Z.le 0) reqs ->
  exists outs r',
    ReadSamples_seq r reqs = Some (outs, r')
    /\ total_read outs
       = WavReader.num_samples_remaining_ r
         - WavReader.num_samples_remaining_ r'
    /\ reader_ok r' /\ reader_same_stream r r'.
Proof.
  induction reqs as [|n reqs IH]; intros r Hr Hreqs.
  - exists [], r. split; [reflexivity|].
    split; [unfold total_read; simpl; lia|].
    split; [assumption|apply reader_same_stream_refl].
  - inversion Hreqs as [|? ? Hn Hreqs']; subst.
    destruct (ReadSamples_spec r n Hr Hn) as (s & r1 & E1 & _ & D1 & Hr1 & S1).
    destruct (IH r1 Hr1 Hreqs') as (outs & r2 & E2 & T2 & Hr2 & S2).
    exists (s :: outs), r2. cbn [ReadSamples_seq].
    rewrite E1. cbn [bind]. cbv beta iota. rewrite E2. cbn [bind]. cbv beta iota.
    split; [reflexivity|]. split.
    + unfold total_read in *. cbn [List.concat].
      rewrite length_app, Nat2Z.inj_add. lia.
    + split; [assumption|]. eapply reader_same_stream_trans; eassumption.
Qed.

(** When the file holds the whole payload that the counter announces, a
    request of at least the remaining count returns exactly the remaining
    samples and leaves the bytes after the payload unread. *)
Lemma fread_s16_full (count : nat) : forall (file : list byte),
  (2 * count <= List.length file)%nat ->
  List.length (fst (fread_s16 count file)) = count
  /\ snd (fread_s16 count file) = skipn (2 * count) file.
Proof.
  induction count as [|count IH]; intros file H.
  - split; reflexivity.
  - destruct file as [|b0 [|b1 file]]; simpl in H; try lia.
    cbn [fread_s16]. specialize (IH file ltac:(lia)).
    destruct (fread_s16 count file) as [items rest]. cbn [fst snd] in *.
    destruct IH as [IH1 IH2]. split; [simpl; lia|].
    replace (2 * S count)%nat with (S (S (2 * count))) by lia.
    exact IH2.
Qed.

(** X11.  When the file holds the whole payload that the counter announces, a
    request of at least the remaining count returns exactly the remaining
    samples, sets the counter to 0 and leaves the bytes after the payload
    unread. *)
Lemma ReadSamples_whole_payload (r : WavReader.t) (req : Z) :
  reader_ok r ->
  WavReader.num_samples_remaining_ r <= req < 2 ^ 32 ->
  2 * WavReader.num_samples_remaining_ r <= len (WavReader.file_handle_ r) ->
  exists samples r',
    WavReader.ReadSamples r req = Some (samples, r')
    /\ Z.of_nat (List.length samples) = WavReader.num_samples_remaining_ r
    /\ WavReader.num_samples_remaining_ r' = 0
    /\ WavReader.file_handle_ r'
       = skipn (2 * Z.to_nat (WavReader.num_samples_remaining_ r))
           (WavReader.file_handle_ r).
Proof.
  intros Hr Hreq Hfile. pose proof Hr as [Hlo Hhi].
  destruct (ReadSamples_spec r req Hr ltac:(lia))
    as (samples & r' & E & _ & D & _ & _).
  exists samples, r'. split; [exact E|].
  revert E. unfold WavReader.ReadSamples.
  unfold u32 at 1. rewrite (Z.mod_small req) by lia. rewrite Z.min_r by lia.
  pose proof (fread_s16_full (Z.to_nat (WavReader.num_samples_remaining_ r))
                (WavReader.file_handle_ r)) as F.
  destruct (fread_s16 _ _) as [items rest]. cbn [fst snd] in F.
  destruct F as [F1 F2]; [unfold len in Hfile; lia|].
  destruct (assert _); [|discriminate]. cbn [bind].
  destruct (assert _); [|discriminate]. cbn [bind].
  intros [= <- <-]. cbn [WavReader.file_handle_ WavReader.num_samples_remaining_] in *.
  rewrite F1 in *. rewrite Z2Nat.id in * by lia.
  repeat split; try lia. exact F2.
Qed.

(** C6. On the reader opened on any file contents, after any sequence of
    reads, a call of ReadSamples with any requested count succeeds; it
    returns at most min(requested count, remaining counter) samples and
    decreases the remaining counter by the number returned; the samples
    returned by all the calls together are at most the sample count the
    header declares, whatever bytes follow the payload in the file. *)
Theorem ReadSamples_clamped_to_remaining
    (contents : list byte) (r0 : WavReader.t) (reqs : list Z) (req : Z) :
  WavReader.WavReader contents = Some r0 ->
  Forall (Z.le 0) reqs -> 0 <= req ->
  exists p rest outs r1 samples r2,
    ReadWavHeader contents = Some (p, rest)
    /\ WavReader.num_samples r0 = num_samples p
    /\ ReadSamples_seq r0 reqs = Some (outs, r1)
    /\ WavReader.ReadSamples r1 req = Some (samples, r2)
    /\ Z.of_nat (List.length samples)
       <= Z.min req (WavReader.num_samples_remaining_ r1)
    /\ WavReader.num_samples_remaining_ r2
       = WavReader.num_samples_remaining_ r1 - Z.of_nat (List.length samples)
    /\ total_read outs + Z.of_nat (List.length samples) <= num_samples p.
Proof.
  intros Hopen Hreqs Hreq.
  destruct (WavReader_open_ok _ _ Hopen) as [Hok Hrem].
  destruct (WavReader_open _ _ Hopen) as (p & rest & R & _ & _ & Er0).
  destruct (ReadSamples_seq_spec reqs r0 Hok Hreqs)
    as (outs & r1 & E1 & T1 & Hr1 & S1).
  destruct (ReadSamples_spec r1 req Hr1 Hreq)
    as (samples & r2 & E2 & L2 & D2 & Hr2 & S2).
  exists p, rest, outs, r1, samples, r2.
  assert (N : WavReader.num_samples r0 = num_samples p) by (subst r0; reflexivity).
  repeat (split; [assumption|]).
  rewrite T1, Hrem, <- N.
  destruct Hr2 as [Hlo _]. lia.
Qed.

Lemma ReadSamples_clamped_to_remaining_witness :
  exists p rest outs r1 samples r2,
    ReadWavHeader example_file = Some (p, rest)
    /\ 4 = num_samples p
    /\ ReadSamples_seq
         (WavReader.mk 8000 1 4 4 (skipn 44 example_file)) [2; 1]
       = Some (outs, r1)
    /\ WavReader.ReadSamples r1 10 = Some (samples, r2)
    /\ Z.of_nat (List.length samples)
       <= Z.min 10 (WavReader.num_samples_remaining_ r1)
    /\ WavReader.num_samples_remaining_ r2
       = WavReader.num_samples_remaining_ r1 - Z.of_nat (List.length samples)
    /\ total_read outs + Z.of_nat (List.length samples) <= num_samples p.
Proof.
  apply (ReadSamples_clamped_to_remaining example_file
           (WavReader.mk 8000 1 4 4 (skipn 44 example_file)) [2; 1] 10).
  - vm_compute. reflexivity.
  - repeat constructor; discriminate.
  - lia.
Defined.

(** The end-to-end run of the specification: the file above is opened with
    rate 8000, one channel and four samples; reading 10 samples returns the
    four samples written and leaves the trailing bytes unread; the next read
    returns nothing. *)
Example read_example_file :
  exists r r1 r2,
    WavReader.WavReader example_file = Some r
    /\ WavReader.sample_rate r = 8000
    /\ WavReader.num_channels r = 1
    /\ WavReader.num_samples r = 4
    /\ WavReader.ReadSamples r 10 = Some ([1; -1; 100; -100], r1)
    /\ WavReader.file_handle_ r1 = [Byte.x01; Byte.x02; Byte.x03]
    /\ WavReader.ReadSamples r1 10 = Some ([], r2).
Proof.
  do 3 eexists.
  split; [vm_compute; reflexivity|].
  repeat (split; [vm_compute; reflexivity|]).
  vm_compute; reflexivity.
Qed.

(** The loop of the floating-point [ReadSamples] ends within its fuel and
    leaves the stream parameters as they are. *)
Lemma ReadSamples_float_loop_spec (fuel : nat) :
  forall (r : WavReader.t) (i n : Z) (acc : list float),
    reader_ok r -> 0 <= i -> n - i <= Z.of_nat fuel * kChunksize ->
    exists samples r',
      WavReader.ReadSamples_float_loop fuel r i n acc = Some (samples, r')
      /\ WavReader.num_samples_remaining_ r'
         <= WavReader.num_samples_remaining_ r
      /\ reader_ok r' /\ reader_same_stream r r'.
Proof.
  induction fuel as [|fuel IH]; intros r i n acc Hr Hi Hf.
  - cbn [WavReader.ReadSamples_float_loop].
    destruct (i <? n) eqn:E; [apply Z.ltb_lt in E; simpl in Hf; lia|].
    exists acc, r. split; [reflexivity|]. split; [lia|].
    split; [assumption|apply reader_same_stream_refl].
  - cbn [WavReader.ReadSamples_float_loop].
    destruct (i <? n) eqn:E.
    + apply Z.ltb_lt in E.
      assert (Hc : 0 <= Z.min kChunksize (n - i))
        by (change kChunksize with 2048; lia).
      destruct (ReadSamples_spec r _ Hr Hc) as (s & r1 & E1 & _ & D1 & Hr1 & S1).
      rewrite E1. cbn [bind]. cbv beta iota.
      destruct (IH r1 (i + kChunksize) n (acc ++ map float_of_int s) Hr1)
        as (samples & r' & E2 & D2 & Hr' & S2).
      * change kChunksize with 2048. lia.
      * change kChunksize with 2048 in *. lia.
      * exists samples, r'. split; [exact E2|]. split; [lia|].
        split; [assumption|]. eapply reader_same_stream_trans; eassumption.
    + exists acc, r. split; [reflexivity|]. split; [lia|].
      split; [assumption|apply reader_same_stream_refl].
Qed.

Lemma ReadSamples_float_spec (r : WavReader.t) (req : Z) :
  reader_ok r -> 0 <= req ->
  exists samples r',
    WavReader.ReadSamples_float r req = Some (samples, r')
    /\ WavReader.num_samples_remaining_ r'
       <= WavReader.num_samples_remaining_ r
    /\ reader_ok r' /\ reader_same_stream r r'.
Proof.
  intros Hr Hreq. unfold WavReader.ReadSamples_float.
  apply ReadSamples_float_loop_spec; [assumption|lia|].
  change kChunksize with 2048.
  rewrite Z2Nat.id by (Z.div_mod_to_equations; lia).
  Z.div_mod_to_equations. lia.
Qed.

(** C10. The reader holds two counters.  The constructor sets both to the
    sample count decoded from the header; each of the two ReadSamples
    overloads, called on an open reader with any requested count, returns
    and leaves what num_samples() returns unchanged, while the remaining
    counter does not grow. *)
Theorem ReadSamples_preserves_num_samples
    (contents : list byte) (r0 r : WavReader.t) (reqs : list Z)
    (outs : list (list Z)) (req : Z) :
  WavReader.WavReader contents = Some r0 ->
  Forall (Z.le 0) reqs -> ReadSamples_seq r0 reqs = Some (outs, r) ->
  0 <= req ->
  (exists p rest,
     ReadWavHeader contents = Some (p, rest)
     /\ WavReader.num_samples r0 = num_samples p
     /\ WavReader.num_samples_remaining_ r0 = num_samples p)
  /\ WavReader.num_samples r = WavReader.num_samples r0
  /\ (exists samples r',
        WavReader.ReadSamples r req = Some (samples, r')
        /\ WavReader.num_samples r' = WavReader.num_samples r0
        /\ WavReader.num_samples_remaining_ r'
           <= WavReader.num_samples_remaining_ r)
  /\ (exists samples r',
        WavReader.ReadSamples_float r req = Some (samples, r')
        /\ WavReader.num_samples r' = WavReader.num_samples r0
        /\ WavReader.num_samples_remaining_ r'
           <= WavReader.num_samples_remaining_ r).
Proof.
  intros Hopen Hreqs Hseq Hreq.
  destruct (WavReader_open_ok _ _ Hopen) as [Hok Hrem].
  destruct (WavReader_open _ _ Hopen) as (p & rest & R & _ & _ & Er0).
  destruct (ReadSamples_seq_spec reqs r0 Hok Hreqs)
    as (outs' & r1 & E1 & _ & Hr1 & (_ & _ & S1)).
  rewrite Hseq in E1. injection E1 as <- <-.
  split; [exists p, rest; subst r0; auto|].
  split; [assumption|]. split.
  - destruct (ReadSamples_spec r req Hr1 Hreq)
      as (samples & r' & E2 & _ & D2 & _ & (_ & _ & S2)).
    exists samples, r'. split; [assumption|]. split; [congruence|]. lia.
  - destruct (ReadSamples_float_spec r req Hr1 Hreq)
      as (samples & r' & E2 & D2 & _ & (_ & _ & S2)).
    exists samples, r'. split; [assumption|]. split; [congruence|]. lia.
Qed.

Lemma ReadSamples_preserves_num_samples_witness :
  exists samples r',
    WavReader.ReadSamples
      (WavReader.mk 8000 1 4 1 (skipn 50 example_file)) 10
    = Some (samples, r')
    /\ WavReader.num_samples r' = 4
    /\ WavReader.num_samples_remaining_ r' <= 1.
Proof.
  pose proof (ReadSamples_preserves_num_samples example_file
                (WavReader.mk 8000 1 4 4 (skipn 44 example_file))
                (WavReader.mk 8000 1 4 1 (skipn 50 example_file))
                [2; 1] [[1; -1]; [100]] 10
                ltac:(vm_compute; reflexivity)
                ltac:(repeat constructor; discriminate)
                ltac:(vm_compute; reflexivity)
                ltac:(lia)) as H.
  exact (proj1 (proj2 (proj2 H))).
Defined.

(** ** Stream writer *)

Lemma WavWriter_open_ok (sr c : Z) (w : WavWriter.t) :
  WavWriter.WavWriter sr c = Some w ->
  writer_ok w /\ WavWriter.sample_rate w = sr /\ WavWriter.num_channels w = c
  /\ WavWriter.num_samples w = 0.
Proof.
  unfold WavWriter.WavWriter. cbn [WavWriter.num_channels_
    WavWriter.sample_rate_ WavWriter.num_samples_].
  destruct (CheckWavParameters c sr kWavFormat kBytesPerSample 0) eqn:E;
    [|discriminate].
  cbn. intros [= <-]. unfold writer_ok, is_u32. cbn. repeat split; try lia.
  exact E.
Qed.

(** What one call of [WriteSamples] that returns does to the writer. *)
Lemma WriteSamples_inv (w w' : WavWriter.t) (samples : list Z) :
  WavWriter.WriteSamples w samples = Some w' ->
  let written := Z.of_nat (List.length samples) in
  WavWriter.sample_rate w' = WavWriter.sample_rate w
  /\ WavWriter.num_channels w' = WavWriter.num_channels w
  /\ WavWriter.num_samples w'
     = u32 (WavWriter.num_samples w + u32 written)
  /\ WavWriter.file_handle_ w'
     = WavWriter.file_handle_ w ++ bytes_of_s16 samples
  /\ ((written <=? UINT32_MAX) || (WavWriter.num_samples w' >=? written)) = true
  /\ CheckWavParameters (WavWriter.num_channels w') (WavWriter.sample_rate w')
       kWavFormat kBytesPerSample (WavWriter.num_samples w') = true.
Proof.
  unfold WavWriter.WriteSamples. rewrite Z.eqb_refl. cbn [assert bind].
  destruct (_ || _) eqn:A; [|discriminate]. cbn [assert bind].
  destruct (CheckWavParameters _ _ _ _ _) eqn:C; [|discriminate].
  cbn [assert bind]. intros [= <-]. cbn. repeat split; assumption.
Qed.

(** The converse: the two assertions on the new counter are all a call
    needs. *)
Lemma WriteSamples_Some (w : WavWriter.t) (samples : list Z) :
  let written := Z.of_nat (List.length samples) in
  let n' := u32 (WavWriter.num_samples w + u32 written) in
  ((written <=? UINT32_MAX) || (n' >=? written)) = true ->
  CheckWavParameters (WavWriter.num_channels w) (WavWriter.sample_rate w)
    kWavFormat kBytesPerSample n' = true ->
  WavWriter.WriteSamples w samples
  = Some (WavWriter.mk (WavWriter.sample_rate w) (WavWriter.num_channels w) n'
            (WavWriter.file_handle_ w ++ bytes_of_s16 samples)).
Proof.
  intros written n' A C. subst n' written. unfold WavWriter.WriteSamples.
  rewrite Z.eqb_refl. cbn [assert bind].
  unfold WavWriter.num_samples, WavWriter.num_channels,
    WavWriter.sample_rate in *.
  rewrite A. cbn [assert bind]. rewrite C. reflexivity.
Qed.

(** When the sum of the counter and the samples written is a 32-bit value,
    the counter grows by the number of samples written. *)
Lemma WriteSamples_counter_nowrap (w w' : WavWriter.t) (samples : list Z) :
  is_u32 (WavWriter.num_samples w) ->
  WavWriter.num_samples w + Z.of_nat (List.length samples) < 2 ^ 32 ->
  WavWriter.WriteSamples w samples = Some w' ->
  WavWriter.num_samples w'
  = WavWriter.num_samples w + Z.of_nat (List.length samples)
  /\ writer_ok w'.
Proof.
  intros [Hlo Hhi] Hsum H.
  destruct (WriteSamples_inv _ _ _ H) as (_ & _ & N & _ & _ & C).
  cbv zeta in N.
  assert (E : u32 (WavWriter.num_samples w
                   + u32 (Z.of_nat (List.length samples)))
              = WavWriter.num_samples w + Z.of_nat (List.length samples)).
  { unfold u32. rewrite (Z.mod_small (Z.of_nat _)) by lia.
    apply Z.mod_small. lia. }
  rewrite E in N. split; [exact N|].
  split; [unfold is_u32; lia|exact C].
Qed.

Lemma FloatS16ToS16_array_length (src : list float) : forall dest,
  FloatS16ToS16_array src = Some dest -> List.length dest = List.length src.
Proof.
  induction src as [|v src IH]; intros dest; cbn [FloatS16ToS16_array].
  - intros [= <-]. reflexivity.
  - destruct (FloatS16ToS16 v); [|discriminate]. cbn [bind].
    destruct (FloatS16ToS16_array src) as [d|]; [|discriminate]. cbn [bind].
    intros [= <-]. simpl. f_equal. apply IH. reflexivity.
Qed.

Lemma writer_ok_bound (w : WavWriter.t) :
  writer_ok w -> 0 <= WavWriter.num_samples w <= 2147483629.
Proof.
  intros [[Hlo _] C].
  apply CheckWavParameters_inv in C as (_ & _ & _ & _ & _ & _ & Hn & _).
  change (u32 ((UINT32_MAX - 36) / kBytesPerSample)) with 2147483629 in Hn.
  lia.
Qed.

(** The floating-point overload, when it returns, has left rate and
    channels as they were and has not decreased the counter. *)
Lemma WriteSamples_float_loop_spec (fuel : nat) :
  forall (w w' : WavWriter.t) (samples : list float),
    writer_ok w ->
    WavWriter.WriteSamples_float_loop fuel w samples = Some w' ->
    WavWriter.sample_rate w' = WavWriter.sample_rate w
    /\ WavWriter.num_channels w' = WavWriter.num_channels w
    /\ WavWriter.num_samples w <= WavWriter.num_samples w'
    /\ writer_ok w'.
Proof.
  induction fuel as [|fuel IH]; intros w w' samples Hw;
    cbn [WavWriter.WriteSamples_float_loop];
    (destruct samples as [|v samples];
     [intros [= <-]; repeat split; try apply Hw; lia|]); [discriminate|].
  destruct (FloatS16ToS16_array _) as [isamples|] eqn:F; [|discriminate].
  cbn [bind].
  destruct (WavWriter.WriteSamples w isamples) as [w1|] eqn:W; [|discriminate].
  cbn [bind]. intros H.
  apply FloatS16ToS16_array_length in F.
  pose proof (firstn_le_length (Z.to_nat kChunksize) (v :: samples)) as L.
  rewrite <- F in L. change (Z.to_nat kChunksize) with 2048%nat in L.
  pose proof (writer_ok_bound _ Hw) as B.
  destruct (WriteSamples_inv _ _ _ W) as (S1 & S2 & _).
  destruct (WriteSamples_counter_nowrap w w1 isamples (proj1 Hw) ltac:(lia) W)
    as [N1 Hw1].
  destruct (IH w1 w' _ Hw1 H) as (S3 & S4 & N2 & Hw').
  repeat split; try apply Hw'; try congruence; lia.
Qed.

(** C8 (at the failing input).  A writer of one channel that has written one
    sample is given 4294967295 samples in one call of WriteSamples.  The call
    returns: the overflow assertion holds because the count written is not
    above UINT32_MAX, and the validator accepts the new counter.  The
    counter, 1 before the call, is 0 after it. *)
Theorem WriteSamples_counter_wraps :
  exists (w0 w1 w2 : WavWriter.t) (samples : list Z),
    WavWriter.WavWriter 8000 1 = Some w0
    /\ WavWriter.WriteSamples w0 [0] = Some w1
    /\ WavWriter.num_samples w1 = 1
    /\ Z.of_nat (List.length samples) = 4294967295
    /\ WavWriter.WriteSamples w1 samples = Some w2
    /\ WavWriter.num_samples w2 = 0
    /\ WavWriter.num_samples w2 < WavWriter.num_samples w1.
Proof.
  set (samples := repeat 0 (Z.to_nat 4294967295)).
  assert (L : Z.of_nat (List.length samples) = 4294967295).
  { unfold samples. rewrite repeat_length. apply Z2Nat.id. lia. }
  clearbody samples.
  eexists. exists (WavWriter.mk 8000 1 1
                     (repeat Byte.x00 44 ++ bytes_of_s16 [0])).
  eexists. exists samples.
  split; [vm_compute; reflexivity|].
  split; [vm_compute; reflexivity|].
  split; [reflexivity|].
  split; [exact L|].
  split.
  - apply WriteSamples_Some; rewrite L; vm_compute; reflexivity.
  - unfold WavWriter.num_samples. cbn [WavWriter.num_samples_].
    rewrite L. split; vm_compute; reflexivity.
Qed.

(** C7 (at the failing input).  A writer of 3 channels with no sample
    written is given 3000 floating-point samples, a multiple of 3; the total
    3000 is one the validator accepts.  The integer overload writes the
    3000 converted samples; the floating-point overload aborts: its first
    chunk holds 2048 samples, and the validator, run on the counter 2048
    after that chunk, rejects it because 3 does not divide 2048. *)
Theorem WriteSamples_float_chunk_not_whole_frames :
  let samples := repeat (S754_zero false) 3000 in
  exists (w : WavWriter.t) (isamples chunk : list Z),
    WavWriter.WavWriter 8000 3 = Some w
    /\ WavWriter.num_samples w = 0
    /\ Z.of_nat (List.length samples) mod 3 = 0
    /\ CheckWavParameters 3 8000 kWavFormat kBytesPerSample
         (WavWriter.num_samples w + Z.of_nat (List.length samples)) = true
    /\ WavWriter.WriteSamples_float w samples = None
    /\ FloatS16ToS16_array samples = Some isamples
    /\ (exists w', WavWriter.WriteSamples w isamples = Some w'
                   /\ WavWriter.num_samples w' = 3000)
    /\ FloatS16ToS16_array (firstn (Z.to_nat kChunksize) samples) = Some chunk
    /\ Z.of_nat (List.length chunk) = 2048
    /\ WavWriter.WriteSamples w chunk = None
    /\ CheckWavParameters 3 8000 kWavFormat kBytesPerSample 2048 = false.
Proof.
  intros samples. subst samples.
  eexists. exists (repeat 0 3000), (repeat 0 2048).
  split; [vm_compute; reflexivity|].
  repeat (split; [vm_compute; reflexivity|]).
  split.
  - eexists. split; vm_compute; reflexivity.
  - repeat (split; [vm_compute; reflexivity|]). vm_compute; reflexivity.
Qed.

(** ** Writing a file and reading it back *)

Lemma to_int16_u16 (s : Z) : is_int16 s -> to_int16 (u16 s) = s.
Proof.
  unfold is_int16, INT16_MIN, INT16_MAX, to_int16, u16. intros H.
  destruct (Z.ltb_spec s 0).
  - replace (s mod 2 ^ 16) with (s + 2 ^ 16).
    + replace (s + 2 ^ 16 + 2 ^ 15) with (s + 2 ^ 15 + 1 * 2 ^ 16) by lia.
      rewrite Z.mod_add by lia. rewrite Z.mod_small by lia. lia.
    + apply (Z.mod_unique _ _ (-1)); lia.
  - rewrite (Z.mod_small s) by lia. rewrite Z.mod_small by lia. lia.
Qed.

Lemma fread_s16_bytes_of_s16 (samples : list Z) (rest : list byte) :
  Forall is_int16 samples ->
  fread_s16 (List.length samples) (bytes_of_s16 samples ++ rest)
  = (samples, rest).
Proof.
  induction 1 as [|s samples Hs _ IH]; [reflexivity|].
  cbn [List.length bytes_of_s16 flat_map].
  change (le_split 2 s) with [byte.of_Z s; byte.of_Z (Z.shiftr s 8)].
  cbn [app fread_s16]. fold (bytes_of_s16 samples). rewrite IH.
  f_equal. f_equal.
  change [byte.of_Z s; byte.of_Z (Z.shiftr s 8)] with (le_split 2 s).
  rewrite le_combine_split_2. apply to_int16_u16. exact Hs.
Qed.

(** Samples written in one call and the file closed, any bytes appended to
    the file: the reader opens the file with the rate, the channels and the
    sample count of the writer, a read of at least that many samples returns
    the samples written, and the appended bytes stay unread. *)
Theorem write_then_read
    (sr c : Z) (samples : list Z) (trailing : list byte) (req : Z)
    (w0 w1 : WavWriter.t) (file : list byte) :
  is_int sr -> is_int c -> Forall is_int16 samples ->
  Z.of_nat (List.length samples) <= req < 2 ^ 32 ->
  WavWriter.WavWriter sr c = Some w0 ->
  WavWriter.WriteSamples w0 samples = Some w1 ->
  WavWriter.Close w1 = Some file ->
  exists r r',
    WavReader.WavReader (file ++ trailing) = Some r
    /\ WavReader.sample_rate r = sr
    /\ WavReader.num_channels r = c
    /\ WavReader.num_samples r = Z.of_nat (List.length samples)
    /\ WavReader.ReadSamples r req = Some (samples, r')
    /\ WavReader.num_samples_remaining_ r' = 0
    /\ WavReader.file_handle_ r' = trailing.
Proof.
  intros Is Ic Hs Hreq H0 H1 HC.
  set (n := Z.of_nat (List.length samples)) in *.
  destruct (WavWriter_open_ok _ _ _ H0) as (_ & S0 & C0 & N0).
  assert (F0 : WavWriter.file_handle_ w0 = repeat Byte.x00 44).
  { revert H0. unfold WavWriter.WavWriter.
    destruct (assert _); [|discriminate]. cbn. intros [= <-]. reflexivity. }
  destruct (WriteSamples_inv _ _ _ H1) as (S1 & C1 & N1 & F1 & _ & K1).
  cbv zeta in N1. fold n in N1. rewrite N0 in N1.
  assert (En : WavWriter.num_samples w1 = n).
  { rewrite N1. unfold u32. rewrite (Z.mod_small n) by lia.
    apply Z.mod_small. lia. }
  rewrite S1, C1, S0, C0, En in K1.
  destruct (header_roundtrip c sr kWavFormat kBytesPerSample n
              (bytes_of_s16 samples ++ trailing) Ic Is ltac:(lia) K1)
    as (buf & W & L & R).
  assert (Ef : file = buf ++ bytes_of_s16 samples).
  { revert HC. unfold WavWriter.Close.
    unfold WavWriter.num_samples, WavWriter.num_channels,
      WavWriter.sample_rate in *.
    rewrite S1, C1, S0, C0, En, W. cbn [bind]. intros [= <-].
    rewrite F1, F0. reflexivity. }
  subst file. rewrite <- app_assoc.
  exists (WavReader.mk sr c n n (bytes_of_s16 samples ++ trailing)).
  exists (WavReader.mk sr c n 0 trailing).
  split.
  { unfold WavReader.WavReader. rewrite R. reflexivity. }
  repeat (split; [reflexivity|]).
  split; [|split; reflexivity].
  unfold WavReader.ReadSamples.
  cbn [WavReader.num_samples_remaining_ WavReader.file_handle_
       WavReader.sample_rate_ WavReader.num_channels_ WavReader.num_samples_].
  assert (Emin : Z.min (u32 req) n = n).
  { unfold u32. rewrite Z.mod_small by lia. lia. }
  rewrite Emin.
  replace (Z.to_nat n) with (List.length samples) by (unfold n; lia).
  rewrite fread_s16_bytes_of_s16 by assumption.
  fold n. rewrite Z.eqb_refl, Z.leb_refl. cbn [orb assert bind].
  do 3 f_equal. unfold u32. rewrite (Z.mod_small n) by lia.
  rewrite Z.sub_diag. reflexivity.
Qed.

(** ** Rounding of binary32 *)

Lemma iter_pos_nat {A : Type} (f : A -> A) (p : positive) : forall x : A,
  iter_pos f p x = Nat.iter (Pos.to_nat p) f x.
Proof.
  induction p as [p IH|p IH|]; intros x; cbn [iter_pos].
  - rewrite Pos2Nat.inj_xI, !IH, Nat.iter_succ_r.
    replace (2 * Pos.to_nat p)%nat with (Pos.to_nat p + Pos.to_nat p)%nat by lia.
    rewrite Nat.iter_add. reflexivity.
  - rewrite Pos2Nat.inj_xO, !IH.
    replace (2 * Pos.to_nat p)%nat with (Pos.to_nat p + Pos.to_nat p)%nat by lia.
    rewrite Nat.iter_add. reflexivity.
  - reflexivity.
Qed.

Lemma shr_1_spec (m : Z) (r s : bool) :
  0 <= m ->
  shr_1 (Build_shr_record m r s) = Build_shr_record (m / 2) (Z.odd m) (r || s).
Proof.
  intros H. rewrite <- Z.div2_div.
  destruct m as [|[p|p|]|p]; try reflexivity. lia.
Qed.

(** [k + 1] right shifts of [m]: the quotient by [2^(k+1)], the bit shifted
    out last, and whether a lower bit is set, in terms of the remainder. *)
Lemma shr_iter_spec (m : Z) (k : nat) :
  0 <= m ->
  Nat.iter (S k) shr_1 (Build_shr_record m false false)
  = Build_shr_record (m / 2 ^ Z.of_nat (S k))
      (2 ^ Z.of_nat k <=? m mod 2 ^ Z.of_nat (S k))
      (negb (m mod 2 ^ Z.of_nat k =? 0)).
Proof.
  intros Hm. induction k as [|k IH].
  - cbn [Nat.iter]. rewrite shr_1_spec by assumption.
    change (2 ^ Z.of_nat 1) with 2. change (2 ^ Z.of_nat 0) with 1.
    rewrite Z.mod_1_r. f_equal.
    rewrite Zodd_mod. pose proof (Z.mod_pos_bound m 2 ltac:(lia)).
    destruct (Z.eqb_spec (m mod 2) 1), (Z.leb_spec 1 (m mod 2));
      try reflexivity; exfalso; lia.
  - rewrite Nat.iter_succ, IH.
    rewrite shr_1_spec by (apply Z.div_pos; lia).
    rewrite !Nat2Z.inj_succ, !Z.pow_succ_r by lia.
    set (P := 2 ^ Z.of_nat k). assert (HP : 0 < P) by (apply Z.pow_pos_nonneg; lia).
    f_equal.
    + rewrite Z.div_div by lia. f_equal. lia.
    + rewrite Zodd_mod, (Z.mul_comm 2 (2 * P)), Z.rem_mul_r by lia.
      pose proof (Z.mod_pos_bound m (2 * P) ltac:(lia)).
      pose proof (Z.mod_pos_bound (m / (2 * P)) 2 ltac:(lia)).
      set (a := m mod (2 * P)) in *. set (b := (m / (2 * P)) mod 2) in *.
      assert (Hb : b = 0 \/ b = 1) by lia.
      clearbody a b.
      destruct Hb as [-> | ->].
      * rewrite Z.mul_0_r, Z.add_0_r.
        destruct (Z.leb_spec (2 * P) a); [lia|reflexivity].
      * rewrite Z.mul_1_r.
        destruct (Z.leb_spec (2 * P) (a + 2 * P)); [reflexivity|lia].
    + rewrite (Z.mul_comm 2 P), Z.rem_mul_r by lia.
      pose proof (Z.mod_pos_bound m P ltac:(lia)).
      pose proof (Z.mod_pos_bound (m / P) 2 ltac:(lia)).
      set (a := m mod P) in *. set (b := (m / P) mod 2) in *.
      assert (Hb : b = 0 \/ b = 1) by lia.
      clearbody a b.
      destruct Hb as [-> | ->].
      * rewrite Z.mul_0_r, Z.add_0_r.
        destruct (Z.leb_spec P a); [lia|reflexivity].
      * rewrite Z.mul_1_r.
        destruct (Z.leb_spec P (a + P)), (Z.eqb_spec (a + P) 0);
          try reflexivity; lia.
Qed.

Lemma digits2_pos_log2 (p : positive) :
  Zpos (digits2_pos p) = Z.log2 (Zpos p) + 1.
Proof.
  assert (S : forall q, digits2_pos q = Pos.size q)
    by (induction q; simpl; congruence).
  destruct p; cbn [digits2_pos Z.log2]; rewrite ?S; lia.
Qed.

Lemma digits2_pos_bounds (p : positive) (d : Z) :
  2 ^ (d - 1) <= Zpos p < 2 ^ d -> Zpos (digits2_pos p) = d.
Proof.
  intros H. rewrite digits2_pos_log2.
  assert (0 < d).
  { destruct (Z.ltb_spec 0 d); [assumption|].
    rewrite (Z.pow_neg_r 2 (d - 1)) in H by lia.
    assert (2 ^ d <= 1); [|lia].
    destruct (Z.eqb_spec d 0) as [->|]; [simpl; lia|].
    rewrite Z.pow_neg_r; lia. }
  rewrite (Z.log2_unique (Zpos p) (d - 1)); [lia|lia|].
  replace (Z.succ (d - 1)) with d by lia. exact H.
Qed.

Lemma digits2_pos_range (p : positive) :
  2 ^ (Zpos (digits2_pos p) - 1) <= Zpos p < 2 ^ Zpos (digits2_pos p).
Proof.
  rewrite digits2_pos_log2.
  replace (Z.log2 (Zpos p) + 1 - 1) with (Z.log2 (Zpos p)) by lia.
  apply Z.log2_spec. lia.
Qed.

Lemma shr_round (m ex n : Z) :
  0 <= m -> 0 <= n ->
  let '(mrs, e') := shr (Build_shr_record m false false) ex n in
  round_nearest_even (shr_m mrs) (loc_of_shr_record mrs) = rounded m n
  /\ e' = ex + n.
Proof.
  intros Hm Hn. destruct n as [|k|k]; [| |lia].
  - cbn [shr shr_m loc_of_shr_record round_nearest_even].
    unfold rounded, round_up_even. rewrite Z.pow_0_r, Z.mod_1_r, Z.div_1_r.
    simpl. split; lia.
  - cbn [shr]. rewrite iter_pos_nat.
    destruct (Pos2Nat.is_succ k) as [k' Hk]. rewrite Hk.
    rewrite shr_iter_spec by assumption.
    assert (En : Zpos k = Z.of_nat (S k')) by lia.
    rewrite <- En.
    split; [|reflexivity].
    unfold rounded, round_up_even. rewrite En, Nat2Z.inj_succ, Z.pow_succ_r by lia.
    set (H := 2 ^ Z.of_nat k'). assert (HH : 0 < H) by (apply Z.pow_pos_nonneg; lia).
    rewrite (Z.mul_comm 2 H), (Z.rem_mul_r m H 2) by lia.
    pose proof (Z.mod_pos_bound m H ltac:(lia)) as Ba.
    pose proof (Z.mod_pos_bound (m / H) 2 ltac:(lia)) as Bb.
    set (a := m mod H) in *. set (b := (m / H) mod 2) in *.
    set (q := m / (H * 2)). clearbody a b q.
    assert (Hb : b = 0 \/ b = 1) by lia.
    cbn [shr_m loc_of_shr_record].
    destruct Hb as [-> | ->].
    + rewrite Z.mul_0_r, Z.add_0_r.
      destruct (Z.leb_spec H a); [lia|].
      destruct (Z.ltb_spec (H * 2) (2 * a)); [lia|].
      destruct (Z.eqb_spec (2 * a) (H * 2)); [lia|].
      destruct (Z.eqb_spec a 0); cbn; lia.
    + rewrite Z.mul_1_r.
      destruct (Z.leb_spec H (a + H)); [|lia].
      destruct (Z.eqb_spec a 0) as [->|].
      * rewrite Z.add_0_l.
        destruct (Z.ltb_spec (H * 2) (2 * H)); [lia|].
        destruct (Z.eqb_spec (2 * H) (H * 2)); [|lia].
        cbn [negb orb andb round_nearest_even].
        rewrite <- Z.negb_odd. destruct (Z.odd q); cbn; lia.
      * destruct (Z.ltb_spec (H * 2) (2 * (a + H))); [|lia].
        cbn. lia.
Qed.

Lemma fexp_normal (d e : Z) :
  -149 <= d + e - 24 -> fexp prec emax (d + e) = d + e - 24.
Proof. unfold fexp, emin, prec, emax. lia. Qed.

(** The significand [p] has [24 + n] digits: [binary_round] drops [n] bits,
    rounding to nearest even; a carry out of the 24 bits moves to the next
    exponent. *)
Lemma binary_round_shift (sx : bool) (p : positive) (ex n : Z) :
  Zpos (digits2_pos p) = 24 + n -> 0 <= n -> -149 <= ex + n -> ex + n < 104 ->
  2 ^ 23 <= rounded (Zpos p) n <= 2 ^ 24
  /\ binary_round prec emax sx p ex
     = if rounded (Zpos p) n <? 2 ^ 24
       then S754_finite sx (Z.to_pos (rounded (Zpos p) n)) (ex + n)
       else S754_finite sx 8388608 (ex + n + 1).
Proof.
  intros Hd Hn Hlo Hhi.
  assert (Hq : 2 ^ 23 <= Zpos p / 2 ^ n < 2 ^ 24).
  { pose proof (digits2_pos_range p) as R. rewrite Hd in R.
    replace (24 + n - 1) with (23 + n) in R by lia.
    rewrite !Z.pow_add_r in R by lia.
    assert (0 < 2 ^ n) by (apply Z.pow_pos_nonneg; lia).
    split.
    - apply Z.div_le_lower_bound; lia.
    - apply Z.div_lt_upper_bound; lia. }
  assert (Hr : 2 ^ 23 <= rounded (Zpos p) n <= 2 ^ 24).
  { unfold rounded. destruct (round_up_even _ _); lia. }
  split; [exact Hr|].
  unfold binary_round. rewrite Hd.
  replace (24 + n + ex) with ((24 + n) + ex) by lia.
  rewrite fexp_normal by lia.
  unfold shl_align.
  replace (24 + n + ex - 24 - ex) with n by lia.
  assert (A : match n with
              | Z.neg d => (Pos.iter xO p d, 24 + n + ex - 24)
              | _ => (p, ex)
              end = (p, ex)) by (destruct n; [reflexivity|reflexivity|lia]).
  rewrite A. clear A.
  unfold binary_round_aux, shr_fexp.
  cbn [Zdigits2 shr_record_of_loc]. rewrite Hd.
  rewrite fexp_normal by lia.
  replace (24 + n + ex - 24 - ex) with n by lia.
  pose proof (shr_round (Zpos p) ex n ltac:(lia) Hn) as S.
  destruct (shr {| shr_m := Z.pos p; shr_r := false; shr_s := false |} ex n)
    as [mrs e'].
  destruct S as [S ->]. rewrite S. clear S mrs.
  set (m' := rounded (Zpos p) n) in *. clearbody m'.
  destruct (Z.ltb_spec m' (2 ^ 24)) as [Hlt|Hge].
  - assert (Dm : Zdigits2 m' = 24).
    { destruct m' as [|m'|m']; try lia. cbn [Zdigits2].
      apply digits2_pos_bounds. simpl in *. lia. }
    rewrite Dm. rewrite fexp_normal by lia.
    replace (24 + (ex + n) - 24 - (ex + n)) with 0 by lia.
    cbn [shr shr_m].
    destruct m' as [|m'|m']; try lia.
    destruct (Z.leb_spec (ex + n) (emax - prec)); [reflexivity|].
    unfold emax, prec in *. lia.
  - assert (m' = 2 ^ 24) by lia. subst m'.
    change (Zdigits2 (2 ^ 24)) with 25.
    rewrite fexp_normal by lia.
    replace (25 + (ex + n) - 24 - (ex + n)) with 1 by lia.
    cbn.
    destruct (Z.leb_spec (ex + n + 1) 104); [reflexivity|lia].
Qed.

Lemma rounded_cases (p n : Z) :
  rounded p n = p / 2 ^ n
  \/ rounded p n = p / 2 ^ n + 1 /\ 2 ^ n <= 2 * (p mod 2 ^ n).
Proof.
  unfold rounded, round_up_even.
  destruct (Z.ltb_spec (2 ^ n) (2 * (p mod 2 ^ n))); cbn [orb].
  - right. lia.
  - destruct (Z.eqb_spec (2 * (p mod 2 ^ n)) (2 ^ n)); cbn [andb].
    + destruct (Z.odd _); [right|left]; lia.
    + left. lia.
Qed.

Lemma shl_align_val (mx : positive) (ex ex' : Z) :
  ex' <= ex ->
  Zpos (fst (shl_align mx ex ex')) = Zpos mx * 2 ^ (ex - ex').
Proof.
  intros H. unfold shl_align.
  destruct (ex' - ex) as [|d|d] eqn:E; cbn [fst].
  - replace (ex - ex') with 0 by lia. lia.
  - lia.
  - replace (ex - ex') with (Zpos d) by lia.
    rewrite <- (Pos2Z.inj_pow 2 d), <- Pos2Z.inj_mul. f_equal.
    clear. revert mx. induction d as [|d IH] using Pos.peano_ind; intros mx.
    + cbn. lia.
    + rewrite Pos.iter_succ, IH, Pos.pow_succ_r. lia.
Qed.

(** The canonical binary32 numbers: exponent between -149 and 104, at most
    24 bits of significand, and exactly 24 above the least exponent. *)
Lemma bounded_inv (m : positive) (e : Z) :
  bounded prec emax m e = true ->
  -149 <= e <= 104 /\ Zpos m < 2 ^ 24 /\ (-149 < e -> 2 ^ 23 <= Zpos m).
Proof.
  unfold bounded, canonical_mantissa, fexp, emin, prec, emax.
  intros H. apply andb_true_iff in H as [H1 H2].
  apply Z.eqb_eq in H1. apply Z.leb_le in H2.
  pose proof (digits2_pos_range m) as R.
  set (d := Zpos (digits2_pos m)) in *.
  assert (Hd : 0 < d) by (unfold d; lia). clearbody d.
  split; [lia|]. split.
  - assert (2 ^ d <= 2 ^ 24) by (apply Z.pow_le_mono_r; lia). lia.
  - intros He. assert (d = 24) by lia. subst d. exact (proj1 R).
Qed.

Lemma half_sum_val_hi (m : positive) (e : Z) :
  -24 <= e -> Zpos (half_sum m e) = Zpos m * 2 ^ (e + 24) + 2 ^ 23.
Proof.
  intros H. unfold half_sum. rewrite Z.min_r by lia.
  rewrite Pos2Z.inj_add, shl_align_val by lia.
  replace (e - -24) with (e + 24) by lia. reflexivity.
Qed.

Lemma half_sum_val_lo (m : positive) (e : Z) :
  e <= -24 -> Zpos (half_sum m e) = Zpos m + 2 ^ 23 * 2 ^ (-24 - e).
Proof.
  intros H. unfold half_sum. rewrite Z.min_l by lia.
  rewrite Pos2Z.inj_add, !shl_align_val by lia.
  rewrite Z.sub_diag, Z.pow_0_r. lia.
Qed.

(** From the rounded significand to the truncated value of the result. *)
Lemma binary_round_truncated (s : bool) (p : positive) (ex n target : Z) :
  Zpos (digits2_pos p) = 24 + n -> 0 <= n -> -149 <= ex + n -> ex + n < 0 ->
  (rounded (Zpos p) n < 2 ^ 24 ->
   rounded (Zpos p) n / 2 ^ (- (ex + n)) = target) ->
  (rounded (Zpos p) n = 2 ^ 24 -> 2 ^ 23 / 2 ^ (- (ex + n + 1)) = target) ->
  exists M E,
    binary_round prec emax s p ex = S754_finite s M E
    /\ Z.shiftl (Zpos M) E = target.
Proof.
  intros Hd Hn Hlo Hhi T1 T2.
  destruct (binary_round_shift s p ex n Hd Hn Hlo ltac:(lia)) as [R ->].
  destruct (Z.ltb_spec (rounded (Zpos p) n) (2 ^ 24)) as [L|L].
  - do 2 eexists. split; [reflexivity|].
    rewrite Z2Pos.id by lia. rewrite Z.shiftl_div_pow2 by lia. auto.
  - do 2 eexists. split; [reflexivity|].
    rewrite Z.shiftl_div_pow2 by lia. apply T2. lia.
Qed.

Lemma add_half_mid (s : bool) (m : positive) (e : Z) :
  2 ^ 23 <= Zpos m < 2 ^ 24 -> -24 <= e <= -9 ->
  exists M E,
    binary_round prec emax s (half_sum m e) (Z.min e (-24)) = S754_finite s M E
    /\ Z.shiftl (Zpos M) E = round_half_away_mag m e.
Proof.
  intros Hm He.
  pose proof (half_sum_val_hi m e ltac:(lia)) as V.
  rewrite Z.min_r by lia.
  unfold round_half_away_mag.
  destruct (Z.leb_spec 0 e) as [?|_]; [lia|].
  assert (C : e = -24 \/ e = -23 \/ e = -22 \/ e = -21 \/ e = -20 \/ e = -19
              \/ e = -18 \/ e = -17 \/ e = -16 \/ e = -15 \/ e = -14
              \/ e = -13 \/ e = -12 \/ e = -11 \/ e = -10 \/ e = -9) by lia.
  repeat (destruct C as [->|C]); [..|subst e];
    match type of V with
    | _ = _ * 2 ^ ?k + _ =>
        let k' := eval cbv in k in
        let P := eval cbv in (2 ^ (24 + k')) in
        let k1 := eval cbv in (k' + 1) in
        let e' := eval cbv in (k' - 24) in
        destruct (Z.ltb_spec (Zpos (half_sum m e')) P) as [L|L];
        [ apply (binary_round_truncated s _ (-24) k')
        | apply (binary_round_truncated s _ (-24) k1) ]
    end;
    try lia;
    try (apply digits2_pos_bounds; rewrite V in *; pow2_norm; lia);
    intros HR;
    match type of HR with
    | context [rounded ?S ?n] =>
        destruct (rounded_cases S n) as [R|[R R']]; rewrite R in *; clear R
    end;
    rewrite V in *; pow2_norm; Z.div_mod_to_equations; lia.
Qed.

Lemma add_half_25 (s : bool) (m : positive) :
  2 ^ 23 <= Zpos m < 2 ^ 24 -> m <> 16777215%positive ->
  exists M E,
    binary_round prec emax s (half_sum m (-25)) (Z.min (-25) (-24))
    = S754_finite s M E
    /\ Z.shiftl (Zpos M) E = round_half_away_mag m (-25).
Proof.
  intros Hm Hne.
  assert (Hne' : Zpos m <> 16777215) by congruence.
  pose proof (half_sum_val_lo m (-25) ltac:(lia)) as V.
  unfold round_half_away_mag. cbn [Z.leb Z.compare Z.min].
  apply (binary_round_truncated s _ (-25) 1); try lia.
  - apply digits2_pos_bounds. rewrite V. pow2_norm. lia.
  - intros HR.
    destruct (rounded_cases (Zpos (half_sum m (-25))) 1) as [R|[R R']];
      rewrite R in *; clear R; rewrite V in *; pow2_norm;
      Z.div_mod_to_equations; lia.
  - intros HR.
    destruct (rounded_cases (Zpos (half_sum m (-25))) 1) as [R|[R R']];
      rewrite R in *; clear R; rewrite V in *; pow2_norm;
      Z.div_mod_to_equations; lia.
Qed.

Lemma add_half_small (s : bool) (m : positive) (e : Z) :
  Zpos m < 2 ^ 24 -> -149 <= e <= -26 ->
  exists M E,
    binary_round prec emax s (half_sum m e) (Z.min e (-24)) = S754_finite s M E
    /\ Z.shiftl (Zpos M) E = round_half_away_mag m e.
Proof.
  intros Hm He.
  pose proof (half_sum_val_lo m e ltac:(lia)) as V.
  rewrite Z.min_l by lia.
  set (n := -24 - e) in *. set (P := 2 ^ n) in *.
  assert (HP : 4 <= P).
  { change 4 with (2 ^ 2). apply Z.pow_le_mono_r; lia. }
  assert (Hq : Zpos (half_sum m e) / P < 2 ^ 23 + 2 ^ 22).
  { rewrite V, Z.div_add by lia.
    assert (Zpos m / P <= Zpos m / 4) by (apply Z.div_le_compat_l; lia).
    assert (Zpos m / 4 < 2 ^ 22) by (apply Z.div_lt_upper_bound; lia).
    lia. }
  assert (Hr : 0 <= rounded (Zpos (half_sum m e)) n < 2 ^ 24).
  { assert (0 <= Zpos (half_sum m e) / P) by (apply Z.div_pos; lia).
    destruct (rounded_cases (Zpos (half_sum m e)) n) as [R|[R _]];
      rewrite R; fold P; lia. }
  apply (binary_round_truncated s _ e n); try lia.
  - apply digits2_pos_bounds. rewrite V.
    replace (24 + n - 1) with (23 + n) by lia.
    rewrite !Z.pow_add_r by lia. fold P. lia.
  - intros _. replace (- (e + n)) with 24 by lia.
    rewrite Z.div_small by lia.
    unfold round_half_away_mag.
    destruct (Z.leb_spec 0 e); [lia|].
    replace (- e - 1) with (23 + n) by lia.
    replace (- e) with (24 + n) by lia.
    rewrite !Z.pow_add_r by lia. fold P.
    symmetry. apply Z.div_small. lia.
Qed.

(** The sum |v| + 0.5 of binary32, truncated, is |v| rounded half away from
    zero, for every canonical v below 32767.5 in magnitude other than
    0.5 - 2^-25. *)
Lemma add_half_truncated (s : bool) (m : positive) (e : Z) :
  bounded prec emax m e = true ->
  e < -9 \/ e = -9 /\ Zpos m < 16776960 ->
  ~ (e = -25 /\ m = 16777215%positive) ->
  exists M E,
    binary_round prec emax s (half_sum m e) (Z.min e (-24)) = S754_finite s M E
    /\ Z.shiftl (Zpos M) E = round_half_away_mag m e.
Proof.
  intros B Hlt Hne.
  destruct (bounded_inv m e B) as (He & Hm & Hn).
  destruct (Z.leb_spec (-24) e).
  - apply add_half_mid; lia.
  - destruct (Z.eqb_spec e (-25)) as [->|].
    + apply add_half_25; [lia|]. intros ->. apply Hne. auto.
    + apply add_half_small; lia.
Qed.

(** Bounds of the rounded magnitude on both sides of the saturation
    thresholds 32766.5 and 32767.5. *)
Lemma round_half_away_mag_bounds (m : positive) (e : Z) :
  bounded prec emax m e = true ->
  0 <= round_half_away_mag m e
  /\ (e < -9 \/ e = -9 /\ Zpos m < 16776448 -> round_half_away_mag m e <= 32766)
  /\ (e < -9 \/ e = -9 /\ Zpos m < 16776960 -> round_half_away_mag m e <= 32767)
  /\ (-9 < e \/ e = -9 /\ 16776448 <= Zpos m -> 32767 <= round_half_away_mag m e)
  /\ (-9 < e \/ e = -9 /\ 16776960 <= Zpos m -> 32768 <= round_half_away_mag m e).
Proof.
  intros B. destruct (bounded_inv m e B) as (He & Hm & Hn).
  unfold round_half_away_mag.
  destruct (Z.leb_spec 0 e) as [H0|H0].
  - assert (1 <= 2 ^ e) by (apply (Z.pow_le_mono_r 2 0 e); lia).
    repeat split; try lia; intros _; nia.
  - assert (HP : 0 < 2 ^ (- e - 1)) by (apply Z.pow_pos_nonneg; lia).
    assert (E2 : 2 ^ (- e) = 2 * 2 ^ (- e - 1)).
    { rewrite <- Z.pow_succ_r by lia. f_equal. lia. }
    rewrite E2. set (H := 2 ^ (- e - 1)) in *.
    assert (D0 : 0 <= (Zpos m + H) / (2 * H)) by (apply Z.div_pos; lia).
    split; [exact D0|].
    assert (Hbig : e < -9 -> 2 ^ 9 <= H).
    { intros. apply Z.pow_le_mono_r; lia. }
    assert (H9 : e = -9 -> H = 2 ^ 8) by (intros ->; reflexivity).
    assert (Hsmall : -9 < e -> H <= 2 ^ 7).
    { intros. apply Z.pow_le_mono_r; lia. }
    repeat split; intros [C|[C C']].
    + apply Z.lt_succ_r, Z.div_lt_upper_bound; [lia|]. specialize (Hbig C). nia.
    + rewrite (H9 C). apply Z.lt_succ_r, Z.div_lt_upper_bound; lia.
    + apply Z.lt_succ_r, Z.div_lt_upper_bound; [lia|]. specialize (Hbig C). nia.
    + rewrite (H9 C). apply Z.lt_succ_r, Z.div_lt_upper_bound; lia.
    + apply Z.div_le_lower_bound; [lia|]. specialize (Hsmall C). nia.
    + rewrite (H9 C). apply Z.div_le_lower_bound; lia.
    + apply Z.div_le_lower_bound; [lia|]. specialize (Hsmall C). nia.
    + rewrite (H9 C). apply Z.div_le_lower_bound; lia.
Qed.

(** *** The conversion against rounding half away from zero *)

(** [round_half_away_mag] is the nearest integer, a half going up:
    r - 1/2 <= m * 2^e < r + 1/2. *)
Lemma round_half_away_mag_nearest (m : positive) (e : Z) :
  e < 0 ->
  let r := round_half_away_mag m e in
  (2 * r - 1) * 2 ^ (- e) <= 2 * Zpos m < (2 * r + 1) * 2 ^ (- e).
Proof.
  intros He r. unfold r, round_half_away_mag.
  destruct (Z.leb_spec 0 e); [lia|].
  assert (HP : 0 < 2 ^ (- e - 1)) by (apply Z.pow_pos_nonneg; lia).
  assert (E2 : 2 ^ (- e) = 2 * 2 ^ (- e - 1)).
  { rewrite <- Z.pow_succ_r by lia. f_equal. lia. }
  rewrite E2. set (h := 2 ^ (- e - 1)) in *. clearbody h.
  pose proof (Z.div_mod (Zpos m + h) (2 * h) ltac:(lia)).
  pose proof (Z.mod_pos_bound (Zpos m + h) (2 * h) ltac:(lia)).
  set (q := (Zpos m + h) / (2 * h)) in *. clearbody q.
  set (t := (Zpos m + h) mod (2 * h)) in *. clearbody t.
  split; lia.
Qed.

Lemma kMaxRound_eq : kMaxRound = S754_finite false 16776448 (-9).
Proof. reflexivity. Qed.

Lemma kMinRound_eq : kMinRound = S754_finite true 16776960 (-9).
Proof. reflexivity. Qed.

Lemma compare_cont_Z (p q : positive) :
  Pos.compare_cont Eq p q = (Zpos p ?= Zpos q).
Proof.
  rewrite Pos.compare_cont_spec.
  change (Zpos p ?= Zpos q) with (p ?= q)%positive.
  destruct (p ?= q)%positive; reflexivity.
Qed.

Lemma fleb_kMaxRound_finite (m : positive) (e : Z) :
  fleb kMaxRound (S754_finite false m e) = true
  <-> -9 < e \/ e = -9 /\ 16776448 <= Zpos m.
Proof.
  rewrite kMaxRound_eq. unfold fleb, SFleb. cbn [SFcompare].
  rewrite compare_cont_Z.
  destruct (Z.compare_spec (-9) e) as [E|E|E].
  - destruct (Z.compare_spec 16776448 (Zpos m)); split; intros;
      try discriminate; try reflexivity; lia.
  - split; intros; [lia|reflexivity].
  - split; intros; [discriminate|lia].
Qed.

Lemma fleb_kMinRound_finite (m : positive) (e : Z) :
  fleb (S754_finite true m e) kMinRound = true
  <-> -9 < e \/ e = -9 /\ 16776960 <= Zpos m.
Proof.
  rewrite kMinRound_eq. unfold fleb, SFleb. cbn [SFcompare].
  rewrite compare_cont_Z.
  destruct (Z.compare_spec e (-9)) as [E|E|E].
  - destruct (Z.compare_spec (Zpos m) 16776960); cbn [CompOpp]; split; intros;
      try discriminate; try reflexivity; lia.
  - split; intros; [discriminate|lia].
  - split; intros; [lia|reflexivity].
Qed.

Lemma fadd_half_pos (m : positive) (e : Z) :
  fadd (S754_finite false m e) f_half
  = binary_round prec emax false (half_sum m e) (Z.min e (-24)).
Proof. reflexivity. Qed.

Lemma fsub_half_neg (m : positive) (e : Z) :
  fsub (S754_finite true m e) f_half
  = binary_round prec emax true (half_sum m e) (Z.min e (-24)).
Proof. reflexivity. Qed.

Lemma FloatS16ToS16_finite (s : bool) (m : positive) (e : Z) :
  bounded prec emax m e = true ->
  S754_finite s m e <> below_half s ->
  FloatS16ToS16 (S754_finite s m e)
  = Some (round_half_away_saturated (S754_finite s m e)).
Proof.
  intros B Hne.
  assert (Hne' : ~ (e = -25 /\ m = 16777215%positive)).
  { intros [-> ->]. apply Hne. reflexivity. }
  pose proof (round_half_away_mag_bounds m e B) as (R0 & R1 & R2 & R3 & R4).
  unfold FloatS16ToS16, round_half_away_saturated, saturate, INT16_MAX, INT16_MIN.
  set (r := round_half_away_mag m e) in *.
  destruct s.
  - change (fltb (float_of_int 0) (S754_finite true m e)) with false.
    cbv iota. cbn [cond_Zopp].
    destruct (fleb (S754_finite true m e) kMinRound) eqn:L.
    + apply fleb_kMinRound_finite in L. specialize (R4 L).
      clear - R4. f_equal. lia.
    + assert (L' : e < -9 \/ e = -9 /\ Zpos m < 16776960).
      { assert (D : (-9 < e \/ e = -9 /\ 16776960 <= Zpos m)
                    \/ (e < -9 \/ e = -9 /\ Zpos m < 16776960)) by lia.
        destruct D as [D|D]; [|exact D].
        apply fleb_kMinRound_finite in D. congruence. }
      specialize (R2 L').
      destruct (add_half_truncated true m e B L' Hne') as (M & E & A & T).
      rewrite fsub_half_neg, A. cbn [float_to_int16 cond_Zopp]. rewrite T.
      fold r. clear - R0 R2. unfold INT16_MIN, INT16_MAX.
      destruct (Z.leb_spec (-32768) (- r)); [|lia].
      destruct (Z.leb_spec (- r) 32767); [|lia].
      cbn [andb]. f_equal. lia.
  - change (fltb (float_of_int 0) (S754_finite false m e)) with true.
    cbv iota. cbn [cond_Zopp].
    destruct (fleb kMaxRound (S754_finite false m e)) eqn:L.
    + apply fleb_kMaxRound_finite in L. specialize (R3 L).
      clear - R3. f_equal. lia.
    + assert (L' : e < -9 \/ e = -9 /\ Zpos m < 16776448).
      { assert (D : (-9 < e \/ e = -9 /\ 16776448 <= Zpos m)
                    \/ (e < -9 \/ e = -9 /\ Zpos m < 16776448)) by lia.
        destruct D as [D|D]; [|exact D].
        apply fleb_kMaxRound_finite in D. congruence. }
      specialize (R1 L').
      assert (L2 : e < -9 \/ e = -9 /\ Zpos m < 16776960) by lia.
      destruct (add_half_truncated false m e B L2 Hne') as (M & E & A & T).
      rewrite fadd_half_pos, A. cbn [float_to_int16 cond_Zopp]. rewrite T.
      fold r. clear - R0 R1. unfold INT16_MIN, INT16_MAX.
      destruct (Z.leb_spec (-32768) r); [|lia].
      destruct (Z.leb_spec r 32767); [|lia].
      cbn [andb]. f_equal. lia.
Qed.

(** Every value at or above 32766.5 converts to 32767. *)
Lemma FloatS16ToS16_saturates_max (v : float) :
  fleb kMaxRound v = true -> FloatS16ToS16 v = Some INT16_MAX.
Proof.
  intros L. unfold FloatS16ToS16. rewrite L.
  assert (P : fltb (float_of_int 0) v = true).
  { rewrite kMaxRound_eq in L.
    destruct v as [s|[|]| |[|] m e]; try discriminate; reflexivity. }
  rewrite P. reflexivity.
Qed.

(** Every value at or below -32767.5 converts to -32768. *)
Lemma FloatS16ToS16_saturates_min (v : float) :
  fleb v kMinRound = true -> FloatS16ToS16 v = Some INT16_MIN.
Proof.
  intros L. unfold FloatS16ToS16. rewrite L.
  assert (P : fltb (float_of_int 0) v = false).
  { rewrite kMinRound_eq in L.
    destruct v as [s|[|]| |[|] m e]; try discriminate; reflexivity. }
  rewrite P. reflexivity.
Qed.


(** The four literals as binary32 numbers; 100.4f and 100.6f are within
    half a unit in the last place (2^-18) of 100.4 and 100.6. *)
Lemma literals_binary32 :
  f_40000 = S754_finite false 10240000 (-8)
  /\ f_minus_40000 = S754_finite true 10240000 (-8)
  /\ f_100_4 = S754_finite false 13159629 (-17)
  /\ f_100_6 = S754_finite false 13185843 (-17)
  /\ Z.abs (10 * 13159629 - 1004 * 2 ^ 17) * 2 <= 10
  /\ Z.abs (10 * 13185843 - 1006 * 2 ^ 17) * 2 <= 10.
Proof. repeat split; vm_compute; congruence. Qed.

(** C5 (counterexample).  The binary32 number just below one half,
    0.5 - 2^-25, converts to 1: the single-precision sum with 0.5f is a tie
    between 1 - 2^-24 and 1 and rounds to 1.0f.  Rounded half away from
    zero, the number is 0. *)
Lemma FloatS16ToS16_below_half_is_one :
  valid_binary prec emax (below_half false) = true
  /\ FloatS16ToS16 (below_half false) = Some 1
  /\ round_half_away_saturated (below_half false) = 0
  /\ ~ (forall v : float,
          valid_binary prec emax v = true -> v <> S754_nan ->
          FloatS16ToS16 v = Some (round_half_away_saturated v)).
Proof.
  split; [reflexivity|]. split; [vm_compute; reflexivity|].
  split; [vm_compute; reflexivity|].
  intros H. specialize (H (below_half false) eq_refl ltac:(discriminate)).
  vm_compute in H. discriminate.
Qed.

(** C5 (amended).  With the sum v + 0.5f (v - 0.5f for v <= 0) rounded to
    binary32, the conversion of every binary32 number other than NaN, other
    than 0.5 - 2^-25 and its opposite, is the number rounded to the nearest
    integer, a half away from zero, and saturated to -32768 .. 32767; the
    two excepted numbers convert to 1 and -1.  Every number at or above
    32766.5 converts to 32767 and every number at or below -32767.5 to
    -32768; 40000.0 gives 32767, -40000.0 gives -32768, 100.4 gives 100 and
    100.6 gives 101. *)
Theorem FloatS16ToS16_round_half_away (v : float) :
  valid_binary prec emax v = true -> v <> S754_nan ->
  (v <> below_half false -> v <> below_half true ->
   FloatS16ToS16 v = Some (round_half_away_saturated v))
  /\ (forall s, v = below_half s -> FloatS16ToS16 v = Some (cond_Zopp s 1))
  /\ (fleb kMaxRound v = true -> FloatS16ToS16 v = Some INT16_MAX)
  /\ (fleb v kMinRound = true -> FloatS16ToS16 v = Some INT16_MIN)
  /\ (v = f_40000 -> FloatS16ToS16 v = Some 32767)
  /\ (v = f_minus_40000 -> FloatS16ToS16 v = Some (-32768))
  /\ (v = f_100_4 -> FloatS16ToS16 v = Some 100)
  /\ (v = f_100_6 -> FloatS16ToS16 v = Some 101).
Proof.
  intros Hv Hnan.
  split.
  { intros H1 H2. destruct v as [s|s| |s m e].
    - destruct s; reflexivity.
    - destruct s; reflexivity.
    - congruence.
    - apply FloatS16ToS16_finite; [exact Hv|].
      destruct s; assumption. }
  split.
  { intros s ->. destruct s; vm_compute; reflexivity. }
  split; [apply FloatS16ToS16_saturates_max|].
  split; [apply FloatS16ToS16_saturates_min|].
  repeat split; intros ->; vm_compute; reflexivity.
Qed.

Lemma FloatS16ToS16_round_half_away_witness :
  FloatS16ToS16 (S754_finite false 13172736 (-17)) = Some 101
  /\ FloatS16ToS16 (S754_finite true 13172736 (-17)) = Some (-101).
Proof.
  split.
  - exact (proj1 (FloatS16ToS16_round_half_away
                    (S754_finite false 13172736 (-17))
                    eq_refl ltac:(discriminate))
             ltac:(discriminate) ltac:(discriminate)).
  - exact (proj1 (FloatS16ToS16_round_half_away
                    (S754_finite true 13172736 (-17))
                    eq_refl ltac:(discriminate))
             ltac:(discriminate) ltac:(discriminate)).
Defined.

(** ** Floating-point writes of whole frames *)

Lemma FloatS16ToS16_total (v : float) :
  sample_ok v -> exists z, FloatS16ToS16 v = Some z.
Proof.
  intros [Hv Hn]. destruct v as [s|s| |s m e].
  - destruct s; eexists; reflexivity.
  - destruct s; eexists; reflexivity.
  - congruence.
  - destruct (Z.eqb_spec e (-25)) as [->|He].
    + destruct (Pos.eq_dec m 16777215) as [->|Hm].
      * destruct s; eexists; vm_compute; reflexivity.
      * eexists. apply FloatS16ToS16_finite; [exact Hv|].
        unfold below_half. congruence.
    + eexists. apply FloatS16ToS16_finite; [exact Hv|].
      unfold below_half. congruence.
Qed.

Lemma FloatS16ToS16_array_total (src : list float) :
  Forall sample_ok src ->
  exists dest, FloatS16ToS16_array src = Some dest.
Proof.
  induction 1 as [|v src Hv _ IH].
  - exists []. reflexivity.
  - destruct (FloatS16ToS16_total v Hv) as [z Ez]. destruct IH as [dest Ed].
    exists (z :: dest). cbn [FloatS16ToS16_array]. rewrite Ez, Ed. reflexivity.
Qed.

Lemma mod_0_add (a b c : Z) : 0 < c -> a mod c = 0 -> b mod c = 0 -> (a + b) mod c = 0.
Proof.
  intros Hc Ha Hb. rewrite Z.add_mod, Ha, Hb by lia. apply Z.mod_0_l. lia.
Qed.

Lemma mod_0_sub (a b c : Z) : 0 < c -> a mod c = 0 -> b mod c = 0 -> (a - b) mod c = 0.
Proof.
  intros Hc Ha Hb. rewrite Zminus_mod, Ha, Hb. apply Z.mod_0_l. lia.
Qed.

(** Floating-point writes that return: when the channels divide the chunk
    of 2048 samples, or the write fits in one chunk, a write of whole frames
    of convertible samples onto a total of whole frames returns, the new
    total being one the validator accepts. *)
Lemma WriteSamples_float_whole_frames (fuel : nat) :
  forall (w : WavWriter.t) (samples : list float),
    writer_ok w -> Forall sample_ok samples ->
    (List.length samples <= fuel)%nat ->
    kChunksize mod WavWriter.num_channels w = 0
    \/ Z.of_nat (List.length samples) <= kChunksize ->
    Z.of_nat (List.length samples) mod WavWriter.num_channels w = 0 ->
    WavWriter.num_samples w + Z.of_nat (List.length samples) <= 2147483629 ->
    exists w',
      WavWriter.WriteSamples_float_loop fuel w samples = Some w'
      /\ WavWriter.num_samples w'
         = WavWriter.num_samples w + Z.of_nat (List.length samples)
      /\ writer_ok w'.
Proof.
  change kChunksize with 2048.
  induction fuel as [|fuel IH]; intros w samples Hw Hs Hf Hc Hm Hmax;
    (destruct samples as [|v samples];
     [exists w; cbn; split; [reflexivity|split; [lia|exact Hw]]|]);
    [simpl in Hf; lia|].
  cbn [WavWriter.WriteSamples_float_loop].
  change (Z.to_nat kChunksize) with 2048%nat.
  set (all := v :: samples) in *.
  pose proof (firstn_skipn 2048 all) as Split.
  assert (Hs1 : Forall sample_ok (firstn 2048 all)).
  { rewrite <- Split in Hs. apply Forall_app in Hs. apply Hs. }
  assert (Hs2 : Forall sample_ok (skipn 2048 all)).
  { rewrite <- Split in Hs. apply Forall_app in Hs. apply Hs. }
  destruct (FloatS16ToS16_array_total _ Hs1) as [isamples Ei].
  rewrite Ei. cbn [bind].
  pose proof (FloatS16ToS16_array_length _ _ Ei) as Li.
  pose proof (length_firstn 2048 all) as L1.
  pose proof (length_skipn 2048 all) as L2.
  assert (Hall : (0 < List.length all)%nat) by (unfold all; simpl; lia).
  destruct Hw as [Hu Hchk].
  pose proof (CheckWavParameters_inv _ _ _ _ _ Hchk)
    as (Hcpos & _ & _ & _ & _ & _ & _ & Hold).
  set (c := WavWriter.num_channels w) in *.
  set (L := Z.of_nat (List.length isamples)) in *.
  assert (HL : L = Z.min 2048 (Z.of_nat (List.length all))) by lia.
  assert (HLm : L mod c = 0).
  { destruct (Z.leb_spec (Z.of_nat (List.length all)) 2048).
    - rewrite HL, Z.min_r by lia. exact Hm.
    - rewrite HL, Z.min_l by lia. destruct Hc; [assumption|lia]. }
  assert (Hn : u32 (WavWriter.num_samples w + u32 L)
               = WavWriter.num_samples w + L).
  { destruct Hu. unfold u32. rewrite (Z.mod_small L) by lia.
    apply Z.mod_small. lia. }
  assert (W : WavWriter.WriteSamples w isamples
              = Some (WavWriter.mk (WavWriter.sample_rate w) c
                        (WavWriter.num_samples w + L)
                        (WavWriter.file_handle_ w ++ bytes_of_s16 isamples))).
  { rewrite <- Hn. apply WriteSamples_Some; fold L; fold c.
    - apply orb_true_iff. left. apply Z.leb_le. unfold UINT32_MAX. lia.
    - rewrite Hn.
      apply (CheckWavParameters_num_samples _ _ _ _ _ _ Hchk).
      + change (u32 ((UINT32_MAX - 36) / kBytesPerSample)) with 2147483629. lia.
      + apply mod_0_add; assumption. }
  rewrite W. cbn [bind].
  set (w1 := WavWriter.mk _ _ _ _) in *.
  assert (Hw1 : writer_ok w1).
  { split.
    - unfold is_u32, w1. cbn. destruct Hu. lia.
    - unfold w1. cbn.
      apply (CheckWavParameters_num_samples _ _ _ _ _ _ Hchk).
      + change (u32 ((UINT32_MAX - 36) / kBytesPerSample)) with 2147483629. lia.
      + apply mod_0_add; assumption. }
  destruct (IH w1 (skipn 2048 all) Hw1 Hs2) as (w' & E & N & Hw').
  - lia.
  - change (WavWriter.num_channels w1) with c.
    destruct Hc as [Hc|Hc]; [left; exact Hc|right; lia].
  - change (WavWriter.num_channels w1) with c.
    replace (Z.of_nat (List.length (skipn 2048 all)))
      with (Z.of_nat (List.length all) - L) by lia.
    apply mod_0_sub; assumption.
  - change (WavWriter.num_samples w1) with (WavWriter.num_samples w + L). lia.
  - exists w'. split; [exact E|]. split; [|exact Hw'].
    rewrite N. change (WavWriter.num_samples w1) with (WavWriter.num_samples w + L).
    lia.
Qed.

(** X18.  A floating-point write of whole frames of convertible samples
    returns and adds their number to the counter, when the channels divide the
    chunk of 2048 samples or the write fits in one chunk, and the new total is
    at most 2147483629. *)
Lemma WriteSamples_float_whole_frames_call (w : WavWriter.t) (samples : list float) :
  writer_ok w -> Forall sample_ok samples ->
  kChunksize mod WavWriter.num_channels w = 0
  \/ Z.of_nat (List.length samples) <= kChunksize ->
  Z.of_nat (List.length samples) mod WavWriter.num_channels w = 0 ->
  WavWriter.num_samples w + Z.of_nat (List.length samples) <= 2147483629 ->
  exists w',
    WavWriter.WriteSamples_float w samples = Some w'
    /\ WavWriter.num_samples w'
       = WavWriter.num_samples w + Z.of_nat (List.length samples)
    /\ writer_ok w'.
Proof.
  intros. apply WriteSamples_float_whole_frames; auto.
Qed.

(** * Further properties of the code *)

(** ** The validator in plain arithmetic *)

(** X1.  On [int] arguments no cast of the validator wraps: it accepts exactly
    the tuples with 1..65535 channels, a positive rate, a byte rate within 32
    bits, 1 or 2 bytes per PCM sample or 1 byte per A-law or mu-law sample, a
    sample count within the bound and divisible by the channels. *)
Theorem CheckWavParameters_iff (c sr : Z) (f : WavFormat) (bps n : Z) :
  is_int c -> is_int sr -> is_int bps ->
  CheckWavParameters c sr f bps n = true
  <-> 0 < c <= UINT16_MAX /\ 0 < sr
      /\ sr * c * bps <= UINT32_MAX
      /\ (f = kWavFormatPcm /\ (bps = 1 \/ bps = 2)
          \/ (f = kWavFormatALaw \/ f = kWavFormatMuLaw) /\ bps = 1)
      /\ n <= (UINT32_MAX - 36) / bps
      /\ n mod c = 0.
Proof.
  unfold is_int. intros Ic Is Ib.
  split.
  - intros H.
    pose proof (CheckWavParameters_format _ _ _ _ _ H) as Hf.
    pose proof (CheckWavParameters_inv _ _ _ _ _ H)
      as (Hc & Hsr & _ & Hc16 & Hp & Hb & Hn & Hm).
    rewrite (u64_small c) in Hc16 by lia. unfold UINT16_MAX in *.
    assert (Hbps : bps = 1 \/ bps = 2) by (destruct Hb as [?|[? _]]; auto).
    rewrite (u64_small sr) in Hp by lia.
    rewrite (u64_small (sr * c)) in Hp by nia.
    rewrite (u64_small (sr * c * bps)) in Hp by nia.
    assert (Hu : u32 ((UINT32_MAX - 36) / bps) = (UINT32_MAX - 36) / bps)
      by (destruct Hbps as [->| ->]; reflexivity).
    rewrite Hu in Hn.
    repeat split; try assumption; lia.
  - intros (Hc & Hsr & Hp & Hf & Hn & Hm).
    unfold UINT16_MAX in *.
    assert (Hbps : bps = 1 \/ bps = 2) by (destruct Hf as [[_ ?]|[_ ->]]; auto).
    assert (Hu : u32 ((UINT32_MAX - 36) / bps) = (UINT32_MAX - 36) / bps)
      by (destruct Hbps as [->| ->]; reflexivity).
    unfold CheckWavParameters.
    destruct (Z.leb_spec c 0); [lia|].
    destruct (Z.leb_spec sr 0); [lia|].
    destruct (Z.leb_spec bps 0); [lia|]. cbn [orb].
    rewrite (u64_small sr) by lia.
    rewrite (u64_small c) by lia.
    rewrite (u64_small bps) by lia.
    rewrite (u64_small (bps * 8)) by lia.
    rewrite (u64_small (sr * c)) by nia.
    rewrite (u64_small (sr * c * bps)) by (unfold UINT32_MAX in *; nia).
    rewrite !Z.gtb_ltb.
    destruct (Z.ltb_spec UINT32_MAX sr); [unfold UINT32_MAX in *; lia|].
    destruct (Z.ltb_spec UINT16_MAX c); [unfold UINT16_MAX in *; lia|].
    destruct (Z.ltb_spec UINT16_MAX (bps * 8)); [unfold UINT16_MAX in *; lia|].
    destruct (Z.ltb_spec UINT32_MAX (sr * c * bps)); [lia|].
    change (kWavHeaderSize - sizeof_ChunkHeader) with 36.
    rewrite Hu, Hm.
    destruct (Z.ltb_spec ((UINT32_MAX - 36) / bps) n); [lia|].
    cbn [Z.eqb negb].
    destruct Hf as [[-> Hb]|[Hf ->]].
    + destruct Hb as [->| ->]; reflexivity.
    + destruct Hf as [->| ->]; reflexivity.
Qed.

Lemma CheckWavParameters_iff_witness :
  CheckWavParameters 2 44100 kWavFormatPcm 2 200 = true
  <-> 0 < 2 <= UINT16_MAX /\ 0 < 44100
      /\ 44100 * 2 * 2 <= UINT32_MAX
      /\ (kWavFormatPcm = kWavFormatPcm /\ (2 = 1 \/ 2 = 2)
          \/ (kWavFormatPcm = kWavFormatALaw \/ kWavFormatPcm = kWavFormatMuLaw)
             /\ 2 = 1)
      /\ 200 <= (UINT32_MAX - 36) / 2
      /\ 200 mod 2 = 0.
Proof.
  apply (CheckWavParameters_iff 2 44100 kWavFormatPcm 2 200);
    unfold is_int; lia.
Defined.

(** ** The decoder on arbitrary sources *)

(** What a successful [ReadWavHeader] has read: 36 bytes, the two zero bytes
    of the extension when the fmt chunk announces 18 bytes, and the 8 bytes
    of the data chunk header. *)
Lemma ReadWavHeader_inv (contents : list byte) (p : WavParams) (rest : list byte) :
  ReadWavHeader contents = Some (p, rest) ->
  (field contents 16 4 = 16
   /\ rest = skipn 44 contents /\ 44 <= len contents
   /\ parse_header (WavHeader_of_bytes (firstn 36 contents)
                      (firstn 8 (skipn 36 contents))) = Some p)
  \/ (field contents 16 4 = 18
      /\ field contents 36 2 = 0
      /\ rest = skipn 46 contents /\ 46 <= len contents
      /\ parse_header (WavHeader_of_bytes (firstn 36 contents)
                         (firstn 8 (skipn 38 contents))) = Some p).
Proof.
  unfold ReadWavHeader, read_header_bytes, Read.
  change (Z.to_nat (kWavHeaderSize - sizeof_header_data)) with 36%nat.
  change (Z.to_nat sizeof_header_data) with 8%nat.
  change (Z.to_nat 2) with 2%nat.
  change (kWavHeaderSize - sizeof_header_data) with 36.
  change sizeof_header_data with 8.
  change kFmtSubchunkSize with 16. change (16 + 2) with 18.
  unfold ReadLE32. rewrite field_firstn by lia.
  destruct (Z.eqb_spec (len (firstn 36 contents)) 36) as [L36|]; [|discriminate].
  cbn [negb].
  assert (H36 : (36 <= List.length contents)%nat).
  { unfold len in L36. rewrite length_firstn in L36. lia. }
  destruct (Z.eqb_spec (field contents 16 4) 16) as [F16|F16]; cbn [negb].
  - cbn [bind].
    destruct (Z.eqb_spec (len (firstn 8 (skipn 36 contents))) 8) as [L8|];
      [|discriminate].
    cbn [negb]. cbn [bind]. cbv beta iota.
    destruct (parse_header _) as [q|] eqn:P; [|discriminate].
    cbn [bind]. intros E.
    assert (Eq1 : q = p) by congruence.
    assert (Eq2 : rest = skipn 8 (skipn 36 contents)) by congruence.
    clear E. subst q rest. left.
    unfold len in *. rewrite length_firstn, length_skipn in L8.
    rewrite skipn_skipn. repeat split; try assumption; lia.
  - destruct (Z.eqb_spec 18 (field contents 16 4)) as [F18|]; [|discriminate].
    cbn [negb].
    destruct (Z.eqb_spec (len (firstn 2 (skipn 36 contents))) 2) as [L2|];
      [|discriminate].
    cbn [negb].
    destruct (Z.eqb_spec (to_int16 (le_combine (firstn 2 (skipn 36 contents)))) 0)
      as [E0|]; [|discriminate].
    cbn [negb bind].
    destruct (Z.eqb_spec (len (firstn 8 (skipn 2 (skipn 36 contents)))) 8)
      as [L8|]; [|discriminate].
    cbn [negb]. cbn [bind]. cbv beta iota.
    destruct (parse_header _) as [q|] eqn:P; [|discriminate].
    cbn [bind]. intros E.
    assert (Eq1 : q = p) by congruence.
    assert (Eq2 : rest = skipn 8 (skipn 2 (skipn 36 contents))) by congruence.
    clear E. subst q rest. right.
    unfold len in *. rewrite length_firstn, !length_skipn in L8.
    rewrite !skipn_skipn in *. change (2 + 36)%nat with 38%nat in *.
    change (8 + 38)%nat with 46%nat.
    split; [lia|]. split.
    + unfold field.
      pose proof (le_combine_bound (firstn 2 (skipn 36 contents))) as B.
      rewrite length_firstn, length_skipn in B.
      replace (Nat.min 2 (List.length contents - 36)) with 2%nat in B by lia.
      unfold to_int16 in E0. change (2 ^ (8 * Z.of_nat 2)) with 65536 in B.
      set (x := le_combine _) in *. clearbody x.
      destruct (Z.ltb_spec x 32768).
      * rewrite Z.mod_small in E0 by lia. lia.
      * replace (x + 2 ^ 15) with (x - 2 ^ 15 + 1 * 2 ^ 16) in E0 by lia.
        rewrite Z.mod_add, Z.mod_small in E0 by lia. lia.
    + repeat split; try assumption; lia.
Qed.

(** ** What the decoder accepts *)

(** X5.  A source shorter than the 44 bytes of a header is rejected. *)
Theorem ReadWavHeader_short_source (contents : list byte) :
  len contents < kWavHeaderSize -> ReadWavHeader contents = None.
Proof.
  intros H. destruct (ReadWavHeader contents) as [[p rest]|] eqn:E;
    [|reflexivity].
  change kWavHeaderSize with 44 in H.
  destruct (ReadWavHeader_inv _ _ _ E) as [(_ & _ & L & _)|(_ & _ & _ & L & _)];
    lia.
Qed.

Lemma ReadWavHeader_short_source_witness :
  ReadWavHeader (firstn 43 example_file) = None.
Proof.
  apply ReadWavHeader_short_source. vm_compute. reflexivity.
Defined.

Lemma fourcc_eqb_true (x : list byte) (s : string) :
  fourcc_eqb x s = true -> x = list_byte_of_string s.
Proof.
  unfold fourcc_eqb. destruct (list_eq_dec _ _ _); [auto|discriminate].
Qed.

Lemma ReadFourCC_field (buf : list byte) (offset : nat) :
  (offset + 4 <= List.length buf)%nat ->
  ReadFourCC (field buf offset 4) = firstn 4 (skipn offset buf).
Proof.
  intros H. unfold ReadFourCC, field.
  apply split_le_combine'. rewrite length_firstn, length_skipn. lia.
Qed.

Lemma parse_header_tags (h : WavHeader.t) (p : WavParams) :
  parse_header h = Some p ->
  ReadFourCC (ChunkHeader.ID (WavHeader.riff_header h))
  = list_byte_of_string "RIFF"
  /\ ReadFourCC (WavHeader.riff_Format h) = list_byte_of_string "WAVE"
  /\ ReadFourCC (ChunkHeader.ID (FmtSubchunk.header (WavHeader.fmt h)))
     = list_byte_of_string "fmt "
  /\ ReadFourCC (ChunkHeader.ID (WavHeader.data_header h))
     = list_byte_of_string "data".
Proof.
  unfold parse_header.
  destruct (_ <=? 0); [discriminate|].
  destruct (fourcc_eqb _ "RIFF") eqn:T1; [|discriminate].
  destruct (fourcc_eqb _ "WAVE") eqn:T2; [|discriminate].
  destruct (fourcc_eqb _ "fmt ") eqn:T3; [|discriminate].
  destruct (fourcc_eqb _ "data") eqn:T4; [|discriminate].
  intros _. auto using fourcc_eqb_true.
Qed.

(** X6.  A source is accepted only if it starts with the tags "RIFF", "WAVE"
    at offset 8 and "fmt " at offset 12, announces a fmt chunk of 16 bytes, or
    of 18 bytes with two zero bytes after the fmt fields, and has the tag
    "data" next; the reading stops after the data chunk header, 44 or 46 bytes
    into the source. *)
Theorem ReadWavHeader_layout
    (contents : list byte) (p : WavParams) (rest : list byte) :
  ReadWavHeader contents = Some (p, rest) ->
  firstn 4 contents = list_byte_of_string "RIFF"
  /\ firstn 4 (skipn 8 contents) = list_byte_of_string "WAVE"
  /\ firstn 4 (skipn 12 contents) = list_byte_of_string "fmt "
  /\ (field contents 16 4 = 16
      /\ firstn 4 (skipn 36 contents) = list_byte_of_string "data"
      /\ rest = skipn 44 contents
      \/ field contents 16 4 = 18
         /\ firstn 2 (skipn 36 contents) = [Byte.x00; Byte.x00]
         /\ firstn 4 (skipn 38 contents) = list_byte_of_string "data"
         /\ rest = skipn 46 contents).
Proof.
  intros E.
  assert (T : forall b8, (4 <= List.length b8)%nat ->
              (36 <= List.length contents)%nat ->
              parse_header (WavHeader_of_bytes (firstn 36 contents) b8) = Some p ->
              firstn 4 contents = list_byte_of_string "RIFF"
              /\ firstn 4 (skipn 8 contents) = list_byte_of_string "WAVE"
              /\ firstn 4 (skipn 12 contents) = list_byte_of_string "fmt "
              /\ firstn 4 b8 = list_byte_of_string "data").
  { intros b8 L8 L36 P.
    destruct (parse_header_tags _ _ P) as (T1 & T2 & T3 & T4).
    cbn [WavHeader_of_bytes ChunkHeader_of_bytes WavHeader.riff_header
         WavHeader.riff_Format WavHeader.fmt WavHeader.data_header
         FmtSubchunk.header ChunkHeader.ID] in T1, T2, T3, T4.
    rewrite field_firstn in T1, T2, T3 by lia.
    rewrite ReadFourCC_field in T1, T2, T3, T4 by lia.
    auto. }
  destruct (ReadWavHeader_inv _ _ _ E)
    as [(F & R & L & P)|(F & X & R & L & P)]; unfold len in L.
  - destruct (T (firstn 8 (skipn 36 contents))
                ltac:(rewrite length_firstn, length_skipn; lia) ltac:(lia) P)
      as (T1 & T2 & T3 & T4).
    rewrite firstn_firstn in T4. change (Nat.min 4 8) with 4%nat in T4.
    repeat split; try assumption. left. auto.
  - destruct (T (firstn 8 (skipn 38 contents))
                ltac:(rewrite length_firstn, length_skipn; lia) ltac:(lia) P)
      as (T1 & T2 & T3 & T4).
    rewrite firstn_firstn in T4. change (Nat.min 4 8) with 4%nat in T4.
    repeat split; try assumption. right.
    repeat split; try assumption.
    unfold field in X.
    apply (le_combine_inj _ [Byte.x00; Byte.x00]).
    + rewrite length_firstn, length_skipn. cbn [List.length]. lia.
    + rewrite X. reflexivity.
Qed.

Lemma ReadWavHeader_layout_witness :
  firstn 4 example_file = list_byte_of_string "RIFF"
  /\ firstn 4 (skipn 36 example_file) = list_byte_of_string "data".
Proof.
  destruct (ReadWavHeader_layout example_file
              (mkParams 1 8000 kWavFormatPcm 2 4) (skipn 44 example_file)
              ltac:(vm_compute; reflexivity))
    as (T1 & _ & _ & [(_ & T4 & _)|(F & _)]).
  - split; assumption.
  - vm_compute in F. discriminate.
Defined.

Lemma parse_header_inv (h : WavHeader.t) (p : WavParams) :
  parse_header h = Some p ->
  let f := WavHeader.fmt h in
  num_channels p = FmtSubchunk.NumChannels f
  /\ sample_rate p = to_int (FmtSubchunk.SampleRate f)
  /\ format p = FmtSubchunk.AudioFormat f
  /\ bytes_per_sample p = FmtSubchunk.BitsPerSample f / 8
  /\ num_samples p
     = ChunkHeader.Size (WavHeader.data_header h) / bytes_per_sample p
  /\ RiffChunkSize (ChunkHeader.Size (WavHeader.data_header h))
     <= ChunkHeader.Size (WavHeader.riff_header h).
Proof.
  unfold parse_header, ReadLE16, ReadLE32.
  destruct (_ <=? 0); [discriminate|].
  do 4 (destruct (negb (fourcc_eqb _ _)); [discriminate|]).
  destruct (Z.ltb_spec (ChunkHeader.Size (WavHeader.riff_header h))
              (RiffChunkSize (ChunkHeader.Size (WavHeader.data_header h))));
    [discriminate|].
  do 2 (destruct (negb (_ =? _)); [discriminate|]).
  destruct (CheckWavParameters _ _ _ _ _); [|discriminate].
  intros [= <-]. cbn. auto 10.
Qed.

(** X7.  The tuple a successful [ReadWavHeader] returns: the validator accepts
    it; channels, rate, format and bytes per sample are the stored fields
    (BitsPerSample divided by 8); the sample count is the data chunk size
    divided by the bytes per sample, rounded down; the stored byte rate is the
    product channels x rate x bytes per sample and the stored block alignment
    is channels x bytes per sample modulo 2^16; the stored RIFF chunk size is
    at least the data chunk size plus 36. *)
Theorem ReadWavHeader_sound
    (contents : list byte) (p : WavParams) (rest : list byte) :
  ReadWavHeader contents = Some (p, rest) ->
  let data_size :=
    field contents (Z.to_nat (field contents 16 4 + 24)) 4 in
  CheckWavParameters (num_channels p) (sample_rate p) (format p)
    (bytes_per_sample p) (num_samples p) = true
  /\ num_channels p = field contents 22 2
  /\ sample_rate p = field contents 24 4
  /\ format p = field contents 20 2
  /\ bytes_per_sample p = field contents 34 2 / 8
  /\ num_samples p = data_size / bytes_per_sample p
  /\ field contents 28 4
     = num_channels p * sample_rate p * bytes_per_sample p
  /\ field contents 32 2
     = (num_channels p * bytes_per_sample p) mod 2 ^ 16
  /\ data_size + 36 <= field contents 4 4
  /\ 0 < num_channels p <= UINT16_MAX
  /\ 0 < sample_rate p < 2 ^ 31
  /\ (bytes_per_sample p = 1 \/ bytes_per_sample p = 2)
  /\ 0 <= num_samples p <= (UINT32_MAX - 36) / bytes_per_sample p.
Proof.
  intros E data_size.
  pose proof (ReadWavHeader_num_samples_range _ _ _ E) as [Hn0 _].
  assert (G : exists b8,
             (36 <= List.length contents)%nat
             /\ List.length b8 = 8%nat
             /\ field b8 4 4 = data_size
             /\ parse_header (WavHeader_of_bytes (firstn 36 contents) b8)
                = Some p).
  { destruct (ReadWavHeader_inv _ _ _ E)
      as [(F & R & L & P)|(F & X & R & L & P)]; unfold len in L;
      eexists; (split; [lia|]); (split; [|split; [|exact P]]);
      try (rewrite length_firstn, length_skipn; lia);
      unfold data_size; rewrite F; rewrite field_firstn by lia;
      unfold field; rewrite skipn_skipn; reflexivity. }
  destruct G as (b8 & L36 & L8 & D & P).
  pose proof (parse_header_consistent _ _ P) as (BA & BR & C).
  pose proof (parse_header_inv _ _ P) as (Ec & Es & Ef & Eb & En & Er).
  cbn [WavHeader_of_bytes ChunkHeader_of_bytes WavHeader.riff_header
       WavHeader.fmt WavHeader.data_header FmtSubchunk.NumChannels
       FmtSubchunk.SampleRate FmtSubchunk.AudioFormat FmtSubchunk.ByteRate
       FmtSubchunk.BlockAlign FmtSubchunk.BitsPerSample ChunkHeader.Size] in *.
  rewrite !field_firstn in * by lia.
  change (0 + 4)%nat with 4%nat in *. rewrite D in *.
  pose proof (CheckWavParameters_inv _ _ _ _ _ C)
    as (Hc & Hsr & _ & Hc16 & Hp & Hb & Hn & _).
  assert (Hbps : bytes_per_sample p = 1 \/ bytes_per_sample p = 2)
    by (destruct Hb as [?|[? _]]; auto).
  assert (Bc : 0 <= field contents 22 2 < 2 ^ 16).
  { unfold field. pose proof (le_combine_bound (firstn 2 (skipn 22 contents))) as B.
    rewrite length_firstn, length_skipn in B.
    replace (Nat.min 2 (List.length contents - 22)) with 2%nat in B by lia.
    exact B. }
  assert (Bs : 0 <= field contents 24 4 < 2 ^ 32).
  { unfold field. pose proof (le_combine_bound (firstn 4 (skipn 24 contents))) as B.
    rewrite length_firstn, length_skipn in B.
    replace (Nat.min 4 (List.length contents - 24)) with 4%nat in B by lia.
    exact B. }
  assert (Bd : 0 <= data_size).
  { rewrite <- D. apply field_nonneg. }
  assert (Es' : sample_rate p = field contents 24 4 /\ sample_rate p < 2 ^ 31).
  { rewrite Es in Hsr |- *. unfold to_int in *.
    destruct (Z.ltb_spec (field contents 24 4) (2 ^ 31)).
    - rewrite Z.mod_small in * by lia. lia.
    - replace (field contents 24 4 + 2 ^ 31)
        with (field contents 24 4 - 2 ^ 31 + 1 * 2 ^ 32) in * by lia.
      rewrite Z.mod_add, Z.mod_small in * by lia. lia. }
  destruct Es' as [Es1 Es2].
  assert (Hu : u32 ((UINT32_MAX - 36) / bytes_per_sample p)
               = (UINT32_MAX - 36) / bytes_per_sample p)
    by (destruct Hbps as [->| ->]; reflexivity).
  rewrite Hu in Hn.
  assert (Hprod : num_channels p * sample_rate p * bytes_per_sample p
                  <= UINT32_MAX).
  { rewrite (u64_small (sample_rate p)) in Hp by lia.
    rewrite (u64_small (sample_rate p * num_channels p)) in Hp by nia.
    rewrite (u64_small (sample_rate p * num_channels p * bytes_per_sample p))
      in Hp by nia.
    lia. }
  assert (Ebr : field contents 28 4
                = num_channels p * sample_rate p * bytes_per_sample p).
  { rewrite BR. unfold ByteRate.
    rewrite (u32_small (num_channels p)) by (unfold UINT32_MAX; lia).
    rewrite (u32_small (num_channels p * sample_rate p))
      by (unfold UINT32_MAX in *; nia).
    apply u32_small. unfold UINT32_MAX in *. nia. }
  assert (Hd : data_size <= UINT32_MAX - 36).
  { rewrite En in Hn.
    assert (bytes_per_sample p * ((UINT32_MAX - 36) / bytes_per_sample p)
            <= UINT32_MAX - 36) by (apply Z.mul_div_le; lia).
    pose proof (Z.mul_succ_div_gt data_size (bytes_per_sample p) ltac:(lia)).
    destruct Hbps as [Hb1|Hb2].
    - rewrite Hb1 in *. rewrite !Z.div_1_r in *. lia.
    - rewrite Hb2 in *. change ((UINT32_MAX - 36) / 2) with 2147483629 in *.
      unfold UINT32_MAX. lia. }
  assert (Err : data_size + 36 <= field contents 4 4).
  { unfold RiffChunkSize in Er.
    change (data_size + kWavHeaderSize - sizeof_ChunkHeader)
      with (data_size + 44 - 8) in Er.
    rewrite u32_small in Er by (unfold UINT32_MAX in *; lia). lia. }
  unfold UINT16_MAX.
  repeat split; try assumption; try lia.
Qed.

Lemma ReadWavHeader_sound_witness :
  field example_file 28 4 = 1 * 8000 * 2 /\ 8 + 36 <= field example_file 4 4.
Proof.
  pose proof (ReadWavHeader_sound example_file
                (mkParams 1 8000 kWavFormatPcm 2 4) (skipn 44 example_file)
                ltac:(vm_compute; reflexivity))
    as (_ & _ & _ & _ & _ & _ & B & _ & R & _).
  split; [exact B|exact R].
Defined.

(** The checks of the decoder on a struct with the fields of an accepted
    tuple and any RIFF, fmt and data chunk sizes. *)
Lemma parse_header_make_header c sr f bps n riff fmt_size data :
  is_int c -> is_int sr -> 0 <= n ->
  CheckWavParameters c sr f bps n = true ->
  is_u32 riff -> bps * n <= data < bps * n + bps ->
  parse_header (wrap_WavHeader (make_header c sr f bps riff fmt_size data))
  = if riff <? data + 36 then None else Some (mkParams c sr f bps n).
Proof.
  intros Ic Is Hn Hchk Hriff Hdata.
  pose proof (CheckWavParameters_format _ _ _ _ _ Hchk) as Hf.
  pose proof (CheckWavParameters_inv _ _ _ _ _ Hchk)
    as (Hc & Hsr & _ & Hc16 & _ & Hb & Hmax & _).
  unfold is_int, is_u32 in *.
  rewrite (u64_small c) in Hc16 by lia. unfold UINT16_MAX in Hc16.
  assert (Hbps : bps = 1 \/ bps = 2) by (destruct Hb as [?|[? _]]; auto).
  assert (Ef : u16 (u16 f) = f).
  { destruct Hf as [->|[->| ->]]; reflexivity. }
  assert (Ec : u16 (u16 c) = c).
  { rewrite u16_idem. unfold u16; apply Z.mod_small; lia. }
  assert (Es : to_int (u32 (u32 sr)) = sr).
  { rewrite u32_idem. unfold to_int, u32. rewrite (Z.mod_small sr) by lia.
    rewrite Z.mod_small by lia. lia. }
  assert (Eb : u16 (u16 (8 * bps)) / 8 = bps).
  { destruct Hbps as [->| ->]; reflexivity. }
  assert (Hpay : 0 <= bps * n /\ bps * n + bps <= UINT32_MAX - 36 + 1).
  { assert (u32 ((UINT32_MAX - 36) / bps) <= (UINT32_MAX - 36) / bps).
    { destruct Hbps as [->| ->]; vm_compute; discriminate. }
    destruct Hbps as [->| ->].
    - rewrite Z.div_1_r in *. lia.
    - change ((UINT32_MAX - 36) / 2) with 2147483629 in *.
      unfold UINT32_MAX. lia. }
  assert (Ep : u32 data = data).
  { apply u32_small. unfold UINT32_MAX in *. lia. }
  assert (En : data / bps = n).
  { symmetry. apply (Z.div_unique data bps n (data - bps * n)); lia. }
  assert (Er : RiffChunkSize data = data + 36).
  { unfold RiffChunkSize.
    change (data + kWavHeaderSize - sizeof_ChunkHeader) with (data + 44 - 8).
    rewrite u32_small by (unfold UINT32_MAX in *; lia). lia. }
  unfold parse_header, wrap_WavHeader, wrap_ChunkHeader, make_header,
    ReadLE16, ReadLE32.
  cbn [WavHeader.fmt WavHeader.riff_header WavHeader.riff_Format
       WavHeader.data_header FmtSubchunk.header FmtSubchunk.AudioFormat
       FmtSubchunk.NumChannels FmtSubchunk.SampleRate FmtSubchunk.ByteRate
       FmtSubchunk.BlockAlign FmtSubchunk.BitsPerSample
       ChunkHeader.ID ChunkHeader.Size].
  rewrite Ef, Ec, Es, Eb, Ep, En, Er.
  rewrite (u32_small riff) by (unfold UINT32_MAX; lia).
  destruct (Z.leb_spec bps 0); [lia|].
  change (fourcc_eqb (ReadFourCC (u32 (WriteFourCC "R" "I" "F" "F"))) "RIFF")
    with true.
  change (fourcc_eqb (ReadFourCC (u32 (WriteFourCC "W" "A" "V" "E"))) "WAVE")
    with true.
  change (fourcc_eqb (ReadFourCC (u32 (WriteFourCC "f" "m" "t" " "))) "fmt ")
    with true.
  change (fourcc_eqb (ReadFourCC (u32 (WriteFourCC "d" "a" "t" "a"))) "data")
    with true.
  cbn [negb].
  destruct (riff <? data + 36); [reflexivity|].
  unfold ByteRate, BlockAlign. rewrite !u32_idem, !u16_idem, !Z.eqb_refl.
  cbn [negb]. rewrite Hchk. reflexivity.
Qed.

Lemma CheckWavParameters_payload c sr f bps n :
  0 <= n -> CheckWavParameters c sr f bps n = true ->
  (bps = 1 \/ bps = 2) /\ 0 <= bps * n <= UINT32_MAX - 36 - (bps - 1).
Proof.
  intros Hn Hchk.
  pose proof (CheckWavParameters_inv _ _ _ _ _ Hchk)
    as (_ & _ & _ & _ & _ & Hb & Hmax & _).
  assert (Hbps : bps = 1 \/ bps = 2) by (destruct Hb as [?|[? _]]; auto).
  split; [exact Hbps|].
  destruct Hbps as [->| ->].
  - change (u32 ((UINT32_MAX - 36) / 1)) with 4294967259 in Hmax.
    unfold UINT32_MAX. lia.
  - change (u32 ((UINT32_MAX - 36) / 2)) with 2147483629 in Hmax.
    unfold UINT32_MAX. lia.
Qed.

(** The struct the encoder fills in for an accepted tuple: the data chunk
    size is the product of bytes per sample and sample count, the RIFF chunk
    size is 36 more, the fmt chunk size is 16. *)
Lemma header_fields_make_header c sr f bps n :
  0 <= n -> CheckWavParameters c sr f bps n = true ->
  header_fields c sr f bps n
  = make_header c sr f bps (bps * n + 36) kFmtSubchunkSize (bps * n).
Proof.
  intros Hn Hchk.
  destruct (CheckWavParameters_payload _ _ _ _ _ Hn Hchk) as [Hb Hp].
  unfold header_fields, make_header.
  assert (Ep : u32 (bps * n) = bps * n).
  { apply u32_small. destruct Hb as [->| ->]; lia. }
  assert (Er : RiffChunkSize (bps * n) = bps * n + 36).
  { unfold RiffChunkSize.
    change (bps * n + kWavHeaderSize - sizeof_ChunkHeader)
      with (bps * n + 44 - 8).
    rewrite u32_small by (destruct Hb as [->| ->]; lia). lia. }
  rewrite Ep, Er. reflexivity.
Qed.

(** X3.  The decoder compares the RIFF chunk size with the data chunk size
    plus 36 and nothing else: on the 44 bytes of an accepted tuple with any
    32-bit RIFF chunk size [riff] and any data chunk size [data] whose
    quotient by the bytes per sample is the sample count, it rejects the
    header when [riff < data + 36] and returns the tuple otherwise; a RIFF
    size above [data + 36] and a data size that ends inside a sample are both
    accepted. *)
Theorem ReadWavHeader_chunk_sizes
    c sr f bps n riff data (rest : list byte) :
  is_int c -> is_int sr -> 0 <= n ->
  CheckWavParameters c sr f bps n = true ->
  is_u32 riff -> bps * n <= data < bps * n + bps ->
  WriteWavHeader c sr f bps n
  = Some (bytes_of_WavHeader
            (make_header c sr f bps (bps * n + 36) kFmtSubchunkSize (bps * n)))
  /\ ReadWavHeader
       (bytes_of_WavHeader (make_header c sr f bps riff kFmtSubchunkSize data)
        ++ rest)
     = if riff <? data + 36 then None else Some (mkParams c sr f bps n, rest).
Proof.
  intros Ic Is Hn Hchk Hriff Hdata. split.
  { unfold WriteWavHeader. rewrite Hchk. cbn [assert bind].
    rewrite header_fields_make_header by assumption. reflexivity. }
  unfold ReadWavHeader.
  rewrite read_header_bytes_image by reflexivity.
  cbn [bind]. cbv beta iota.
  rewrite (parse_header_make_header c sr f bps n) by assumption.
  destruct (riff <? data + 36); reflexivity.
Qed.

Lemma ReadWavHeader_chunk_sizes_witness :
  ReadWavHeader
    (bytes_of_WavHeader
       (make_header 2 44100 kWavFormatPcm 2 1000 kFmtSubchunkSize 401)
     ++ [Byte.x07])
  = Some (mkParams 2 44100 kWavFormatPcm 2 200, [Byte.x07]).
Proof.
  apply (proj2 (ReadWavHeader_chunk_sizes 2 44100 kWavFormatPcm 2 200 1000 401
                  [Byte.x07]
                  ltac:(unfold is_int; lia) ltac:(unfold is_int; lia)
                  ltac:(lia) eq_refl
                  ltac:(unfold is_u32; lia) ltac:(lia))).
Defined.

Lemma read_header_bytes_extension (h : WavHeader.t) (ext rest : list byte) :
  u32 (ChunkHeader.Size (FmtSubchunk.header (WavHeader.fmt h)))
  = kFmtSubchunkSize + 2 ->
  List.length ext = 2%nat ->
  read_header_bytes (bytes_with_extension h ext ++ rest)
  = if to_int16 (le_combine ext) =? 0 then Some (wrap_WavHeader h, rest)
    else None.
Proof.
  intros Hsz Hext. unfold read_header_bytes, Read, bytes_with_extension.
  change (Z.to_nat (kWavHeaderSize - sizeof_header_data)) with 36%nat.
  change (Z.to_nat sizeof_header_data) with 8%nat.
  change (Z.to_nat 2) with 2%nat.
  rewrite <- !app_assoc.
  rewrite firstn_app_exact by reflexivity.
  rewrite skipn_app_exact by reflexivity.
  assert (F : field (bytes_of_riff_fmt h) 16 4
              = u32 (ChunkHeader.Size (FmtSubchunk.header (WavHeader.fmt h)))).
  { rewrite <- le_combine_split_4. reflexivity. }
  unfold ReadLE32. rewrite F, Hsz.
  change (len (bytes_of_riff_fmt h)) with 36.
  change (negb (36 =? kWavHeaderSize - sizeof_header_data)) with false.
  change (negb (kFmtSubchunkSize + 2 =? kFmtSubchunkSize)) with true.
  rewrite Z.eqb_refl. cbn [negb]. cbv iota.
  rewrite firstn_app_exact by assumption.
  rewrite skipn_app_exact by assumption.
  unfold len at 1. rewrite Hext. change (negb (Z.of_nat 2 =? 2)) with false.
  cbv iota.
  destruct (to_int16 (le_combine ext) =? 0); cbn [negb bind]; [|reflexivity].
  rewrite firstn_app_exact by reflexivity.
  rewrite skipn_app_exact by reflexivity.
  change (len (bytes_of_ChunkHeader (WavHeader.data_header h))) with 8.
  change (negb (8 =? sizeof_header_data)) with false. cbv iota.
  rewrite WavHeader_of_bytes_image. reflexivity.
Qed.

Lemma ext_size_zero (ext : list byte) :
  List.length ext = 2%nat ->
  (to_int16 (le_combine ext) =? 0) = true <-> ext = [Byte.x00; Byte.x00].
Proof.
  intros L. split.
  - intros E. apply Z.eqb_eq in E.
    pose proof (le_combine_bound ext) as B. rewrite L in B.
    change (2 ^ (8 * Z.of_nat 2)) with (2 ^ 16) in B.
    assert (E0 : le_combine ext = 0).
    { unfold to_int16 in E.
      destruct (Z.ltb_spec (le_combine ext) (2 ^ 15)).
      - rewrite Z.mod_small in E by lia. lia.
      - replace (le_combine ext + 2 ^ 15)
          with (le_combine ext - 2 ^ 15 + 1 * 2 ^ 16) in E by lia.
        rewrite Z.mod_add, Z.mod_small in E by lia. lia. }
    apply le_combine_inj; [exact L|]. rewrite E0. reflexivity.
  - intros ->. reflexivity.
Qed.

(** X4.  The optional extension field: on the header of an accepted tuple
    whose fmt chunk size is 18 and which holds two bytes [ext] between the fmt
    chunk and the data chunk header, the decoder returns the tuple and stops
    after the 46 bytes when both bytes of [ext] are zero, and rejects the
    header otherwise. *)
Theorem ReadWavHeader_extension_field
    c sr f bps n (ext rest : list byte) :
  is_int c -> is_int sr -> 0 <= n ->
  CheckWavParameters c sr f bps n = true ->
  List.length ext = 2%nat ->
  let h := make_header c sr f bps (bps * n + 36) (kFmtSubchunkSize + 2)
             (bps * n) in
  (ext = [Byte.x00; Byte.x00] ->
   ReadWavHeader (bytes_with_extension h ext ++ rest)
   = Some (mkParams c sr f bps n, rest))
  /\ (ext <> [Byte.x00; Byte.x00] ->
      ReadWavHeader (bytes_with_extension h ext ++ rest) = None).
Proof.
  intros Ic Is Hn Hchk Hext h.
  assert (Hbps : 0 < bps).
  { apply CheckWavParameters_inv in Hchk as (_ & _ & _ & _ & _ & Hb & _).
    destruct Hb as [?|[? _]]; lia. }
  assert (Hr : is_u32 (bps * n + 36)).
  { pose proof (CheckWavParameters_inv _ _ _ _ _ Hchk)
      as (_ & _ & _ & _ & _ & Hb & Hmax & _).
    assert (Hb' : bps = 1 \/ bps = 2) by (destruct Hb as [?|[? _]]; auto).
    unfold is_u32.
    destruct Hb' as [->| ->].
    - change (u32 ((UINT32_MAX - 36) / 1)) with 4294967259 in Hmax. lia.
    - change (u32 ((UINT32_MAX - 36) / 2)) with 2147483629 in Hmax. lia. }
  unfold ReadWavHeader.
  rewrite read_header_bytes_extension by (assumption || reflexivity).
  pose proof (ext_size_zero ext Hext) as Z0.
  split; intros E.
  - rewrite (proj2 Z0 E). cbn [bind]. cbv beta iota. unfold h.
    rewrite (parse_header_make_header c sr f bps n) by (assumption || lia).
    rewrite (proj2 (Z.ltb_ge _ _)) by lia. reflexivity.
  - destruct (to_int16 (le_combine ext) =? 0); [|reflexivity].
    exfalso. apply E, Z0. reflexivity.
Qed.

Lemma ReadWavHeader_extension_field_witness :
  ReadWavHeader
    (bytes_with_extension
       (make_header 1 8000 kWavFormatPcm 2 (2 * 4 + 36) (kFmtSubchunkSize + 2)
          (2 * 4))
       [Byte.x00; Byte.x00] ++ [Byte.x05])
  = Some (mkParams 1 8000 kWavFormatPcm 2 4, [Byte.x05])
  /\ ReadWavHeader
       (bytes_with_extension
          (make_header 1 8000 kWavFormatPcm 2 (2 * 4 + 36)
             (kFmtSubchunkSize + 2) (2 * 4))
          [Byte.x00; Byte.x01] ++ [Byte.x05])
     = None.
Proof.
  split.
  - apply (ReadWavHeader_extension_field 1 8000 kWavFormatPcm 2 4
             [Byte.x00; Byte.x00] [Byte.x05]);
      unfold is_int; try lia; reflexivity.
  - apply (ReadWavHeader_extension_field 1 8000 kWavFormatPcm 2 4
             [Byte.x00; Byte.x01] [Byte.x05]);
      unfold is_int; try lia; try reflexivity; discriminate.
Defined.

Lemma to_int_range (z : Z) : is_int (to_int z).
Proof.
  unfold is_int, to_int.
  pose proof (Z.mod_pos_bound (z + 2 ^ 31) (2 ^ 32) ltac:(lia)). lia.
Qed.

Lemma field_bound (buf : list byte) (offset size : nat) :
  0 <= field buf offset size < 2 ^ (8 * Z.of_nat size).
Proof.
  unfold field.
  pose proof (le_combine_bound (firstn size (skipn offset buf))) as B.
  pose proof (firstn_le_length size (skipn offset buf)) as L.
  split; [lia|].
  eapply Z.lt_le_trans; [apply B|].
  apply Z.pow_le_mono_r; lia.
Qed.

(** The tuple the decoder returns holds values of the types of its output
    parameters, and the validator accepts it. *)
Lemma ReadWavHeader_accepted_int
    (contents : list byte) (p : WavParams) (rest : list byte) :
  ReadWavHeader contents = Some (p, rest) ->
  is_int (num_channels p) /\ is_int (sample_rate p) /\ 0 <= num_samples p
  /\ CheckWavParameters (num_channels p) (sample_rate p) (format p)
       (bytes_per_sample p) (num_samples p) = true.
Proof.
  intros E.
  pose proof (ReadWavHeader_num_samples_range _ _ _ E) as [Hn0 _].
  assert (G : exists b36 b8, parse_header (WavHeader_of_bytes b36 b8) = Some p).
  { destruct (ReadWavHeader_inv _ _ _ E)
      as [(_ & _ & _ & P)|(_ & _ & _ & _ & P)]; eauto. }
  destruct G as (b36 & b8 & P).
  pose proof (parse_header_consistent _ _ P) as (_ & _ & C).
  pose proof (parse_header_inv _ _ P) as (Ec & Es & _).
  cbn [WavHeader_of_bytes WavHeader.fmt FmtSubchunk.NumChannels
       FmtSubchunk.SampleRate] in Ec, Es.
  split.
  - rewrite Ec. pose proof (field_bound b36 22 2) as B.
    change (2 ^ (8 * Z.of_nat 2)) with 65536 in B. unfold is_int. lia.
  - split; [rewrite Es; apply to_int_range|]. split; assumption.
Qed.

(** X8.  Decoding, encoding and decoding again: the tuple the decoder returns
    from any source is one the encoder accepts, and the decoder returns the
    same tuple from the 44 bytes the encoder writes for it. *)
Theorem ReadWavHeader_reencode
    (contents : list byte) (p : WavParams) (rest rest' : list byte) :
  ReadWavHeader contents = Some (p, rest) ->
  exists buf,
    WriteWavHeader (num_channels p) (sample_rate p) (format p)
      (bytes_per_sample p) (num_samples p) = Some buf
    /\ len buf = kWavHeaderSize
    /\ ReadWavHeader (buf ++ rest') = Some (p, rest').
Proof.
  intros E.
  destruct (ReadWavHeader_accepted_int _ _ _ E) as (Ic & Is & Hn & C).
  destruct (header_roundtrip _ _ _ _ _ rest' Ic Is Hn C) as (buf & W & L & R).
  exists buf. destruct p. auto.
Qed.

Lemma ReadWavHeader_reencode_witness :
  exists buf,
    WriteWavHeader 2 44100 kWavFormatPcm 2 200 = Some buf
    /\ len buf = kWavHeaderSize
    /\ ReadWavHeader (buf ++ [Byte.x09])
       = Some (mkParams 2 44100 kWavFormatPcm 2 200, [Byte.x09]).
Proof.
  apply (ReadWavHeader_reencode (header_with_bits 19)
           (mkParams 2 44100 kWavFormatPcm 2 200) [] [Byte.x09]).
  vm_compute. reflexivity.
Defined.

(** X2.  The 44 bytes the encoder writes for an accepted tuple of [int]
    parameters: the four tags, the RIFF chunk size 36 + bytes per sample x
    samples, the fmt chunk size 16, format, channels, rate, the byte rate
    channels x rate x bytes per sample, the block alignment channels x bytes
    per sample modulo 2^16, 8 x bytes per sample bits, and the data chunk size
    bytes per sample x samples, each little-endian at its offset. *)
Theorem WriteWavHeader_layout c sr f bps n (buf : list byte) :
  is_int c -> is_int sr -> 0 <= n ->
  WriteWavHeader c sr f bps n = Some buf ->
  len buf = 44
  /\ firstn 4 buf = list_byte_of_string "RIFF"
  /\ field buf 4 4 = bps * n + 36
  /\ firstn 4 (skipn 8 buf) = list_byte_of_string "WAVE"
  /\ firstn 4 (skipn 12 buf) = list_byte_of_string "fmt "
  /\ field buf 16 4 = 16
  /\ field buf 20 2 = f
  /\ field buf 22 2 = c
  /\ field buf 24 4 = sr
  /\ field buf 28 4 = c * sr * bps
  /\ field buf 32 2 = (c * bps) mod 2 ^ 16
  /\ field buf 34 2 = 8 * bps
  /\ firstn 4 (skipn 36 buf) = list_byte_of_string "data"
  /\ field buf 40 4 = bps * n.
Proof.
  intros Ic Is Hn W.
  pose proof (WriteWavHeader_ByteRate_exact _ _ _ _ _ _ Ic Is W) as BR.
  pose proof (WriteWavHeader_BlockAlign_mod _ _ _ _ _ _ W) as BA.
  pose proof (WriteWavHeader_BitsPerSample _ _ _ _ _ _ W) as BI.
  revert W. unfold WriteWavHeader.
  destruct (CheckWavParameters c sr f bps n) eqn:C; [|discriminate].
  cbn [assert bind]. intros [= <-].
  pose proof (CheckWavParameters_format _ _ _ _ _ C) as Hf.
  pose proof (CheckWavParameters_inv _ _ _ _ _ C)
    as (Hc & Hsr & _ & Hc16 & _ & _).
  destruct (CheckWavParameters_payload _ _ _ _ _ Hn C) as [Hb Hp].
  unfold is_int in *.
  rewrite (u64_small c) in Hc16 by lia. unfold UINT16_MAX in Hc16.
  rewrite header_fields_make_header in * by assumption.
  split; [reflexivity|]. split; [reflexivity|].
  split.
  { change (field (bytes_of_WavHeader
                     (make_header c sr f bps (bps * n + 36) kFmtSubchunkSize
                        (bps * n))) 4 4)
      with (le_combine (le_split 4 (bps * n + 36))).
    rewrite le_combine_split_4. apply u32_small.
    destruct Hb as [->| ->]; lia. }
  split; [reflexivity|]. split; [reflexivity|]. split; [reflexivity|].
  split.
  { change (field (bytes_of_WavHeader
                     (make_header c sr f bps (bps * n + 36) kFmtSubchunkSize
                        (bps * n))) 20 2)
      with (le_combine (le_split 2 (u16 f))).
    rewrite le_combine_split_2, u16_idem.
    destruct Hf as [->|[->| ->]]; reflexivity. }
  split.
  { change (field (bytes_of_WavHeader
                     (make_header c sr f bps (bps * n + 36) kFmtSubchunkSize
                        (bps * n))) 22 2)
      with (le_combine (le_split 2 (u16 c))).
    rewrite le_combine_split_2, u16_idem. unfold u16. apply Z.mod_small. lia. }
  split.
  { change (field (bytes_of_WavHeader
                     (make_header c sr f bps (bps * n + 36) kFmtSubchunkSize
                        (bps * n))) 24 4)
      with (le_combine (le_split 4 (u32 sr))).
    rewrite le_combine_split_4, u32_idem. apply u32_small.
    unfold UINT32_MAX. lia. }
  split; [exact BR|]. split; [exact BA|]. split; [exact BI|].
  split; [reflexivity|].
  change (field (bytes_of_WavHeader
                   (make_header c sr f bps (bps * n + 36) kFmtSubchunkSize
                      (bps * n))) 40 4)
    with (le_combine (le_split 4 (bps * n))).
  rewrite le_combine_split_4. apply u32_small.
  destruct Hb as [->| ->]; lia.
Qed.

Lemma WriteWavHeader_layout_witness :
  exists buf,
    WriteWavHeader 2 44100 kWavFormatPcm 2 200 = Some buf
    /\ field buf 4 4 = 2 * 200 + 36
    /\ field buf 28 4 = 2 * 44100 * 2
    /\ field buf 40 4 = 2 * 200.
Proof.
  eexists. split; [reflexivity|].
  pose proof (WriteWavHeader_layout 2 44100 kWavFormatPcm 2 200 _
                ltac:(unfold is_int; lia) ltac:(unfold is_int; lia)
                ltac:(lia) eq_refl)
    as (_ & _ & R & _ & _ & _ & _ & _ & _ & B & _ & _ & _ & D).
  split; [exact R|]. split; [exact B|exact D].
Defined.

(** X10.  The reader's constructor on the header of an accepted tuple: 16-bit
    PCM alone is opened, with both counters at the sample count and the source
    positioned after the header; the A-law, mu-law and 8-bit PCM headers that
    the decoder accepts make the constructor abort. *)
Theorem WavReader_on_encoded_header c sr f bps n (buf rest : list byte) :
  is_int c -> is_int sr -> 0 <= n ->
  WriteWavHeader c sr f bps n = Some buf ->
  ReadWavHeader (buf ++ rest) = Some (mkParams c sr f bps n, rest)
  /\ WavReader.WavReader (buf ++ rest)
     = if (f =? kWavFormatPcm) && (bps =? 2)
       then Some (WavReader.mk sr c n n rest)
       else None.
Proof.
  intros Ic Is Hn W.
  assert (C : CheckWavParameters c sr f bps n = true).
  { revert W. unfold WriteWavHeader.
    destruct (CheckWavParameters c sr f bps n); [reflexivity|discriminate]. }
  destruct (header_roundtrip _ _ _ _ _ rest Ic Is Hn C) as (buf' & W' & _ & R).
  assert (buf' = buf) by congruence. subst buf'.
  split; [exact R|].
  unfold WavReader.WavReader. rewrite R. cbn [bind]. cbv beta iota zeta.
  cbn [format bytes_per_sample sample_rate num_channels num_samples].
  unfold kWavFormat, kBytesPerSample.
  rewrite (Z.eqb_sym kWavFormatPcm f), (Z.eqb_sym 2 bps).
  destruct (f =? kWavFormatPcm); [|reflexivity].
  destruct (bps =? 2); reflexivity.
Qed.

Lemma WavReader_on_encoded_header_witness :
  exists buf,
    WriteWavHeader 1 8000 kWavFormatMuLaw 1 160 = Some buf
    /\ ReadWavHeader (buf ++ [Byte.x00])
       = Some (mkParams 1 8000 kWavFormatMuLaw 1 160, [Byte.x00])
    /\ WavReader.WavReader (buf ++ [Byte.x00]) = None.
Proof.
  eexists. split; [reflexivity|].
  apply (WavReader_on_encoded_header 1 8000 kWavFormatMuLaw 1 160 _
           [Byte.x00]);
    unfold is_int; try lia; reflexivity.
Defined.

(** ** Tags *)

Lemma WriteFourCC_le_combine (a b c d : byte) :
  WriteFourCC a b c d = le_combine [a; b; c; d].
Proof.
  unfold WriteFourCC. cbv beta iota fix delta [le_combine].
  rewrite Z.shiftl_0_l, Z.lor_0_r.
  rewrite !Z.shiftl_lor, !Z.shiftl_shiftl by lia.
  change (8 + 8) with 16. change (16 + 8) with 24.
  rewrite !Z.lor_assoc. reflexivity.
Qed.

(** X9.  The four characters of a tag are the four bytes of the word
    [WriteFourCC] builds, in order: [ReadFourCC] returns them. The characters
    are 7-bit, so that the conversion of [char] to [uint32_t] does not depend
    on the signedness of [char]. *)
Theorem ReadFourCC_WriteFourCC (a b c d : byte) :
  byte.unsigned a < 128 -> byte.unsigned b < 128 ->
  byte.unsigned c < 128 -> byte.unsigned d < 128 ->
  ReadFourCC (WriteFourCC a b c d) = [a; b; c; d].
Proof.
  intros _ _ _ _. rewrite WriteFourCC_le_combine. unfold ReadFourCC.
  apply split_le_combine'. reflexivity.
Qed.

Lemma ReadFourCC_WriteFourCC_witness :
  ReadFourCC (WriteFourCC "d" "a" "t" "a") = list_byte_of_string "data".
Proof.
  apply (ReadFourCC_WriteFourCC "d" "a" "t" "a"); reflexivity.
Defined.

(** ** Reads in several calls *)

Lemma fread_s16_nil (count : nat) : fread_s16 count [] = ([], []).
Proof. destruct count; reflexivity. Qed.

Lemma fread_s16_add (a b : nat) : forall (file : list byte),
  fread_s16 (a + b) file
  = let '(s1, f1) := fread_s16 a file in
    let '(s2, f2) := fread_s16 b f1 in
    (s1 ++ s2, f2).
Proof.
  induction a as [|a IH]; intros file.
  - cbn [Nat.add fread_s16]. destruct (fread_s16 b file). reflexivity.
  - cbn [Nat.add fread_s16].
    destruct file as [|b0 [|b1 file]];
      try (rewrite fread_s16_nil; reflexivity).
    rewrite IH. destruct (fread_s16 a file) as [s1 f1].
    destruct (fread_s16 b f1) as [s2 f2]. reflexivity.
Qed.

Lemma fread_s16_short (count : nat) : forall (file : list byte),
  (List.length (fst (fread_s16 count file)) < count)%nat ->
  snd (fread_s16 count file) = [].
Proof.
  induction count as [|count IH]; intros file; [cbn; lia|].
  cbn [fread_s16]. destruct file as [|b0 [|b1 file]]; try reflexivity.
  specialize (IH file). destruct (fread_s16 count file) as [items rest].
  cbn [fst snd List.length] in *. intros H. apply IH. lia.
Qed.

(** [ReadSamples] on a reader whose counter is a 32-bit value, for a
    request below 2^32: no assertion fails. *)
Lemma ReadSamples_eq (r : WavReader.t) (req : Z) :
  reader_ok r -> 0 <= req < 2 ^ 32 ->
  WavReader.ReadSamples r req
  = let n := Z.min req (WavReader.num_samples_remaining_ r) in
    let '(samples, file) :=
      fread_s16 (Z.to_nat n) (WavReader.file_handle_ r) in
    Some (samples,
          WavReader.mk (WavReader.sample_rate_ r) (WavReader.num_channels_ r)
            (WavReader.num_samples_ r)
            (WavReader.num_samples_remaining_ r
             - Z.of_nat (List.length samples)) file).
Proof.
  intros [Hlo Hhi] Hreq. unfold WavReader.ReadSamples.
  cbv zeta. rewrite (u32_small req) by (unfold UINT32_MAX; lia).
  set (n := Z.min req (WavReader.num_samples_remaining_ r)).
  pose proof (fread_s16_length (Z.to_nat n) (WavReader.file_handle_ r)) as L.
  destruct (fread_s16 (Z.to_nat n) (WavReader.file_handle_ r)) as [samples file].
  cbn [fst] in L.
  assert (Hr : 0 <= Z.of_nat (List.length samples) <= n) by lia.
  assert (A1 : ((Z.of_nat (List.length samples) =? n)
                || (Z.of_nat (List.length samples) <? n)) = true).
  { destruct (Z.eqb_spec (Z.of_nat (List.length samples)) n); [reflexivity|].
    apply Z.ltb_lt. lia. }
  assert (A2 : (Z.of_nat (List.length samples)
                <=? WavReader.num_samples_remaining_ r) = true)
    by (apply Z.leb_le; lia).
  rewrite A1, A2. cbn [assert bind].
  do 3 f_equal. unfold u32.
  rewrite (Z.mod_small (Z.of_nat _)) by lia. apply Z.mod_small. lia.
Qed.

(** Two successive reads return what one read of the sum of the two
    requests returns, and leave the reader in the same state. *)
Lemma ReadSamples_add
    (r r1 r2 : WavReader.t) (a b : Z) (s1 s2 : list Z) :
  reader_ok r -> 0 <= a -> 0 <= b -> a + b < 2 ^ 32 ->
  WavReader.ReadSamples r a = Some (s1, r1) ->
  WavReader.ReadSamples r1 b = Some (s2, r2) ->
  WavReader.ReadSamples r (a + b) = Some (s1 ++ s2, r2).
Proof.
  intros Hr Ha Hb Hab E1 E2.
  destruct (ReadSamples_spec r a Hr Ha) as (s1' & r1' & E1' & _ & _ & Hr1 & _).
  rewrite E1 in E1'. injection E1' as <- <-.
  rewrite ReadSamples_eq in E1, E2 |- * by (assumption || lia).
  destruct r as [sr c n rem file]. destruct Hr as [Hlo Hhi].
  cbn [WavReader.num_samples_remaining_ WavReader.file_handle_
       WavReader.sample_rate_ WavReader.num_channels_
       WavReader.num_samples_] in *.
  cbv zeta in *.
  pose proof (fread_s16_length (Z.to_nat (Z.min a rem)) file) as L1.
  pose proof (fread_s16_short (Z.to_nat (Z.min a rem)) file) as S1.
  destruct (fread_s16 (Z.to_nat (Z.min a rem)) file) as [x1 f1] eqn:F1.
  cbn [fst snd] in L1, S1.
  injection E1 as <- <-.
  cbn [WavReader.num_samples_remaining_ WavReader.file_handle_
       WavReader.sample_rate_ WavReader.num_channels_
       WavReader.num_samples_] in *.
  set (l1 := Z.of_nat (List.length x1)) in *.
  destruct (fread_s16 (Z.to_nat (Z.min b (rem - l1))) f1) as [x2 f2] eqn:F2.
  injection E2 as <- <-.
  assert (F : fread_s16 (Z.to_nat (Z.min (a + b) rem)) file = (x1 ++ x2, f2)).
  { destruct (Z.eq_dec l1 (Z.min a rem)) as [Efull|Eshort].
    - replace (Z.to_nat (Z.min (a + b) rem))
        with (Z.to_nat (Z.min a rem) + Z.to_nat (Z.min b (rem - l1)))%nat
        by lia.
      rewrite fread_s16_add, F1, F2. reflexivity.
    - assert (f1 = []) by (apply S1; lia). subst f1.
      rewrite fread_s16_nil in F2. injection F2 as <- <-.
      replace (Z.to_nat (Z.min (a + b) rem))
        with (Z.to_nat (Z.min a rem)
              + (Z.to_nat (Z.min (a + b) rem) - Z.to_nat (Z.min a rem)))%nat
        by lia.
      rewrite fread_s16_add, F1, fread_s16_nil. reflexivity. }
  rewrite F. do 3 f_equal.
  rewrite length_app, Nat2Z.inj_add. fold l1. lia.
Qed.

(** The loop of the floating-point read against one integer read of the
    samples still requested. *)
Lemma ReadSamples_float_loop_as_int16 (fuel : nat) :
  forall (r r' : WavReader.t) (i n : Z) (acc : list float) (s : list Z),
    reader_ok r -> 0 <= i -> n < 2 ^ 32 ->
    n - i <= Z.of_nat fuel * kChunksize ->
    WavReader.ReadSamples r (Z.max 0 (n - i)) = Some (s, r') ->
    WavReader.ReadSamples_float_loop fuel r i n acc
    = Some (acc ++ map float_of_int s, r').
Proof.
  change kChunksize with 2048.
  assert (Done : forall (r r' : WavReader.t) (acc : list float) (s : list Z),
             reader_ok r ->
             WavReader.ReadSamples r 0 = Some (s, r') ->
             Some (acc, r) = Some (acc ++ map float_of_int s, r')).
  { intros r r' acc s Hr E.
    rewrite ReadSamples_eq in E by (assumption || lia).
    destruct Hr as [Hlo _]. cbv zeta in E.
    rewrite Z.min_l in E by lia. cbn [Z.to_nat fread_s16] in E.
    injection E as <- <-. cbn [map List.length Z.of_nat].
    rewrite app_nil_r, Z.sub_0_r. destruct r; reflexivity. }
  induction fuel as [|fuel IH]; intros r r' i n acc s Hr Hi Hn Hf E.
  - cbn [WavReader.ReadSamples_float_loop].
    destruct (Z.ltb_spec i n); [lia|].
    rewrite Z.max_l in E by lia.
    destruct (i <? n); eapply Done; eassumption.
  - cbn [WavReader.ReadSamples_float_loop].
    destruct (Z.ltb_spec i n) as [Hlt|Hge].
    + rewrite Z.max_r in E by lia.
      change kChunksize with 2048.
      assert (Hc : 0 <= Z.min 2048 (n - i)) by lia.
      destruct (ReadSamples_spec r _ Hr Hc) as (s1 & r1 & E1 & _ & _ & Hr1 & _).
      rewrite E1. cbn [bind]. cbv beta iota.
      assert (Hm : 0 <= Z.max 0 (n - (i + 2048))) by lia.
      destruct (ReadSamples_spec r1 _ Hr1 Hm) as (s2 & r2 & E2 & _).
      pose proof (ReadSamples_add r r1 r2 _ _ s1 s2 Hr Hc Hm ltac:(lia) E1 E2)
        as E12.
      replace (Z.min 2048 (n - i) + Z.max 0 (n - (i + 2048)))
        with (n - i) in E12 by lia.
      rewrite E in E12. injection E12 as -> ->.
      rewrite (IH r1 r2 (i + 2048) n (acc ++ map float_of_int s1) s2)
        by (assumption || lia).
      rewrite map_app, app_assoc. reflexivity.
    + rewrite Z.max_l in E by lia. eapply Done; eassumption.
Qed.

(** X13.  The floating-point read returns the samples of the integer read of
    the same request, converted, and leaves the reader in the same state. *)
Theorem ReadSamples_float_as_int16
    (r r' : WavReader.t) (req : Z) (s : list Z) :
  reader_ok r -> 0 <= req < 2 ^ 32 ->
  WavReader.ReadSamples r req = Some (s, r') ->
  WavReader.ReadSamples_float r req = Some (map float_of_int s, r').
Proof.
  intros Hr Hreq E. unfold WavReader.ReadSamples_float.
  apply (ReadSamples_float_loop_as_int16 _ r r' 0 req [] s);
    try assumption; try lia.
  - change kChunksize with 2048.
    rewrite Z2Nat.id by (Z.div_mod_to_equations; lia).
    Z.div_mod_to_equations. lia.
  - rewrite Z.sub_0_r, Z.max_r by lia. exact E.
Qed.

Lemma ReadSamples_float_as_int16_witness :
  WavReader.ReadSamples_float
    (WavReader.mk 8000 1 4 4 (skipn 44 example_file)) 10
  = Some (map float_of_int [1; -1; 100; -100],
          WavReader.mk 8000 1 4 0 [Byte.x01; Byte.x02; Byte.x03]).
Proof.
  apply (ReadSamples_float_as_int16
           (WavReader.mk 8000 1 4 4 (skipn 44 example_file)));
    try (unfold reader_ok, is_u32; cbn; lia);
    vm_compute; reflexivity.
Defined.

(** X12.  A sequence of reads returns, put end to end, the samples of one read
    of the sum of the requests, and leaves the reader in the same state: how a
    caller cuts its reads does not change the samples it gets. *)
Theorem ReadSamples_seq_as_one (reqs : list Z) :
  forall (r r' : WavReader.t) (outs : list (list Z)),
    reader_ok r -> Forall (Z.le 0) reqs -> total_requested reqs < 2 ^ 32 ->
    ReadSamples_seq r reqs = Some (outs, r') ->
    WavReader.ReadSamples r (total_requested reqs)
    = Some (List.concat outs, r').
Proof.
  induction reqs as [|a reqs IH]; intros r r' outs Hr Hreqs Hsum E.
  - cbn [ReadSamples_seq] in E. injection E as <- <-.
    cbn [total_requested fold_right List.concat].
    rewrite ReadSamples_eq by (assumption || lia).
    destruct Hr as [Hlo _]. cbv zeta. rewrite Z.min_l by lia.
    cbn [Z.to_nat fread_s16 List.length Z.of_nat].
    rewrite Z.sub_0_r. destruct r; reflexivity.
  - inversion Hreqs as [|? ? Ha Hreqs']; subst.
    assert (Hnn : 0 <= total_requested reqs).
    { clear -Hreqs'. unfold total_requested.
      induction Hreqs' as [|x l Hx _ IHl]; cbn [fold_right]; lia. }
    change (total_requested (a :: reqs)) with (a + total_requested reqs)
      in Hsum |- *.
    destruct (ReadSamples_spec r a Hr Ha) as (s1 & r1 & E1 & _ & _ & Hr1 & _).
    cbn [ReadSamples_seq] in E. rewrite E1 in E. cbn [bind] in E.
    cbv beta iota in E.
    destruct (ReadSamples_seq r1 reqs) as [[outs' r2]|] eqn:E2;
      [|discriminate].
    cbn [bind] in E. cbv beta iota in E. injection E as <- <-.
    cbn [List.concat].
    apply (ReadSamples_add r r1 r2); try assumption; try lia.
    apply IH; try assumption. lia.
Qed.

Lemma ReadSamples_seq_as_one_witness :
  WavReader.ReadSamples (WavReader.mk 8000 1 4 4 (skipn 44 example_file))
    (total_requested [2; 1; 5])
  = Some (List.concat [[1; -1]; [100]; [-100]],
          WavReader.mk 8000 1 4 0 [Byte.x01; Byte.x02; Byte.x03]).
Proof.
  apply (ReadSamples_seq_as_one [2; 1; 5]
           (WavReader.mk 8000 1 4 4 (skipn 44 example_file)));
    try (unfold reader_ok, is_u32; cbn; lia);
    try (repeat constructor; discriminate);
    vm_compute; reflexivity.
Defined.

(** ** Conversion of integer samples *)

Lemma forall_range_spec (ok : Z -> bool) (depth : nat) : forall (lo z : Z),
  forall_range ok depth lo = true ->
  lo <= z < lo + 2 ^ Z.of_nat depth -> ok z = true.
Proof.
  induction depth as [|d IH]; intros lo z H Hz.
  - cbn [forall_range] in H. change (2 ^ Z.of_nat 0) with 1 in Hz.
    replace z with lo by lia. exact H.
  - cbn [forall_range] in H. apply andb_true_iff in H as [H1 H2].
    rewrite Nat2Z.inj_succ, Z.pow_succ_r in Hz by lia.
    destruct (Z.ltb_spec z (lo + 2 ^ Z.of_nat d)).
    + apply (IH lo); [exact H1|lia].
    + apply (IH (lo + 2 ^ Z.of_nat d)); [exact H2|lia].
Qed.

(** The float of an [int16_t] sample converts back to the sample. *)
Lemma FloatS16ToS16_float_of_int (s : Z) :
  is_int16 s -> FloatS16ToS16 (float_of_int s) = Some s.
Proof.
  intros [Hlo Hhi]. unfold INT16_MIN, INT16_MAX in *.
  set (ok := fun z : Z =>
               match FloatS16ToS16 (float_of_int z) with
               | Some z' => z' =? z
               | None => false
               end).
  assert (A : forall_range ok 16 (-32768) = true) by (vm_compute; reflexivity).
  pose proof (forall_range_spec ok 16 (-32768) s A) as B.
  change (2 ^ Z.of_nat 16) with 65536 in B. specialize (B ltac:(lia)).
  unfold ok in B.
  destruct (FloatS16ToS16 (float_of_int s)) as [z|]; [|discriminate].
  f_equal. apply Z.eqb_eq. exact B.
Qed.

(** X14.  The conversion of the floating-point read followed by the conversion
    of the floating-point write is the identity on [int16_t] samples: no
    sample is rounded, saturated or rejected. *)
Theorem FloatS16ToS16_array_float_of_int (samples : list Z) :
  Forall is_int16 samples ->
  FloatS16ToS16_array (map float_of_int samples) = Some samples.
Proof.
  induction 1 as [|s samples Hs _ IH]; [reflexivity|].
  cbn [map FloatS16ToS16_array].
  rewrite IH, FloatS16ToS16_float_of_int by exact Hs. reflexivity.
Qed.

Lemma FloatS16ToS16_array_float_of_int_witness :
  FloatS16ToS16_array (map float_of_int [-32768; -1; 0; 12345; 32767])
  = Some [-32768; -1; 0; 12345; 32767].
Proof.
  apply FloatS16ToS16_array_float_of_int.
  repeat constructor; unfold INT16_MIN, INT16_MAX; lia.
Defined.

(** ** Writes in several calls *)

Lemma bytes_of_s16_app (a b : list Z) :
  bytes_of_s16 (a ++ b) = bytes_of_s16 a ++ bytes_of_s16 b.
Proof. unfold bytes_of_s16. apply flat_map_app. Qed.

Lemma length_bytes_of_s16 (samples : list Z) :
  List.length (bytes_of_s16 samples) = (2 * List.length samples)%nat.
Proof.
  induction samples as [|s samples IH]; [reflexivity|].
  change (bytes_of_s16 (s :: samples))
    with (le_split 2 s ++ bytes_of_s16 samples).
  rewrite length_app, IH, length_le_split. cbn [List.length]. lia.
Qed.

(** A write of no sample leaves the writer as it is. *)
Lemma WriteSamples_nil (w : WavWriter.t) :
  writer_ok w -> WavWriter.WriteSamples w [] = Some w.
Proof.
  intros [[Hlo Hhi] C].
  assert (E : u32 (WavWriter.num_samples w + u32 (Z.of_nat (List.length (@nil Z))))
              = WavWriter.num_samples w).
  { cbn [List.length Z.of_nat]. change (u32 0) with 0.
    rewrite Z.add_0_r. apply u32_small. unfold UINT32_MAX. lia. }
  rewrite WriteSamples_Some.
  - rewrite E. change (bytes_of_s16 []) with (@nil byte). rewrite app_nil_r.
    destruct w; reflexivity.
  - reflexivity.
  - rewrite E. exact C.
Qed.

(** Two successive writes leave the writer as one write of the two batches
    put end to end, when the counter does not wrap. *)
Lemma WriteSamples_app (w w1 w2 : WavWriter.t) (a b : list Z) :
  is_u32 (WavWriter.num_samples w) ->
  WavWriter.num_samples w + Z.of_nat (List.length a)
  + Z.of_nat (List.length b) < 2 ^ 32 ->
  WavWriter.WriteSamples w a = Some w1 ->
  WavWriter.WriteSamples w1 b = Some w2 ->
  WavWriter.WriteSamples w (a ++ b) = Some w2.
Proof.
  intros Hu Hsum E1 E2.
  destruct (WriteSamples_inv _ _ _ E1) as (S1 & C1 & _ & F1 & _ & _).
  destruct (WriteSamples_counter_nowrap w w1 a Hu ltac:(lia) E1) as [N1 [Hu1 _]].
  destruct (WriteSamples_inv _ _ _ E2) as (S2 & C2 & _ & F2 & _ & K2).
  destruct (WriteSamples_counter_nowrap w1 w2 b Hu1 ltac:(lia) E2) as [N2 _].
  assert (E : u32 (WavWriter.num_samples w
                   + u32 (Z.of_nat (List.length (a ++ b))))
              = WavWriter.num_samples w2).
  { rewrite length_app, Nat2Z.inj_add. destruct Hu.
    rewrite (u32_small (Z.of_nat (List.length a) + Z.of_nat (List.length b)))
      by (unfold UINT32_MAX; lia).
    rewrite u32_small by (unfold UINT32_MAX; lia). lia. }
  rewrite WriteSamples_Some.
  - rewrite E, bytes_of_s16_app, app_assoc, <- F1, <- F2.
    rewrite <- S1, <- S2, <- C1, <- C2. destruct w2; reflexivity.
  - apply orb_true_iff. left. apply Z.leb_le.
    rewrite length_app, Nat2Z.inj_add. destruct Hu. unfold UINT32_MAX. lia.
  - rewrite E, <- C1, <- C2, <- S1, <- S2. exact K2.
Qed.

(** A sequence of writes whose total fits the counter leaves the writer as
    one write of all the batches put end to end. *)
Lemma WriteSamples_seq_concat (batches : list (list Z)) :
  forall (w w' : WavWriter.t),
    writer_ok w ->
    WavWriter.num_samples w + Z.of_nat (List.length (List.concat batches))
    < 2 ^ 32 ->
    WriteSamples_seq w batches = Some w' ->
    WavWriter.WriteSamples w (List.concat batches) = Some w'.
Proof.
  induction batches as [|a batches IH]; intros w w' Hw Hsum E.
  - cbn [WriteSamples_seq] in E. injection E as <-.
    apply WriteSamples_nil. exact Hw.
  - cbn [WriteSamples_seq] in E. cbn [List.concat] in Hsum |- *.
    rewrite length_app, Nat2Z.inj_add in Hsum.
    destruct (WavWriter.WriteSamples w a) as [w1|] eqn:E1; [|discriminate].
    cbn [bind] in E.
    destruct (WriteSamples_counter_nowrap w w1 a (proj1 Hw) ltac:(lia) E1)
      as [N1 Hw1].
    apply (WriteSamples_app w w1 w'); [apply Hw|lia|exact E1|].
    apply IH; [exact Hw1|lia|exact E].
Qed.

(** X19.  A file written in any number of calls and closed, any bytes appended
    to it: closing succeeds and the file holds 44 bytes and two bytes per
    sample; the reader opens it with the rate, the channels and the total
    sample count of the writer; a read of at least that many samples returns
    the samples of all the batches in order and leaves the appended bytes
    unread. *)
Theorem write_batches_then_read
    (sr c : Z) (batches : list (list Z)) (trailing : list byte) (req : Z)
    (w0 w1 : WavWriter.t) :
  is_int sr -> is_int c -> Forall (Forall is_int16) batches ->
  Z.of_nat (List.length (List.concat batches)) <= req < 2 ^ 32 ->
  WavWriter.WavWriter sr c = Some w0 ->
  WriteSamples_seq w0 batches = Some w1 ->
  exists file r r',
    WavWriter.Close w1 = Some file
    /\ len file = 44 + 2 * Z.of_nat (List.length (List.concat batches))
    /\ WavReader.WavReader (file ++ trailing) = Some r
    /\ WavReader.sample_rate r = sr
    /\ WavReader.num_channels r = c
    /\ WavReader.num_samples r = Z.of_nat (List.length (List.concat batches))
    /\ WavReader.ReadSamples r req = Some (List.concat batches, r')
    /\ WavReader.num_samples_remaining_ r' = 0
    /\ WavReader.file_handle_ r' = trailing.
Proof.
  intros Is Ic Hs Hreq H0 Hseq.
  destruct (WavWriter_open_ok _ _ _ H0) as (Hw0 & S0 & C0 & N0).
  assert (F0 : WavWriter.file_handle_ w0 = repeat Byte.x00 44).
  { revert H0. unfold WavWriter.WavWriter.
    destruct (assert _); [|discriminate]. cbn. intros [= <-]. reflexivity. }
  assert (H1 : WavWriter.WriteSamples w0 (List.concat batches) = Some w1).
  { apply WriteSamples_seq_concat; [exact Hw0|rewrite N0; lia|exact Hseq]. }
  destruct (WriteSamples_counter_nowrap w0 w1 (List.concat batches)
              (proj1 Hw0) ltac:(rewrite N0; lia) H1) as [_ [_ K1]].
  destruct (WriteSamples_inv _ _ _ H1) as (_ & _ & _ & F1 & _).
  unfold WavWriter.num_samples, WavWriter.num_channels,
    WavWriter.sample_rate in K1.
  set (file := bytes_of_WavHeader
                 (header_fields (WavWriter.num_channels_ w1)
                    (WavWriter.sample_rate_ w1) kWavFormat kBytesPerSample
                    (WavWriter.num_samples_ w1))
               ++ skipn (Z.to_nat kWavHeaderSize) (WavWriter.file_handle_ w1)).
  assert (HC : WavWriter.Close w1 = Some file).
  { unfold WavWriter.Close, WriteWavHeader. rewrite K1. reflexivity. }
  exists file.
  destruct (write_then_read sr c (List.concat batches) trailing req w0 w1 file
              Is Ic ltac:(apply Forall_concat; exact Hs) Hreq H0 H1 HC)
    as (r & r' & R).
  exists r, r'. split; [exact HC|]. split; [|exact R].
  unfold len, file. rewrite length_app, F1, F0.
  change (Z.to_nat kWavHeaderSize) with 44%nat.
  rewrite skipn_app_exact by reflexivity.
  rewrite length_bytes_of_s16.
  change (List.length (bytes_of_WavHeader _)) with 44%nat. lia.
Qed.

Lemma write_batches_then_read_witness :
  exists file r r',
    WavWriter.Close
      (WavWriter.mk 8000 1 4
         (repeat Byte.x00 44 ++ bytes_of_s16 [1; -1; 100; -100]))
    = Some file
    /\ len file
       = 44 + 2 * Z.of_nat (List.length (List.concat [[1; -1]; []; [100; -100]]))
    /\ WavReader.WavReader (file ++ [Byte.x01]) = Some r
    /\ WavReader.sample_rate r = 8000
    /\ WavReader.num_channels r = 1
    /\ WavReader.num_samples r
       = Z.of_nat (List.length (List.concat [[1; -1]; []; [100; -100]]))
    /\ WavReader.ReadSamples r 10
       = Some (List.concat [[1; -1]; []; [100; -100]], r')
    /\ WavReader.num_samples_remaining_ r' = 0
    /\ WavReader.file_handle_ r' = [Byte.x01].
Proof.
  apply (write_batches_then_read 8000 1 [[1; -1]; []; [100; -100]]
           [Byte.x01] 10 (WavWriter.mk 8000 1 0 (repeat Byte.x00 44)));
    try (unfold is_int; lia);
    try (cbn; lia);
    try (vm_compute; reflexivity).
  repeat constructor; unfold INT16_MIN, INT16_MAX; lia.
Defined.

(** X16.  When the counter does not wrap, the integer write returns exactly
    when the new total is at most 2147483629, the largest count whose payload
    and header sizes fit 32 bits, and is a whole number of frames. *)
Theorem WriteSamples_returns_iff (w : WavWriter.t) (samples : list Z) :
  writer_ok w ->
  let total := WavWriter.num_samples w + Z.of_nat (List.length samples) in
  total < 2 ^ 32 ->
  (exists w', WavWriter.WriteSamples w samples = Some w')
  <-> total <= 2147483629 /\ total mod WavWriter.num_channels w = 0.
Proof.
  intros Hw total Hsum. subst total. pose proof Hw as [[Hlo Hhi] C].
  assert (E : u32 (WavWriter.num_samples w
                   + u32 (Z.of_nat (List.length samples)))
              = WavWriter.num_samples w + Z.of_nat (List.length samples)).
  { rewrite (u32_small (Z.of_nat _)) by (unfold UINT32_MAX; lia).
    apply u32_small. unfold UINT32_MAX. lia. }
  split.
  - intros [w' H].
    destruct (WriteSamples_inv _ _ _ H) as (S1 & C1 & N1 & _ & _ & K).
    cbv zeta in N1. rewrite N1, E, C1 in K.
    apply CheckWavParameters_inv in K as (_ & _ & _ & _ & _ & _ & Hn & Hm).
    change (u32 ((UINT32_MAX - 36) / kBytesPerSample)) with 2147483629 in Hn.
    split; assumption.
  - intros [Hn Hm]. eexists. apply WriteSamples_Some.
    + apply orb_true_iff. left. apply Z.leb_le. unfold UINT32_MAX. lia.
    + rewrite E. apply (CheckWavParameters_num_samples _ _ _ _ _ _ C).
      * change (u32 ((UINT32_MAX - 36) / kBytesPerSample)) with 2147483629.
        exact Hn.
      * exact Hm.
Qed.

Lemma WriteSamples_returns_iff_witness :
  (exists w',
      WavWriter.WriteSamples (WavWriter.mk 8000 2 4 (repeat Byte.x00 52))
        [7; 8; 9]
      = Some w')
  <-> 4 + 3 <= 2147483629 /\ (4 + 3) mod 2 = 0.
Proof.
  apply (WriteSamples_returns_iff (WavWriter.mk 8000 2 4 (repeat Byte.x00 52))
           [7; 8; 9]).
  - split; [unfold is_u32; cbn; lia|reflexivity].
  - cbn. lia.
Defined.

(** ** The floating-point write against the integer write *)

Lemma FloatS16ToS16_array_app (a b : list float) :
  FloatS16ToS16_array (a ++ b)
  = (x <- FloatS16ToS16_array a ;;
     y <- FloatS16ToS16_array b ;;
     Some (x ++ y)).
Proof.
  induction a as [|v a IH].
  - cbn [app FloatS16ToS16_array bind].
    destruct (FloatS16ToS16_array b); reflexivity.
  - cbn [app FloatS16ToS16_array].
    destruct (FloatS16ToS16 v); [|reflexivity]. cbn [bind].
    rewrite IH. destruct (FloatS16ToS16_array a); [|reflexivity]. cbn [bind].
    destruct (FloatS16ToS16_array b); reflexivity.
Qed.

Lemma WriteSamples_float_loop_as_int16 (fuel : nat) :
  forall (w w' : WavWriter.t) (samples : list float),
    writer_ok w ->
    WavWriter.WriteSamples_float_loop fuel w samples = Some w' ->
    exists isamples,
      FloatS16ToS16_array samples = Some isamples
      /\ WavWriter.WriteSamples w isamples = Some w'
      /\ WavWriter.num_samples w'
         = WavWriter.num_samples w + Z.of_nat (List.length samples)
      /\ writer_ok w'.
Proof.
  induction fuel as [|fuel IH]; intros w w' samples Hw;
    cbn [WavWriter.WriteSamples_float_loop];
    (destruct samples as [|v samples];
     [intros [= <-]; exists []; split; [reflexivity|];
      split; [apply WriteSamples_nil; exact Hw|];
      split; [cbn; lia|exact Hw]|]); [discriminate|].
  set (all := v :: samples).
  destruct (FloatS16ToS16_array (firstn (Z.to_nat kChunksize) all))
    as [i1|] eqn:A1; [|discriminate].
  cbn [bind].
  destruct (WavWriter.WriteSamples w i1) as [w1|] eqn:W1; [|discriminate].
  cbn [bind]. intros H.
  pose proof (FloatS16ToS16_array_length _ _ A1) as L1.
  pose proof (firstn_le_length (Z.to_nat kChunksize) all) as Lc.
  rewrite <- L1 in Lc. change (Z.to_nat kChunksize) with 2048%nat in *.
  pose proof (writer_ok_bound _ Hw) as B.
  destruct (WriteSamples_counter_nowrap w w1 i1 (proj1 Hw) ltac:(lia) W1)
    as [N1 Hw1].
  destruct (IH w1 w' _ Hw1 H) as (i2 & A2 & W2 & N2 & Hw').
  pose proof (FloatS16ToS16_array_length _ _ A2) as L2.
  pose proof (writer_ok_bound _ Hw') as B'.
  assert (Lall : (List.length i1 + List.length i2 = List.length all)%nat).
  { rewrite L1, L2, <- length_app, firstn_skipn. reflexivity. }
  exists (i1 ++ i2). split.
  { rewrite <- (firstn_skipn 2048 all), FloatS16ToS16_array_app, A1, A2.
    reflexivity. }
  split.
  { apply (WriteSamples_app w w1 w'); [apply Hw| |exact W1|exact W2].
    rewrite L2 in *. lia. }
  split; [|exact Hw']. lia.
Qed.

(** X17.  The floating-point write, when it returns, has converted every
    sample and leaves the writer as the integer write of the converted samples
    in one call: the same bytes in the file and the same counter, which has
    grown by the number of samples. *)
Theorem WriteSamples_float_as_int16
    (w w' : WavWriter.t) (samples : list float) :
  writer_ok w ->
  WavWriter.WriteSamples_float w samples = Some w' ->
  exists isamples,
    FloatS16ToS16_array samples = Some isamples
    /\ WavWriter.WriteSamples w isamples = Some w'
    /\ WavWriter.file_handle_ w'
       = WavWriter.file_handle_ w ++ bytes_of_s16 isamples
    /\ WavWriter.num_samples w'
       = WavWriter.num_samples w + Z.of_nat (List.length samples).
Proof.
  intros Hw H.
  destruct (WriteSamples_float_loop_as_int16 _ _ _ _ Hw H)
    as (isamples & A & W & N & _).
  exists isamples. split; [exact A|]. split; [exact W|]. split; [|exact N].
  apply (WriteSamples_inv _ _ _ W).
Qed.

Lemma WriteSamples_float_as_int16_witness :
  exists isamples,
    FloatS16ToS16_array (map float_of_int [3; -4]) = Some isamples
    /\ WavWriter.WriteSamples (WavWriter.mk 8000 2 0 (repeat Byte.x00 44))
         isamples
       = Some (WavWriter.mk 8000 2 2
                 (repeat Byte.x00 44 ++ bytes_of_s16 [3; -4]))
    /\ repeat Byte.x00 44 ++ bytes_of_s16 [3; -4]
       = repeat Byte.x00 44 ++ bytes_of_s16 isamples
    /\ 2 = 0 + Z.of_nat (List.length (map float_of_int [3; -4])).
Proof.
  apply (WriteSamples_float_as_int16
           (WavWriter.mk 8000 2 0 (repeat Byte.x00 44))
           (WavWriter.mk 8000 2 2
              (repeat Byte.x00 44 ++ bytes_of_s16 [3; -4]))
           (map float_of_int [3; -4])).
  - split; [unfold is_u32; cbn; lia|reflexivity].
  - vm_compute. reflexivity.
Defined.

(** ** The writer's constructor *)

(** X15.  The constructor returns exactly for 1..65535 channels and a positive
    rate whose 16-bit byte rate, 2 x rate x channels, fits 32 bits; the writer
    then holds no sample and its file the 44 zero bytes that stand for the
    header until [Close]. *)
Theorem WavWriter_open_cases (sr c : Z) :
  is_int sr -> is_int c ->
  WavWriter.WavWriter sr c
  = if (0 <? c) && (c <=? UINT16_MAX) && (0 <? sr)
       && (sr * c * 2 <=? UINT32_MAX)
    then Some (WavWriter.mk sr c 0 (repeat Byte.x00 44))
    else None.
Proof.
  unfold is_int. intros Is Ic. unfold WavWriter.WavWriter.
  cbn [WavWriter.num_channels_ WavWriter.sample_rate_ WavWriter.num_samples_].
  destruct (CheckWavParameters c sr kWavFormat kBytesPerSample 0) eqn:C.
  - pose proof (CheckWavParameters_inv _ _ _ _ _ C)
      as (Hc & Hsr & _ & Hc16 & Hp & _).
    rewrite (u64_small c) in Hc16 by lia. unfold UINT16_MAX in *.
    unfold kBytesPerSample in Hp.
    rewrite (u64_small sr) in Hp by lia.
    rewrite (u64_small (sr * c)) in Hp by nia.
    rewrite (u64_small (sr * c * 2)) in Hp by nia.
    rewrite (proj2 (Z.ltb_lt 0 c)), (proj2 (Z.leb_le c 65535)),
      (proj2 (Z.ltb_lt 0 sr)), (proj2 (Z.leb_le _ _)) by lia.
    reflexivity.
  - cbn [assert bind].
    destruct (Z.ltb_spec 0 c); [|reflexivity].
    destruct (Z.leb_spec c UINT16_MAX); [|reflexivity].
    destruct (Z.ltb_spec 0 sr); [|reflexivity].
    destruct (Z.leb_spec (sr * c * 2) UINT32_MAX); [|reflexivity].
    exfalso. revert C. unfold CheckWavParameters, kBytesPerSample, kWavFormat.
    unfold UINT16_MAX in *.
    destruct (Z.leb_spec c 0); [lia|].
    destruct (Z.leb_spec sr 0); [lia|]. cbn [orb Z.leb Z.compare].
    rewrite (u64_small sr) by lia.
    rewrite (u64_small c) by lia.
    rewrite (u64_small (sr * c)) by nia.
    rewrite (u64_small (sr * c * 2)) by (unfold UINT32_MAX in *; nia).
    rewrite !Z.gtb_ltb.
    destruct (Z.ltb_spec UINT32_MAX sr); [unfold UINT32_MAX in *; lia|].
    destruct (Z.ltb_spec 65535 c); [lia|].
    destruct (Z.ltb_spec UINT32_MAX (sr * c * 2)); [lia|].
    rewrite Z.mod_0_l by lia. vm_compute. discriminate.
Qed.

Lemma WavWriter_open_cases_witness :
  WavWriter.WavWriter 48000 65535 = None.
Proof.
  apply (WavWriter_open_cases 48000 65535); unfold is_int; lia.
Defined.

(** ** Instances of the earlier statements *)

Lemma ReadSamples_whole_payload_witness :
  exists samples r',
    WavReader.ReadSamples (WavReader.mk 8000 1 4 4 (skipn 44 example_file)) 10
    = Some (samples, r')
    /\ Z.of_nat (List.length samples) = 4
    /\ WavReader.num_samples_remaining_ r' = 0
    /\ WavReader.file_handle_ r'
       = skipn (2 * Z.to_nat 4) (skipn 44 example_file).
Proof.
  apply (ReadSamples_whole_payload
           (WavReader.mk 8000 1 4 4 (skipn 44 example_file)) 10).
  - unfold reader_ok, is_u32. cbn. lia.
  - cbn. lia.
  - vm_compute. discriminate.
Defined.

Lemma WriteSamples_float_whole_frames_call_witness :
  exists w',
    WavWriter.WriteSamples_float
      (WavWriter.mk 8000 2 0 (repeat Byte.x00 44))
      [float_of_int 5; S754_zero false]
    = Some w'
    /\ WavWriter.num_samples w' = 0 + 2
    /\ writer_ok w'.
Proof.
  apply (WriteSamples_float_whole_frames_call
           (WavWriter.mk 8000 2 0 (repeat Byte.x00 44))
           [float_of_int 5; S754_zero false]).
  - split; [unfold is_u32; cbn; lia|reflexivity].
  - repeat constructor; discriminate.
  - left. reflexivity.
  - reflexivity.
  - cbn. lia.
Defined.
